(** * Nano-Banana-App: edit history, batch orchestration, compare slider and
    response classification

    A shallow embedding of the state logic of the photo-editing client:
    - [services/geminiService.ts]: [handleApiResponse], the classification of
      a model response into a data URL or a thrown [Error];
    - the [App] component: the undo/redo history ([addImageToHistory],
      [handleUndo], [handleRedo], [handleReset]), the edit handlers
      ([handleGenerate], [handleApplyFilter], ...), the batch run
      ([handleBatchApply]) and the compare slider
      ([handleComparerActionMove]).

    React state is one record; every handler is a computation in a state and
    exception monad, so that a [throw] keeps the state written before it and
    [try]/[catch]/[finally] read as in the source.  Network answers, the
    clock and the platform's [atob] are inputs of the handlers.  JavaScript
    numbers are IEEE 754 binary64 values ([spec_float] at precision 53). *)

From Stdlib Require Import ZArith List String Ascii Bool Lia DecimalString.
From Stdlib Require Import SpecFloat.
From Stdlib Require DecimalNat.
From stdpp Require Import base list.

Open Scope string_scope.

(** ** JavaScript values *)

Module JS.

(** A string is truthy when it is not empty. *)
Definition truthy (s : string) : bool :=
  match s with
  | EmptyString => false
  | String _ _ => true
  end.

(** [o?.x] followed by a truthiness test: absent and empty are both falsy. *)
Definition truthyOpt (o : option string) : option string :=
  match o with
  | Some s => if truthy s then Some s else None
  | None => None
  end.

(** A value interpolated in a template literal: [undefined] prints as the
    word. *)
Definition interpolate (o : option string) : string :=
  match o with
  | Some s => s
  | None => "undefined"
  end.

(** White space of [String.prototype.trim] among the 8-bit code units:
    TAB, LF, VT, FF, CR, SP and NBSP. *)
Definition isWhiteSpace (c : ascii) : bool :=
  let n := nat_of_ascii c in
  ((9 <=? n)%nat && (n <=? 13)%nat) || (n =? 32)%nat || (n =? 160)%nat.

Fixpoint trimStart (s : string) : string :=
  match s with
  | EmptyString => EmptyString
  | String c rest => if isWhiteSpace c then trimStart rest else s
  end.

Fixpoint trimEnd (s : string) : string :=
  match s with
  | EmptyString => EmptyString
  | String c rest =>
      match trimEnd rest with
      | EmptyString => if isWhiteSpace c then EmptyString else String c EmptyString
      | kept => String c kept
      end
  end.

Definition trim (s : string) : string := trimEnd (trimStart s).

(** The character U+0022. *)
Definition doubleQuote : ascii := "034"%char.

(** Decimal rendering of a non-negative integer in a template literal. *)
Definition showNat (n : nat) : string := NilZero.string_of_uint (Nat.to_uint n).
Definition showN (n : N) : string := NilZero.string_of_uint (N.to_uint n).

(** What a [throw] carries: an [Error] with its message, or any other
    value (a rejected [FileReader] passes its event, for instance). *)
Inductive Thrown : Type :=
| ErrorObject (message : string)
| OtherValue.

(** The outcome of a call: a value or a thrown value. *)
Inductive completion (A : Type) : Type :=
| Normal (a : A)
| Throw (t : Thrown).
Arguments Normal {A} a.
Arguments Throw {A} t.

Definition andThen {A B} (c : completion A) (k : A -> completion B) : completion B :=
  match c with
  | Normal a => k a
  | Throw t => Throw t
  end.

(** [String.prototype.split(',')]. *)
Fixpoint splitComma (s : string) : list string :=
  match s with
  | EmptyString => [EmptyString]
  | String c rest =>
      if Ascii.eqb c "," then EmptyString :: splitComma rest
      else match splitComma rest with
           | piece :: pieces => String c piece :: pieces
           | [] => [String c EmptyString]
           end
  end.

(** Line terminators, which [.] does not match. *)
Definition isLineTerminator (c : ascii) : bool :=
  Ascii.eqb c "010" || Ascii.eqb c "013".

(** The lazy group of [/:(.*?);/] once the colon is consumed: the text up
    to the first semicolon, provided no line terminator comes before it. *)
Fixpoint lazyUntilSemicolon (s : string) : option string :=
  match s with
  | EmptyString => None
  | String c rest =>
      if Ascii.eqb c ";" then Some EmptyString
      else if isLineTerminator c then None
      else option_map (String c) (lazyUntilSemicolon rest)
  end.

(** [s.match(/:(.*?);/)]: group 1 of the leftmost match. *)
Fixpoint matchMime (s : string) : option string :=
  match s with
  | EmptyString => None
  | String c rest =>
      if Ascii.eqb c ":" then
        match lazyUntilSemicolon rest with
        | Some g => Some g
        | None => matchMime rest
        end
      else matchMime rest
  end.

End JS.

Import JS.

Notation "'let!' x ':=' c 'in' k" := (andThen c (fun x => k))
  (at level 10, x name, c at level 100, k at level 200).

(** ** JavaScript numbers *)

Module Number.

Definition number : Type := spec_float.
Definition prec : Z := 53.
Definition emax : Z := 1024.

(** An integer literal. *)
Definition ofZ (z : Z) : number := binary_normalize prec emax z 0 false.

Definition sub : number -> number -> number := SFsub prec emax.
Definition div : number -> number -> number := SFdiv prec emax.
Definition mul : number -> number -> number := SFmul prec emax.

(** [Math.min] and [Math.max]: NaN if an argument is NaN, and -0 is
    smaller than +0. *)
Definition Math_min (a b : number) : number :=
  match SFcompare a b with
  | None => S754_nan
  | Some Lt => a
  | Some Gt => b
  | Some Eq =>
      match a, b with
      | S754_zero sa, S754_zero sb => S754_zero (sa || sb)
      | _, _ => a
      end
  end.

Definition Math_max (a b : number) : number :=
  match SFcompare a b with
  | None => S754_nan
  | Some Lt => b
  | Some Gt => a
  | Some Eq =>
      match a, b with
      | S754_zero sa, S754_zero sb => S754_zero (sa && sb)
      | _, _ => a
      end
  end.

Definition isNaN (a : number) : bool :=
  match a with S754_nan => true | _ => false end.

(** Neither NaN nor an infinity. *)
Definition isFinite (a : number) : bool :=
  match a with S754_zero _ | S754_finite _ _ _ => true | _ => false end.

Definition leb : number -> number -> bool := SFleb.
Definition ltb : number -> number -> bool := SFltb.

End Number.

Import Number.

(** ** Files and points *)

Module Dom.

(** A [File]: its name, MIME type and bytes. *)
Record File := { name : string; type : string; bytes : list N }.

(** The characters U+0020 to U+007E. *)
Definition isPrintable (c : ascii) : bool :=
  let n := nat_of_ascii c in (32 <=? n)%nat && (n <=? 126)%nat.

(** ASCII lower case of one character. *)
Definition toAsciiLowerCase (c : ascii) : ascii :=
  let n := nat_of_ascii c in
  if (65 <=? n)%nat && (n <=? 90)%nat then ascii_of_nat (n + 32) else c.

Fixpoint allPrintable (s : string) : bool :=
  match s with
  | EmptyString => true
  | String c rest => isPrintable c && allPrintable rest
  end.

Fixpoint lowerCase (s : string) : string :=
  match s with
  | EmptyString => EmptyString
  | String c rest => String (toAsciiLowerCase c) (lowerCase rest)
  end.

(** The type that a [File] gets from the [type] option of its constructor:
    empty when the option holds a character outside U+0020 to U+007E, and
    the option in ASCII lower case otherwise. *)
Definition fileType (typeOption : string) : string :=
  if allPrintable typeOption then lowerCase typeOption else EmptyString.

(** [new File([bits], fileName, { type: typeOption })] *)
Definition newFile (bits : list N) (fileName : string) (typeOption : string) : File :=
  {| name := fileName; type := fileType typeOption; bytes := bits |}.

(** [{ x: number, y: number }] *)
Record Point := { x : number; y : number }.

End Dom.

Import Dom.

(** ** services/geminiService.ts *)

Module Gateway.

(** The fields of [GenerateContentResponse] that the service reads.  What
    the service writes to the console is no part of its result and is left
    out. *)
Record Blob := { mimeType : option string; data : option string }.
Record Part := { inlineData : option Blob; partText : option string }.
Record Content := { parts : option (list Part) }.
Record Candidate := { content : option Content; finishReason : option string }.
Record PromptFeedback :=
  { blockReason : option string; blockReasonMessage : option string }.
Record GenerateContentResponse :=
  { promptFeedback : option PromptFeedback;
    candidates : option (list Candidate);
    text : option string }.

(** [response.candidates?.[0]] *)
Definition firstCandidate (response : GenerateContentResponse) : option Candidate :=
  match candidates response with
  | Some (c :: _) => Some c
  | _ => None
  end.

(** [response.candidates?.[0]?.content?.parts?.find(part => part.inlineData)] *)
Definition imagePartFromResponse (response : GenerateContentResponse) : option Part :=
  match firstCandidate response with
  | Some c =>
      match content c with
      | Some ct =>
          match parts ct with
          | Some ps => List.find (fun part => bool_decide (is_Some (inlineData part))) ps
          | None => None
          end
      | None => None
      end
  | None => None
  end.

Definition blockedMessage (blockReason : string) (blockReasonMessage : option string) : string :=
  "Request was blocked. Reason: " ++ blockReason ++ ". "
    ++ match truthyOpt blockReasonMessage with Some m => m | None => EmptyString end.

Definition dataUrl (b : Blob) : string :=
  "data:" ++ interpolate (mimeType b) ++ ";base64," ++ interpolate (data b).

Definition stoppedMessage (context finishReason : string) : string :=
  "Image generation for " ++ context ++ " stopped unexpectedly. Reason: "
    ++ finishReason ++ ". This often relates to safety settings.".

Definition noImageMessage (context : string) (textFeedback : option string) : string :=
  "The AI model did not return an image for the " ++ context ++ ". "
    ++ match truthyOpt textFeedback with
       | Some t => "The model responded with text: " ++ String doubleQuote t ++ String doubleQuote EmptyString
       | None => "This can happen due to safety filters or if the request is too complex. Please try rephrasing your prompt to be more direct."
       end.

Definition handleApiResponse (response : GenerateContentResponse) (context : string)
  : completion string :=
  (* 1. Check for prompt blocking first *)
  match
    match promptFeedback response with
    | Some pf => option_map (fun r => (r, blockReasonMessage pf)) (truthyOpt (blockReason pf))
    | None => None
    end
  with
  | Some (reason, message) => Throw (ErrorObject (blockedMessage reason message))
  | None =>
      (* 2. Try to find the image part *)
      match
        match imagePartFromResponse response with
        | Some part => inlineData part
        | None => None
        end
      with
      | Some blob => Normal (dataUrl blob)
      | None =>
          (* 3. If no image, check for other reasons *)
          let finishReason :=
            match firstCandidate response with
            | Some c => finishReason c
            | None => None
            end in
          match truthyOpt finishReason with
          | Some reason =>
              if negb (String.eqb reason "STOP")
              then Throw (ErrorObject (stoppedMessage context reason))
              else Throw (ErrorObject (noImageMessage context (option_map trim (text response))))
          | None =>
              Throw (ErrorObject (noImageMessage context (option_map trim (text response))))
          end
      end
  end.

(** The seven operations build a request from their arguments, await
    [fileToPart] and [ai.models.generateContent], and classify the answer.
    [answer] is what the awaits deliver: the response, or the value they
    reject with.  The request leaves the client, so only the answer
    counts here. *)
Definition generateEditedImage (answer : completion GenerateContentResponse)
    (originalImage : File) (userPrompt : string) (hotspot : Point) : completion string :=
  let! response := answer in handleApiResponse response "edit".

Definition generateFilteredImage (answer : completion GenerateContentResponse)
    (originalImage : File) (filterPrompt : string) : completion string :=
  let! response := answer in handleApiResponse response "filter".

Definition generateAdjustedImage (answer : completion GenerateContentResponse)
    (originalImage : File) (adjustmentPrompt : string) : completion string :=
  let! response := answer in handleApiResponse response "adjustment".

Definition generateWhiskedImage (answer : completion GenerateContentResponse)
    (subjectImage sceneImage styleImage : File) : completion string :=
  let! response := answer in handleApiResponse response "whisk".

Definition generateExtendedBackdrop (answer : completion GenerateContentResponse)
    (originalImage : File) : completion string :=
  let! response := answer in handleApiResponse response "backdrop extension".

Definition generateReplacedBackdrop (answer : completion GenerateContentResponse)
    (originalImage backgroundImage : File) : completion string :=
  let! response := answer in handleApiResponse response "backdrop replacement".

Definition generateEnhancedImage (answer : completion GenerateContentResponse)
    (originalImage : File) : completion string :=
  let! response := answer in handleApiResponse response "enhancement".

End Gateway.

(** ** The App component *)

Module App.

Record Crop := { cropX : number; cropY : number; cropWidth : number; cropHeight : number }.
Record Progress := { processed : nat; total : nat }.
(** The fields of [getBoundingClientRect()] that the slider reads. *)
Record DOMRect := { left : number; width : number }.

Inductive Tab := retouch | backdrop | adjust | filters | cropTab.
Inductive ViewMode := start | editor | whisk | batch.

(** A [console.error] call: an optional text and the value logged. *)
Record LogEntry := { logText : option string; logValue : Thrown }.

Record State := mkState {
  history : list File;
  historyIndex : Z;
  prompt : string;
  editHotspot : option Point;
  displayHotspot : option Point;
  activeTab : Tab;
  crop : option Crop;
  completedCrop : option Crop;
  isCompareModeActive : bool;
  compareSliderPosition : number;
  isDraggingComparer : bool;
  batchImages : list File;
  processedBatchImages : list (option File);
  processingProgress : option Progress;
  isBatchProcessingComplete : bool;
  viewMode : ViewMode;
  isLoading : bool;
  error : option string;
  console : list LogEntry
}.

(** The state is updated one field at a time, as by the [useState] setters. *)
Definition with_history (v : list File) (st : State) : State :=
  mkState v (historyIndex st) (prompt st) (editHotspot st) (displayHotspot st) (activeTab
    st) (crop st) (completedCrop st) (isCompareModeActive st) (compareSliderPosition st)
    (isDraggingComparer st) (batchImages st) (processedBatchImages st) (processingProgress
    st) (isBatchProcessingComplete st) (viewMode st) (isLoading st) (error st) (console st).
Definition with_historyIndex (v : Z) (st : State) : State :=
  mkState (history st) v (prompt st) (editHotspot st) (displayHotspot st) (activeTab st)
    (crop st) (completedCrop st) (isCompareModeActive st) (compareSliderPosition st)
    (isDraggingComparer st) (batchImages st) (processedBatchImages st) (processingProgress
    st) (isBatchProcessingComplete st) (viewMode st) (isLoading st) (error st) (console st).
Definition with_prompt (v : string) (st : State) : State :=
  mkState (history st) (historyIndex st) v (editHotspot st) (displayHotspot st) (activeTab
    st) (crop st) (completedCrop st) (isCompareModeActive st) (compareSliderPosition st)
    (isDraggingComparer st) (batchImages st) (processedBatchImages st) (processingProgress
    st) (isBatchProcessingComplete st) (viewMode st) (isLoading st) (error st) (console st).
Definition with_editHotspot (v : option Point) (st : State) : State :=
  mkState (history st) (historyIndex st) (prompt st) v (displayHotspot st) (activeTab st)
    (crop st) (completedCrop st) (isCompareModeActive st) (compareSliderPosition st)
    (isDraggingComparer st) (batchImages st) (processedBatchImages st) (processingProgress
    st) (isBatchProcessingComplete st) (viewMode st) (isLoading st) (error st) (console st).
Definition with_displayHotspot (v : option Point) (st : State) : State :=
  mkState (history st) (historyIndex st) (prompt st) (editHotspot st) v (activeTab st)
    (crop st) (completedCrop st) (isCompareModeActive st) (compareSliderPosition st)
    (isDraggingComparer st) (batchImages st) (processedBatchImages st) (processingProgress
    st) (isBatchProcessingComplete st) (viewMode st) (isLoading st) (error st) (console st).
Definition with_activeTab (v : Tab) (st : State) : State :=
  mkState (history st) (historyIndex st) (prompt st) (editHotspot st) (displayHotspot st)
    v (crop st) (completedCrop st) (isCompareModeActive st) (compareSliderPosition st)
    (isDraggingComparer st) (batchImages st) (processedBatchImages st) (processingProgress
    st) (isBatchProcessingComplete st) (viewMode st) (isLoading st) (error st) (console st).
Definition with_crop (v : option Crop) (st : State) : State :=
  mkState (history st) (historyIndex st) (prompt st) (editHotspot st) (displayHotspot st)
    (activeTab st) v (completedCrop st) (isCompareModeActive st) (compareSliderPosition st)
    (isDraggingComparer st) (batchImages st) (processedBatchImages st) (processingProgress
    st) (isBatchProcessingComplete st) (viewMode st) (isLoading st) (error st) (console st).
Definition with_completedCrop (v : option Crop) (st : State) : State :=
  mkState (history st) (historyIndex st) (prompt st) (editHotspot st) (displayHotspot st)
    (activeTab st) (crop st) v (isCompareModeActive st) (compareSliderPosition st)
    (isDraggingComparer st) (batchImages st) (processedBatchImages st) (processingProgress
    st) (isBatchProcessingComplete st) (viewMode st) (isLoading st) (error st) (console st).
Definition with_isCompareModeActive (v : bool) (st : State) : State :=
  mkState (history st) (historyIndex st) (prompt st) (editHotspot st) (displayHotspot st)
    (activeTab st) (crop st) (completedCrop st) v (compareSliderPosition st)
    (isDraggingComparer st) (batchImages st) (processedBatchImages st) (processingProgress
    st) (isBatchProcessingComplete st) (viewMode st) (isLoading st) (error st) (console st).
Definition with_compareSliderPosition (v : number) (st : State) : State :=
  mkState (history st) (historyIndex st) (prompt st) (editHotspot st) (displayHotspot st)
    (activeTab st) (crop st) (completedCrop st) (isCompareModeActive st) v
    (isDraggingComparer st) (batchImages st) (processedBatchImages st) (processingProgress
    st) (isBatchProcessingComplete st) (viewMode st) (isLoading st) (error st) (console st).
Definition with_isDraggingComparer (v : bool) (st : State) : State :=
  mkState (history st) (historyIndex st) (prompt st) (editHotspot st) (displayHotspot st)
    (activeTab st) (crop st) (completedCrop st) (isCompareModeActive st)
    (compareSliderPosition st) v (batchImages st) (processedBatchImages st)
    (processingProgress st) (isBatchProcessingComplete st) (viewMode st) (isLoading st)
    (error st) (console st).
Definition with_batchImages (v : list File) (st : State) : State :=
  mkState (history st) (historyIndex st) (prompt st) (editHotspot st) (displayHotspot st)
    (activeTab st) (crop st) (completedCrop st) (isCompareModeActive st)
    (compareSliderPosition st) (isDraggingComparer st) v (processedBatchImages st)
    (processingProgress st) (isBatchProcessingComplete st) (viewMode st) (isLoading st)
    (error st) (console st).
Definition with_processedBatchImages (v : list (option File)) (st : State) : State :=
  mkState (history st) (historyIndex st) (prompt st) (editHotspot st) (displayHotspot st)
    (activeTab st) (crop st) (completedCrop st) (isCompareModeActive st)
    (compareSliderPosition st) (isDraggingComparer st) (batchImages st) v
    (processingProgress st) (isBatchProcessingComplete st) (viewMode st) (isLoading st)
    (error st) (console st).
Definition with_processingProgress (v : option Progress) (st : State) : State :=
  mkState (history st) (historyIndex st) (prompt st) (editHotspot st) (displayHotspot st)
    (activeTab st) (crop st) (completedCrop st) (isCompareModeActive st)
    (compareSliderPosition st) (isDraggingComparer st) (batchImages st)
    (processedBatchImages st) v (isBatchProcessingComplete st) (viewMode st) (isLoading st)
    (error st) (console st).
Definition with_isBatchProcessingComplete (v : bool) (st : State) : State :=
  mkState (history st) (historyIndex st) (prompt st) (editHotspot st) (displayHotspot st)
    (activeTab st) (crop st) (completedCrop st) (isCompareModeActive st)
    (compareSliderPosition st) (isDraggingComparer st) (batchImages st)
    (processedBatchImages st) (processingProgress st) v (viewMode st) (isLoading st) (error
    st) (console st).
Definition with_viewMode (v : ViewMode) (st : State) : State :=
  mkState (history st) (historyIndex st) (prompt st) (editHotspot st) (displayHotspot st)
    (activeTab st) (crop st) (completedCrop st) (isCompareModeActive st)
    (compareSliderPosition st) (isDraggingComparer st) (batchImages st)
    (processedBatchImages st) (processingProgress st) (isBatchProcessingComplete st) v
    (isLoading st) (error st) (console st).
Definition with_isLoading (v : bool) (st : State) : State :=
  mkState (history st) (historyIndex st) (prompt st) (editHotspot st) (displayHotspot st)
    (activeTab st) (crop st) (completedCrop st) (isCompareModeActive st)
    (compareSliderPosition st) (isDraggingComparer st) (batchImages st)
    (processedBatchImages st) (processingProgress st) (isBatchProcessingComplete st)
    (viewMode st) v (error st) (console st).
Definition with_error (v : option string) (st : State) : State :=
  mkState (history st) (historyIndex st) (prompt st) (editHotspot st) (displayHotspot st)
    (activeTab st) (crop st) (completedCrop st) (isCompareModeActive st)
    (compareSliderPosition st) (isDraggingComparer st) (batchImages st)
    (processedBatchImages st) (processingProgress st) (isBatchProcessingComplete st)
    (viewMode st) (isLoading st) v (console st).
Definition with_console (v : list LogEntry) (st : State) : State :=
  mkState (history st) (historyIndex st) (prompt st) (editHotspot st) (displayHotspot st)
    (activeTab st) (crop st) (completedCrop st) (isCompareModeActive st)
    (compareSliderPosition st) (isDraggingComparer st) (batchImages st)
    (processedBatchImages st) (processingProgress st) (isBatchProcessingComplete st)
    (viewMode st) (isLoading st) (error st) v.

(** *** The state and exception monad of the handlers *)

Definition M (A : Type) : Type := State -> completion A * State.

Definition ret {A} (a : A) : M A := fun st => (Normal a, st).
Definition bind {A B} (m : M A) (k : A -> M B) : M B :=
  fun st =>
    match m st with
    | (Normal a, st') => k a st'
    | (Throw t, st') => (Throw t, st')
    end.
Definition throw {A} (t : Thrown) : M A := fun st => (Throw t, st).
Definition lift {A} (c : completion A) : M A := fun st => (c, st).
Definition modify (f : State -> State) : M unit := fun st => (Normal tt, f st).

#[export] Instance M_ret : MRet M := @ret.
#[export] Instance M_bind : MBind M := fun A B k m => bind m k.

(** [try { body } catch (err) { handler } finally { finalizer }] *)
Definition tryCatchFinally {A} (body : M A) (handler : Thrown -> M A) (finalizer : M unit)
  : M A :=
  fun st =>
    let '(r, st1) :=
      match body st with
      | (Normal a, st') => (Normal a, st')
      | (Throw t, st') => handler t st'
      end in
    match finalizer st1 with
    | (Normal _, st2) => (r, st2)
    | (Throw t, st2) => (Throw t, st2)
    end.

(** [try { body } catch (err) { handler }] *)
Definition tryCatch {A} (body : M A) (handler : Thrown -> M A) : M A :=
  fun st =>
    match body st with
    | (Normal a, st') => (Normal a, st')
    | (Throw t, st') => handler t st'
    end.

Definition setHistory v : M unit := modify (with_history v).
Definition setHistoryIndex v : M unit := modify (with_historyIndex v).
Definition setPrompt v : M unit := modify (with_prompt v).
Definition setEditHotspot v : M unit := modify (with_editHotspot v).
Definition setDisplayHotspot v : M unit := modify (with_displayHotspot v).
Definition setActiveTab v : M unit := modify (with_activeTab v).
Definition setCrop v : M unit := modify (with_crop v).
Definition setCompletedCrop v : M unit := modify (with_completedCrop v).
Definition setIsCompareModeActive v : M unit := modify (with_isCompareModeActive v).
Definition setCompareSliderPosition v : M unit := modify (with_compareSliderPosition v).
Definition setIsDraggingComparer v : M unit := modify (with_isDraggingComparer v).
Definition setBatchImages v : M unit := modify (with_batchImages v).
Definition setProcessedBatchImages v : M unit := modify (with_processedBatchImages v).
Definition setProcessingProgress v : M unit := modify (with_processingProgress v).
Definition setIsBatchProcessingComplete v : M unit := modify (with_isBatchProcessingComplete v).
Definition setViewMode v : M unit := modify (with_viewMode v).
Definition setIsLoading v : M unit := modify (with_isLoading v).
Definition setError v : M unit := modify (with_error v).

(** [setProcessingProgress(prev => prev ? ({ ...prev, processed: prev.processed + 1 }) : null)] *)
Definition tickProcessingProgress : M unit :=
  modify (fun st =>
    with_processingProgress
      (option_map (fun prev => {| processed := processed prev + 1; total := total prev |})
         (processingProgress st)) st).

Definition console_error (text : option string) (value : Thrown) : M unit :=
  modify (fun st => with_console (console st ++ [{| logText := text; logValue := value |}])%list st).

(** *** Values derived from the state at each render *)

(** [array[i]] for an integer-valued index. *)
Definition at_index {A} (l : list A) (i : Z) : option A :=
  if (i <? 0)%Z then None else l !! Z.to_nat i.

Definition currentImage (st : State) : option File := at_index (history st) (historyIndex st).
Definition originalImage (st : State) : option File := at_index (history st) 0.
Definition canUndo (st : State) : bool := (0 <? historyIndex st)%Z.
Definition canRedo (st : State) : bool :=
  (historyIndex st <? Z.of_nat (length (history st)) - 1)%Z.

(** [array.slice(0, end)]: a negative [end] counts from the end of the
    array, and the result stops at the array's length. *)
Definition slice0 {A} (l : list A) (stop : Z) : list A :=
  let len := Z.of_nat (length l) in
  let k := if (stop <? 0)%Z then Z.max (len + stop) 0 else Z.min stop len in
  take (Z.to_nat k) l.

(** [err instanceof Error ? err.message : 'An unknown error occurred.'] *)
Definition errorMessageOf (err : Thrown) : string :=
  match err with
  | ErrorObject message => message
  | OtherValue => "An unknown error occurred."
  end.

Section Platform.

(** [window.atob], which throws on malformed base64. *)
Variable atob : string -> completion string.

(** [while(n--){ u8arr[n] = bstr.charCodeAt(n); }] *)
Fixpoint fillBytes (n : nat) (bstr : string) (u8arr : list N) : list N :=
  match n with
  | O => u8arr
  | S n' =>
      fillBytes n' bstr
        (<[n' := match String.get n' bstr with
                 | Some c => N_of_ascii c
                 | None => 0%N
                 end]> u8arr)
  end.

Definition dataURLtoFile (dataurl filename : string) : completion File :=
  let arr := splitComma dataurl in
  if (length arr <? 2)%nat then Throw (ErrorObject "Invalid data URL")
  else
    match truthyOpt (matchMime (nth 0 arr EmptyString)) with
    | None => Throw (ErrorObject "Could not parse MIME type from data URL")
    | Some mime =>
        let! bstr := atob (nth 1 arr EmptyString) in
        let n := String.length bstr in
        Normal (newFile (fillBytes n bstr (replicate n 0%N)) filename mime)
    end.

(** *** The edit history

    A handler is a closure made at a render: [render] is the state it
    captured, and the computation runs on the state at the time of the
    call. *)

Definition addImageToHistory (render : State) (newImageFile : File) : M unit :=
  let newHistory := (slice0 (history render) (historyIndex render + 1) ++ [newImageFile])%list in
  setHistory newHistory ;;
  setHistoryIndex (Z.of_nat (length newHistory) - 1) ;;
  (* Reset transient states after an action *)
  setCrop None ;;
  setCompletedCrop None ;;
  setIsCompareModeActive false.

Definition handleImageUpload (file : File) : M unit :=
  setError None ;;
  setHistory [file] ;;
  setHistoryIndex 0 ;;
  setEditHotspot None ;;
  setDisplayHotspot None ;;
  setActiveTab retouch ;;
  setCrop None ;;
  setCompletedCrop None ;;
  setViewMode editor ;;
  setIsCompareModeActive false.

Definition handleUndo (render : State) : M unit :=
  if canUndo render then
    setHistoryIndex (historyIndex render - 1) ;;
    setEditHotspot None ;;
    setDisplayHotspot None
  else mret tt.

Definition handleRedo (render : State) : M unit :=
  if canRedo render then
    setHistoryIndex (historyIndex render + 1) ;;
    setEditHotspot None ;;
    setDisplayHotspot None
  else mret tt.

Definition handleReset (render : State) : M unit :=
  if (0 <? length (history render))%nat then
    setHistoryIndex 0 ;;
    setError None ;;
    setEditHotspot None ;;
    setDisplayHotspot None ;;
    setIsCompareModeActive false
  else mret tt.

Definition handleUploadNew : M unit :=
  setHistory [] ;;
  setHistoryIndex (-1) ;;
  setBatchImages [] ;;
  setProcessedBatchImages [] ;;
  setIsBatchProcessingComplete false ;;
  setError None ;;
  setPrompt EmptyString ;;
  setEditHotspot None ;;
  setDisplayHotspot None ;;
  setViewMode start ;;
  setIsCompareModeActive false.


(** *** The edit handlers

    [now] is the value of [Date.now()] and [answer] what the awaited
    service call delivers. *)

Definition handleGenerate (render : State) (now : N)
    (answer : completion Gateway.GenerateContentResponse) : M unit :=
  match currentImage render with
  | None => setError (Some "No image loaded to edit.")
  | Some currentImage =>
      if negb (truthy (trim (prompt render))) then
        setError (Some "Please enter a description for your edit.")
      else
        match editHotspot render with
        | None => setError (Some "Please click on the image to select an area to edit.")
        | Some hotspot =>
            setIsLoading true ;;
            setError None ;;
            tryCatchFinally
              (editedImageUrl ← lift (Gateway.generateEditedImage answer currentImage
                                      (prompt render) hotspot) ;
               newImageFile ← lift (dataURLtoFile editedImageUrl
                                      ("edited-" ++ showN now ++ ".png")) ;
               addImageToHistory render newImageFile ;;
               setEditHotspot None ;;
               setDisplayHotspot None)
              (fun err =>
                 setError (Some ("Failed to generate the image. " ++ errorMessageOf err)) ;;
                 console_error None err)
              (setIsLoading false)
        end
  end.

Definition handleApplyFilter (render : State) (now : N)
    (answer : completion Gateway.GenerateContentResponse)
    (filterPrompt : string) : M unit :=
  match currentImage render with
  | None => setError (Some "No image loaded to apply a filter to.")
  | Some currentImage =>
      setIsLoading true ;;
      setError None ;;
      tryCatchFinally
        (filteredImageUrl ← lift (Gateway.generateFilteredImage answer currentImage filterPrompt) ;
         newImageFile ← lift (dataURLtoFile filteredImageUrl ("filtered-" ++ showN now ++ ".png")) ;
         addImageToHistory render newImageFile)
        (fun err =>
           setError (Some ("Failed to apply the filter. " ++ errorMessageOf err)) ;;
           console_error None err)
        (setIsLoading false)
  end.

Definition handleApplyAdjustment (render : State) (now : N)
    (answer : completion Gateway.GenerateContentResponse)
    (adjustmentPrompt : string) : M unit :=
  match currentImage render with
  | None => setError (Some "No image loaded to apply an adjustment to.")
  | Some currentImage =>
      setIsLoading true ;;
      setError None ;;
      tryCatchFinally
        (adjustedImageUrl ← lift (Gateway.generateAdjustedImage answer currentImage adjustmentPrompt) ;
         newImageFile ← lift (dataURLtoFile adjustedImageUrl ("adjusted-" ++ showN now ++ ".png")) ;
         addImageToHistory render newImageFile)
        (fun err =>
           setError (Some ("Failed to apply the adjustment. " ++ errorMessageOf err)) ;;
           console_error None err)
        (setIsLoading false)
  end.

Definition handleEnhanceQuality (render : State) (now : N)
    (answer : completion Gateway.GenerateContentResponse) : M unit :=
  match currentImage render with
  | None => setError (Some "No image loaded to enhance.")
  | Some currentImage =>
      setIsLoading true ;;
      setError None ;;
      tryCatchFinally
        (enhancedImageUrl ← lift (Gateway.generateEnhancedImage answer currentImage) ;
         newImageFile ← lift (dataURLtoFile enhancedImageUrl ("enhanced-" ++ showN now ++ ".png")) ;
         addImageToHistory render newImageFile)
        (fun err =>
           setError (Some ("Failed to enhance image. " ++ errorMessageOf err)) ;;
           console_error None err)
        (setIsLoading false)
  end.

(** [imgRefCurrent] tells whether the image element is mounted; [canvas]
    is the 2D context's [toDataURL] result, absent when no context can
    be had.  Nothing catches a failure of [dataURLtoFile] here. *)
Definition handleApplyCrop (render : State) (now : N)
    (imgRefCurrent : bool) (canvas : option string) : M unit :=
  match completedCrop render, imgRefCurrent with
  | Some _, true =>
      match canvas with
      | None => setError (Some "Could not process the crop.")
      | Some croppedImageUrl =>
          newImageFile ← lift (dataURLtoFile croppedImageUrl
                                 ("cropped-" ++ showN now ++ ".png")) ;
          addImageToHistory render newImageFile
      end
  | _, _ => setError (Some "Please select an area to crop.")
  end.

Definition handleExtendBackdrop (render : State) (now : N)
    (answer : completion Gateway.GenerateContentResponse) : M unit :=
  match currentImage render with
  | None => setError (Some "No image loaded to extend.")
  | Some currentImage =>
      setIsLoading true ;;
      setError None ;;
      tryCatchFinally
        (extendedImageUrl ← lift (Gateway.generateExtendedBackdrop answer currentImage) ;
         newImageFile ← lift (dataURLtoFile extendedImageUrl ("extended-" ++ showN now ++ ".png")) ;
         addImageToHistory render newImageFile)
        (fun err =>
           setError (Some ("Failed to extend backdrop. " ++ errorMessageOf err)) ;;
           console_error None err)
        (setIsLoading false)
  end.

Definition handleReplaceBackdrop (render : State) (now : N)
    (answer : completion Gateway.GenerateContentResponse)
    (backgroundImage : File) : M unit :=
  match currentImage render with
  | None => setError (Some "No image loaded for backdrop replacement.")
  | Some currentImage =>
      setIsLoading true ;;
      setError None ;;
      tryCatchFinally
        (replacedImageUrl ← lift (Gateway.generateReplacedBackdrop answer currentImage backgroundImage) ;
         newImageFile ← lift (dataURLtoFile replacedImageUrl ("replaced-" ++ showN now ++ ".png")) ;
         addImageToHistory render newImageFile)
        (fun err =>
           setError (Some ("Failed to replace backdrop. " ++ errorMessageOf err)) ;;
           console_error None err)
        (setIsLoading false)
  end.

Definition handleWhiskGenerate (now : N)
    (answer : completion Gateway.GenerateContentResponse)
    (subject scene style : File) : M unit :=
  setIsLoading true ;;
  setError None ;;
  tryCatchFinally
    (whiskedImageUrl ← lift (Gateway.generateWhiskedImage answer subject scene style) ;
     newImageFile ← lift (dataURLtoFile whiskedImageUrl
                            ("whisked-" ++ showN now ++ ".png")) ;
     setHistory [newImageFile] ;;
     setHistoryIndex 0 ;;
     setViewMode editor)
    (fun err =>
       setError (Some ("Failed to whisk images. " ++ errorMessageOf err)) ;;
       console_error None err)
    (setIsLoading false).
(** *** The batch run *)

Definition handleBatchUpload (files : list File) : M unit :=
  setError None ;;
  setBatchImages files ;;
  setProcessedBatchImages (replicate (length files) None) ;;
  setIsBatchProcessingComplete false ;;
  setViewMode batch.

(** A generator as [handleBatchApply] receives it, with the answer that its
    await delivers made explicit. *)
Definition Generator : Type :=
  completion Gateway.GenerateContentResponse -> File -> string -> completion string.

(** The callback mapped over [batchImages], run when its generator settles. *)
Definition batchInvocation (prompt : string) (generator : Generator) (type : string)
    (answer : completion Gateway.GenerateContentResponse) (index : nat) (image : File)
  : M File :=
  tryCatch
    (result ← lift (generator answer image prompt) ;
     newFile ← lift (dataURLtoFile result
                       (type ++ "-" ++ showNat index ++ "-" ++ name image)) ;
     tickProcessingProgress ;;
     mret newFile)
    (fun err =>
       console_error
         (Some ("Failed to process image " ++ showNat index ++ " (" ++ name image ++ "):"))
         err ;;
       tickProcessingProgress ;;
       throw err).

(** [Promise.allSettled]: every task owns the slot of its index.  [order]
    lists the tasks in the order in which they settle; an entry that names
    no pending task settles nothing. *)
Fixpoint settle {A} (tasks : list (M A)) (order : list nat)
    (slots : list (option (completion A))) (st : State)
  : list (option (completion A)) * State :=
  match order with
  | [] => (slots, st)
  | i :: rest =>
      match (tasks !! i : option (M A)), slots !! i with
      | Some task, Some None =>
          let '(result, st') := task st in
          settle tasks rest (<[i := Some result]> slots) st'
      | _, _ => settle tasks rest slots st
      end
  end.

(** The awaited promise resolves once no slot is pending; until then the
    caller does not resume ([None]). *)
Definition allSettled {A} (tasks : list (M A)) (order : list nat) (st : State)
  : option (list (completion A) * State) :=
  let '(slots, st') := settle tasks order (replicate (length tasks) None) st in
  match mapM id slots with
  | Some results => Some (results, st')
  | None => None
  end.

Definition batchErrorMessage (failedCount total : nat) : string :=
  showNat failedCount ++ " out of " ++ showNat total
    ++ " image(s) could not be processed. They may have been blocked due to safety policies.".

Definition handleBatchApply (render : State) (prompt : string) (generator : Generator)
    (type : string) (answers : nat -> completion Gateway.GenerateContentResponse)
    (order : list nat) (st : State) : option (completion unit * State) :=
  let st1 :=
    snd ((setIsLoading true ;;
          setError None ;;
          setIsBatchProcessingComplete false ;;
          setProcessingProgress
            (Some {| processed := 0; total := length (batchImages render) |})) st) in
  match
    allSettled
      (imap (fun index image =>
               batchInvocation prompt generator type (answers index) index image)
         (batchImages render))
      order st1
  with
  | None => None
  | Some (results, st2) =>
      let newProcessedImages :=
        map (fun result =>
               match result with
               | Normal value => Some value
               | Throw _ => None
               end) results in
      let failedCount :=
        length (List.filter (fun img => match img with None => true | Some _ => false end)
                  newProcessedImages) in
      Some ((setProcessedBatchImages newProcessedImages ;;
             setIsLoading false ;;
             setIsBatchProcessingComplete true ;;
             setProcessingProgress None ;;
             if (0 <? failedCount)%nat
             then setError (Some (batchErrorMessage failedCount (length (batchImages render))))
             else mret tt) st2)
  end.

Definition handleBatchApplyFilter (render : State) (filterPrompt : string) :=
  handleBatchApply render filterPrompt Gateway.generateFilteredImage "filtered".

Definition handleBatchApplyAdjustment (render : State) (adjustmentPrompt : string) :=
  handleBatchApply render adjustmentPrompt Gateway.generateAdjustedImage "adjusted".

End Platform.

(** *** The compare slider *)

(** [setIsCompareModeActive(prev => { if (!prev) setCompareSliderPosition(50); return !prev; })] *)
Definition handleToggleCompareMode : M unit :=
  fun st =>
    let prev := isCompareModeActive st in
    ((if negb prev then setCompareSliderPosition (ofZ 50) else mret tt) ;;
     setIsCompareModeActive (negb prev)) st.

Definition handleComparerMouseDown : M unit := setIsDraggingComparer true.
Definition handleComparerTouchStart : M unit := setIsDraggingComparer true.
Definition handleComparerActionEnd : M unit := setIsDraggingComparer false.

(** [imageContainerRef] is the bounding rectangle of the container, absent
    when the element is not mounted. *)
Definition handleComparerActionMove (render : State) (imageContainerRef : option DOMRect)
    (clientX : number) : M unit :=
  match isDraggingComparer render, imageContainerRef with
  | true, Some rect =>
      let x := sub clientX (left rect) in
      let position := Math_max (ofZ 0) (Math_min (ofZ 100) (mul (div x (width rect)) (ofZ 100))) in
      setCompareSliderPosition position
  | _, _ => mret tt
  end.

(** The state of the first render. *)
Definition initialState : State :=
  {| history := []; historyIndex := -1; prompt := EmptyString;
     editHotspot := None; displayHotspot := None; activeTab := retouch;
     crop := None; completedCrop := None;
     isCompareModeActive := false; compareSliderPosition := ofZ 50;
     isDraggingComparer := false;
     batchImages := []; processedBatchImages := []; processingProgress := None;
     isBatchProcessingComplete := false;
     viewMode := start; isLoading := false; error := None; console := [] |}.

(** An event fires the handler of the latest render on the current state. *)
Definition fire {A} (handler : State -> M A) (st : State) : completion A * State :=
  handler st st.

End App.

Import App.

(** * Vocabulary of the properties *)

(** ** Response classification *)

Import Gateway.

(** The content parts of a response are those of its first candidate, the
    only candidate the service asks for. *)
Definition contentParts (response : GenerateContentResponse) : list Part :=
  match candidates response with
  | Some (c :: _) =>
      match content c with
      | Some ct => match parts ct with Some ps => ps | None => [] end
      | None => []
      end
  | _ => []
  end.

(** The response carries the prompt-block reason [reason], with the
    optional explanation [message]. *)
Definition carriesBlockReason (response : GenerateContentResponse)
    (reason : string) (message : option string) : Prop :=
  exists pf, promptFeedback response = Some pf
             /\ blockReason pf = Some reason
             /\ reason <> EmptyString
             /\ blockReasonMessage pf = message.

Definition noBlockReason (response : GenerateContentResponse) : Prop :=
  forall reason message, ~ carriesBlockReason response reason message.

(** [part] is the first content part with inline data, and [blob] is that
    data. *)
Definition firstImagePart (response : GenerateContentResponse)
    (part : Part) (blob : Blob) : Prop :=
  exists before after,
    contentParts response = (before ++ part :: after)%list
    /\ Forall (fun p => inlineData p = None) before
    /\ inlineData part = Some blob.




(** A blocked response that nevertheless carries an image part. *)
Definition pngBlob : Blob := {| mimeType := Some "image/png"; data := Some "iVBORw0KGgo=" |}.
Definition imagePart : Part := {| inlineData := Some pngBlob; partText := None |}.
Definition textPart (t : string) : Part := {| inlineData := None; partText := Some t |}.
Definition candidateOf (ps : list Part) (reason : option string) : Candidate :=
  {| content := Some {| parts := Some ps |}; finishReason := reason |}.


Definition imageAfterText : GenerateContentResponse :=
  {| promptFeedback := None;
     candidates := Some [candidateOf [textPart "here it is"; imagePart] (Some "MAX_TOKENS")];
     text := Some "here it is" |}.

Definition stoppedForSafety : GenerateContentResponse :=
  {| promptFeedback := None;
     candidates := Some [candidateOf [] (Some "SAFETY")];
     text := None |}.

(** A response of two candidates, the image being in the second. *)
Definition imageInSecondCandidate : GenerateContentResponse :=
  {| promptFeedback := None;
     candidates := Some [candidateOf [textPart "first"] (Some "STOP");
                         candidateOf [imagePart] (Some "STOP")];
     text := Some "first" |}.



(** ** The history engine, as the specification names its operations *)

(** [append(version)] is [addImageToHistory], fired on the current state. *)
Definition append (version : File) (st : State) : State :=
  snd (fire (fun render => addImageToHistory render version) st).

Definition undo (st : State) : State := snd (fire handleUndo st).
Definition redo (st : State) : State := snd (fire handleRedo st).
Definition resetToOrigin (st : State) : State := snd (fire handleReset st).

Inductive Navigation := Undo | Redo.

Definition navigate (op : Navigation) (st : State) : State :=
  match op with
  | Undo => undo st
  | Redo => redo st
  end.

Definition navigateAll (ops : list Navigation) (st : State) : State :=
  foldl (fun acc op => navigate op acc) st ops.

(** The cursor is a valid index of a non-empty history. *)
Definition cursorInRange (st : State) : Prop :=
  (0 <= historyIndex st <= Z.of_nat (length (history st)) - 1)%Z.

Definition sampleFile (n : string) : File := {| name := n; type := "image/png"; bytes := [] |}.

(** A history of three versions with the cursor on the second. *)
Definition threeVersions : State :=
  with_historyIndex 1
    (with_history [sampleFile "v0"; sampleFile "v1"; sampleFile "v2"] initialState).

(** ** A base64 decoder for [atob]

    The handlers take the platform's [atob] as an input.  Where a concrete
    run is wanted, this decoder of the standard alphabet stands for it: it
    drops ASCII white space, accepts one or two padding characters after a
    multiple of four, and throws on anything else. *)

Definition sextet (c : ascii) : option N :=
  let n := N_of_ascii c in
  if ((65 <=? n) && (n <=? 90))%N then Some (n - 65)%N
  else if ((97 <=? n) && (n <=? 122))%N then Some (n - 71)%N
  else if ((48 <=? n) && (n <=? 57))%N then Some (n + 4)%N
  else if (n =? 43)%N then Some 62%N
  else if (n =? 47)%N then Some 63%N
  else None.

Definition isBase64Space (c : ascii) : bool :=
  let n := N_of_ascii c in
  ((n =? 9) || (n =? 10) || (n =? 12) || (n =? 13) || (n =? 32))%N.

Definition stripPadding (l : list ascii) : list ascii :=
  if (length l mod 4 =? 0)%nat then
    match rev l with
    | "="%char :: "="%char :: r => rev r
    | "="%char :: r => rev r
    | _ => l
    end
  else l.

Fixpoint decodeSextets (l : list N) : list N :=
  match l with
  | a :: b :: c :: d :: rest =>
      let w := (a * 262144 + b * 4096 + c * 64 + d)%N in
      (w / 65536) :: ((w / 256) mod 256) :: (w mod 256) :: decodeSextets rest
  | [a; b; c] =>
      let w := (a * 4096 + b * 64 + c)%N in
      [(w / 1024); ((w / 4) mod 256)]
  | [a; b] => [((a * 64 + b) / 16)]
  | _ => []
  end%N.

Definition atobModel (s : string) : completion string :=
  let chars := stripPadding (List.filter (fun c => negb (isBase64Space c)) (list_ascii_of_string s)) in
  if (length chars mod 4 =? 1)%nat
  then Throw (ErrorObject "The string to be decoded is not correctly encoded.")
  else
    match mapM sextet chars with
    | Some sextets => Normal (string_of_list_ascii (map ascii_of_N (decodeSextets sextets)))
    | None => Throw (ErrorObject "The string to be decoded is not correctly encoded.")
    end.

(** ** The edit operations *)

Inductive EditOperation :=
| LocalizedEdit
| Filter (filterPrompt : string)
| Adjustment (adjustmentPrompt : string)
| Enhancement
| BackdropExtension
| BackdropReplacement (backgroundImage : File).

(** The handler of each operation. *)
Definition editHandler (atob : string -> completion string) (op : EditOperation)
    (now : N) (answer : completion GenerateContentResponse) (render : State) : M unit :=
  match op with
  | LocalizedEdit => handleGenerate atob render now answer
  | Filter filterPrompt => handleApplyFilter atob render now answer filterPrompt
  | Adjustment adjustmentPrompt => handleApplyAdjustment atob render now answer adjustmentPrompt
  | Enhancement => handleEnhanceQuality atob render now answer
  | BackdropExtension => handleExtendBackdrop atob render now answer
  | BackdropReplacement backgroundImage =>
      handleReplaceBackdrop atob render now answer backgroundImage
  end.

(** The service call that the handler of each operation awaits. *)
Definition gatewayCall (op : EditOperation) (answer : completion GenerateContentResponse)
    (image : File) (st : State) : completion string :=
  match op with
  | LocalizedEdit =>
      generateEditedImage answer image (prompt st)
        (default {| x := S754_nan; y := S754_nan |} (editHotspot st))
  | Filter filterPrompt => generateFilteredImage answer image filterPrompt
  | Adjustment adjustmentPrompt => generateAdjustedImage answer image adjustmentPrompt
  | Enhancement => generateEnhancedImage answer image
  | BackdropExtension => generateExtendedBackdrop answer image
  | BackdropReplacement backgroundImage => generateReplacedBackdrop answer image backgroundImage
  end.

(** The handler gets as far as the service call: there is a current image
    and, for a localized edit, a prompt and a hotspot. *)
Definition requestIssued (op : EditOperation) (st : State) (image : File) : Prop :=
  currentImage st = Some image
  /\ match op with
     | LocalizedEdit => truthy (trim (prompt st)) = true /\ is_Some (editHotspot st)
     | _ => True
     end.

Definition failureText (op : EditOperation) : string :=
  match op with
  | LocalizedEdit => "Failed to generate the image. "
  | Filter _ => "Failed to apply the filter. "
  | Adjustment _ => "Failed to apply the adjustment. "
  | Enhancement => "Failed to enhance image. "
  | BackdropExtension => "Failed to extend backdrop. "
  | BackdropReplacement _ => "Failed to replace backdrop. "
  end.

Definition versionName (op : EditOperation) (now : N) : string :=
  match op with
  | LocalizedEdit => "edited-"
  | Filter _ => "filtered-"
  | Adjustment _ => "adjusted-"
  | Enhancement => "enhanced-"
  | BackdropExtension => "extended-"
  | BackdropReplacement _ => "replaced-"
  end ++ showN now ++ ".png".

(** An editor state after a click on the image and a drag of the compare
    slider to 25: one version, a pending hotspot, compare mode left. *)
Definition clickedAndDragged : State :=
  with_compareSliderPosition (ofZ 25)
    (with_displayHotspot (Some {| x := ofZ 5; y := ofZ 5 |})
       (with_editHotspot (Some {| x := ofZ 10; y := ofZ 10 |})
          (with_prompt "make the sky blue"
             (with_viewMode editor
                (with_historyIndex 0 (with_history [sampleFile "v0"] initialState)))))).

Definition pngFile (n : string) : File :=
  {| name := n; type := "image/png"; bytes := [137; 80; 78; 71; 13; 10; 26; 10]%N |}.

(** The context string that the service passes to [handleApiResponse] for
    each operation. *)
Definition contextOf (op : EditOperation) : string :=
  match op with
  | LocalizedEdit => "edit"
  | Filter _ => "filter"
  | Adjustment _ => "adjustment"
  | Enhancement => "enhancement"
  | BackdropExtension => "backdrop extension"
  | BackdropReplacement _ => "backdrop replacement"
  end.

(** The state in which a failed service call leaves the editor. *)
Definition afterFailure (op : EditOperation) (err : Thrown) (st : State) : State :=
  with_isLoading false
    (with_console (console st ++ [{| logText := None; logValue := err |}])%list
       (with_error (Some (failureText op ++ errorMessageOf err))
          (with_error None (with_isLoading true st)))).

(** The state in which a successful edit leaves the editor. *)
Definition afterSuccess (op : EditOperation) (newImageFile : File) (st : State) : State :=
  let appended := append newImageFile (with_error None (with_isLoading true st)) in
  with_isLoading false
    match op with
    | LocalizedEdit => with_displayHotspot None (with_editHotspot None appended)
    | _ => appended
    end.

(** ** The batch run *)

(** What invocation [index] settles with: the value it fulfils with, or the
    value it rejects with. *)
Definition invocationOutcome (atob : string -> completion string) (prompt : string)
    (generator : Generator) (type : string)
    (answers : nat -> completion GenerateContentResponse) (index : nat) (image : File)
  : completion File :=
  let! result := generator (answers index) image prompt in
  dataURLtoFile atob result (type ++ "-" ++ showNat index ++ "-" ++ name image).

Definition succeeded {A} (c : completion A) : bool :=
  match c with Normal _ => true | Throw _ => false end.

(** The slot of an outcome: the image, or absent. *)
Definition slotOf {A} (c : completion A) : option A :=
  match c with Normal value => Some value | Throw _ => None end.

(** Every one of the [n] invocations settles at some point of [order]. *)
Definition settlesAll (order : list nat) (n : nat) : Prop :=
  forall i, (i < n)%nat -> i ∈ order.

(** The number of invocations that fail. *)
Definition failures (atob : string -> completion string) (prompt : string)
    (generator : Generator) (type : string)
    (answers : nat -> completion GenerateContentResponse) (images : list File) : nat :=
  length (List.filter (fun c => negb (succeeded c))
            (imap (invocationOutcome atob prompt generator type answers) images)).

(** The console entry of a failed invocation. *)
Definition failureEntry (index : nat) (image : File) (err : Thrown) : LogEntry :=
  {| logText := Some ("Failed to process image " ++ showNat index ++ " (" ++ name image ++ "):");
     logValue := err |}.

(** Three uploaded images, and answers of the service that fail for the
    second one only. *)
Definition threeImages : State :=
  snd (handleBatchUpload [sampleFile "a.png"; sampleFile "b.png"; sampleFile "c.png"]
         initialState).

Definition secondFails (index : nat) : completion GenerateContentResponse :=
  match index with
  | 1%nat => Normal stoppedForSafety
  | _ => Normal imageAfterText
  end.


(** The tasks that [handleBatchApply] hands to [Promise.allSettled], and
    what each of them settles with. *)
Definition batchTasks (atob : string -> completion string) (prompt : string)
    (generator : Generator) (type : string)
    (answers : nat -> completion GenerateContentResponse) (images : list File)
  : list (M File) :=
  imap (fun index image => batchInvocation atob prompt generator type (answers index) index image)
    images.

Definition batchOutcomes (atob : string -> completion string) (prompt : string)
    (generator : Generator) (type : string)
    (answers : nat -> completion GenerateContentResponse) (images : list File)
  : list (completion File) :=
  imap (invocationOutcome atob prompt generator type answers) images.

(** The effect of one invocation on the state: a console entry when it
    fails, and a tick of the progress counter. *)
Definition afterInvocation (atob : string -> completion string) (prompt : string)
    (generator : Generator) (type : string)
    (answers : nat -> completion GenerateContentResponse)
    (index : nat) (image : File) (st : State) : State :=
  let logged :=
    match invocationOutcome atob prompt generator type answers index image with
    | Normal _ => st
    | Throw err => with_console (console st ++ [failureEntry index image err])%list st
    end in
  with_processingProgress
    (option_map (fun prev => {| processed := processed prev + 1; total := total prev |})
       (processingProgress logged))
    logged.

(** The state in which a batch run over the images of [st] ends, once all
    its invocations have settled in the order [order]. *)
Definition afterBatch (atob : string -> completion string) (prompt : string)
    (generator : Generator) (type : string)
    (answers : nat -> completion GenerateContentResponse)
    (order : list nat) (st : State) : State :=
  let images := batchImages st in
  let started :=
    with_processingProgress (Some {| processed := 0; total := length images |})
      (with_isBatchProcessingComplete false (with_error None (with_isLoading true st))) in
  let settled :=
    snd (settle (batchTasks atob prompt generator type answers images) order
           (replicate (length images) None) started) in
  let failedCount := failures atob prompt generator type answers images in
  let finished :=
    with_processingProgress None
      (with_isBatchProcessingComplete true
         (with_isLoading false
            (with_processedBatchImages
               (map slotOf (batchOutcomes atob prompt generator type answers images))
               settled))) in
  if (0 <? failedCount)%nat
  then with_error (Some (batchErrorMessage failedCount (length images))) finished
  else finished.

(** ** The compare slider *)

(** [a === b] on numbers: NaN equals nothing, and the two zeros are equal. *)
Definition strictEq (a b : number) : bool := SFeqb a b.

(** [clamp(lo, hi, v)], as the specification writes it: [lo] below [lo],
    [hi] above [hi], and [v] itself in between. *)
Definition clamp (lo hi v : number) : number :=
  if ltb v lo then lo else if ltb hi v then hi else v.

(** The pointer offset as a percentage of the container's width. *)
Definition percentage (clientX : number) (rect : DOMRect) : number :=
  mul (div (sub clientX (left rect)) (width rect)) (ofZ 100).

(** A container that is laid out: finite coordinates, positive width. *)
Definition laidOut (rect : DOMRect) : Prop :=
  isFinite (left rect) = true
  /\ isFinite (width rect) = true
  /\ ltb (ofZ 0) (width rect) = true.

(** Within the interval from 0 to 100, ends included. *)
Definition inPercentRange (p : number) : Prop :=
  leb (ofZ 0) p = true /\ leb p (ofZ 100) = true.

(** The position after a pointer move at [clientX] over the container
    [rect]. *)
Definition positionAfterMove (clientX : number) (rect : DOMRect) (st : State) : number :=
  compareSliderPosition
    (snd (fire (fun render => handleComparerActionMove render (Some rect) clientX) st)).

(** The sign of a number that is not NaN. *)
Definition hasSign (s : bool) (a : number) : Prop :=
  match a with
  | S754_nan => False
  | S754_zero s' | S754_infinity s' | S754_finite s' _ _ => s' = s
  end.

(** A container 800 pixels wide whose left edge is at 100, and a slider
    being dragged. *)
Definition container : DOMRect := {| left := ofZ 100; width := ofZ 800 |}.
Definition dragging : State := with_isDraggingComparer true (with_isCompareModeActive true clickedAndDragged).

(** * Further parts of the client *)

(** ** services/geminiService.ts: [fileToPart] *)

(** [fileToPart(file)]: [read] is what the [FileReader] delivers for the
    file, its data URL, or the value its promise rejects with. *)
Definition fileToPart (read : completion string) : completion Part :=
  let! dataUrl := read in
  let arr := splitComma dataUrl in
  if (length arr <? 2)%nat then Throw (ErrorObject "Invalid data URL")
  else
    match truthyOpt (matchMime (nth 0 arr EmptyString)) with
    | None => Throw (ErrorObject "Could not parse MIME type from data URL")
    | Some mimeType =>
        Normal {| inlineData := Some {| mimeType := Some mimeType;
                                        data := Some (nth 1 arr EmptyString) |};
                  partText := None |}
    end.

(** ** Data URLs *)

(** The character [c] occurs in [s]. *)
Fixpoint hasChar (c : ascii) (s : string) : bool :=
  match s with
  | EmptyString => false
  | String c' rest => Ascii.eqb c' c || hasChar c rest
  end.

(** A MIME type that a data URL can carry and give back: not empty, and
    free of the semicolon and comma that delimit it and of line
    terminators. *)
Definition portableMime (m : string) : Prop :=
  m <> EmptyString
  /\ hasChar ";" m = false
  /\ hasChar "," m = false
  /\ hasChar "010" m = false
  /\ hasChar "013" m = false.

(** The text of [url] before its first comma, when it has a comma. *)
Fixpoint beforeComma (url : string) : option string :=
  match url with
  | EmptyString => None
  | String c rest =>
      if Ascii.eqb c "," then Some EmptyString
      else option_map (String c) (beforeComma rest)
  end.

(** The character codes of a string. *)
Definition charCodes (s : string) : list N := map N_of_ascii (list_ascii_of_string s).

(** The text of [s] up to its first comma, or all of [s] when it has none:
    what [s.split(',')[0]] is. *)
Definition firstPiece (s : string) : string := default s (beforeComma s).

(** A response image without a MIME type. *)
Definition untypedBlob : Blob := {| mimeType := None; data := Some "iVBORw0KGgo=" |}.

(** Response images whose MIME type is in upper case, and holds a TAB. *)
Definition shoutedBlob : Blob := {| mimeType := Some "IMAGE/PNG"; data := Some "iVBORw0KGgo=" |}.
Definition tabbedBlob : Blob :=
  {| mimeType := Some ("image/" ++ String "009" "png"); data := Some "iVBORw0KGgo=" |}.

(** The letters A to Z. *)
Definition isUpperCase (c : ascii) : bool :=
  let n := nat_of_ascii c in (65 <=? n)%nat && (n <=? 90)%nat.

Fixpoint noUpperCase (s : string) : bool :=
  match s with
  | EmptyString => true
  | String c rest => negb (isUpperCase c) && noUpperCase rest
  end.

(** A type that the [File] constructor takes as it is: printable ASCII
    without upper-case letters. *)
Definition keptByFile (m : string) : Prop :=
  allPrintable m = true /\ noUpperCase m = true.

(** ** The App component: the remaining handlers *)

(** [Math.round]: the nearest integer, a tie going up; NaN, the infinities
    and the zeros are returned as they are, and a negative number that
    rounds to zero gives -0. *)
Definition Math_round (a : number) : number :=
  match a with
  | S754_finite s m (Z.neg k) =>
      let q := (Z.pos m / 2 ^ Z.pos k)%Z in
      let r := (Z.pos m mod 2 ^ Z.pos k)%Z in
      let half := (2 ^ (Z.pos k - 1))%Z in
      let n := if s then (if (half <? r)%Z then q + 1 else q)%Z
               else (if (half <=? r)%Z then q + 1 else q)%Z in
      if (n =? 0)%Z then S754_zero s
      else binary_normalize prec emax (if s then - n else n)%Z 0 false
  | _ => a
  end.

(** The fields of the clicked [<img>] that [handleImageClick] reads: its
    bounding rectangle's origin, and its natural and rendered sizes. *)
Record ImageElement := {
  rectLeft : number;
  rectTop : number;
  naturalWidth : number;
  naturalHeight : number;
  clientWidth : number;
  clientHeight : number
}.

Definition handleImageClick (render : State) (img : ImageElement) (clientX clientY : number)
  : M unit :=
  if match activeTab render with retouch => false | _ => true end
     || isCompareModeActive render
  then mret tt
  else
    let offsetX := sub clientX (rectLeft img) in
    let offsetY := sub clientY (rectTop img) in
    setDisplayHotspot (Some {| x := offsetX; y := offsetY |}) ;;
    let scaleX := div (naturalWidth img) (clientWidth img) in
    let scaleY := div (naturalHeight img) (clientHeight img) in
    let originalX := Math_round (mul offsetX scaleX) in
    let originalY := Math_round (mul offsetY scaleY) in
    setEditHotspot (Some {| x := originalX; y := originalY |}).

(** [files] is the [FileList], absent when the picker gives [null]. *)
Definition handleFileSelect (files : option (list File)) : M unit :=
  match files with
  | None | Some [] => mret tt
  | Some [file] => handleImageUpload file
  | Some files => handleBatchUpload files
  end.

(** ** The component as a transition system *)

(** What the user and the awaited services can make the component do: each
    event is one of the callbacks that the render code wires, with the
    inputs that the platform supplies to it. *)
Inductive Event :=
| FileSelect (files : option (list File))
| UploadNew
| Edit (op : EditOperation) (now : N) (answer : completion GenerateContentResponse)
| ApplyCrop (now : N) (imgRefCurrent : bool) (canvas : option string)
| WhiskGenerate (now : N) (answer : completion GenerateContentResponse)
    (subject scene style : File)
| UndoClick
| RedoClick
| ResetClick
| ImageClick (img : ImageElement) (clientX clientY : number)
| ToggleCompare
| ComparerMouseDown
| ComparerTouchStart
| ComparerActionEnd
| ComparerMove (imageContainerRef : option DOMRect) (clientX : number)
| PromptChange (value : string)
| TabClick (tab : Tab)
| CropChange (c : option Crop)
| CropComplete (c : option Crop)
| DismissError
| SwitchToWhisk
| BackToStart.

Definition handlerOf (atob : string -> completion string) (e : Event) (render : State)
  : M unit :=
  match e with
  | FileSelect files => handleFileSelect files
  | UploadNew => handleUploadNew
  | Edit op now answer => editHandler atob op now answer render
  | ApplyCrop now imgRefCurrent canvas => handleApplyCrop atob render now imgRefCurrent canvas
  | WhiskGenerate now answer subject scene style =>
      handleWhiskGenerate atob now answer subject scene style
  | UndoClick => handleUndo render
  | RedoClick => handleRedo render
  | ResetClick => handleReset render
  | ImageClick img clientX clientY => handleImageClick render img clientX clientY
  | ToggleCompare => handleToggleCompareMode
  | ComparerMouseDown => handleComparerMouseDown
  | ComparerTouchStart => handleComparerTouchStart
  | ComparerActionEnd => handleComparerActionEnd
  | ComparerMove imageContainerRef clientX =>
      handleComparerActionMove render imageContainerRef clientX
  | PromptChange value => setPrompt value
  | TabClick tab => setActiveTab tab
  | CropChange c => setCrop c
  | CropComplete c => setCompletedCrop c
  | DismissError => setError None
  | SwitchToWhisk => setViewMode whisk
  | BackToStart => setViewMode start
  end.

(** The platform reports finite pointer coordinates and laid-out
    containers. *)
Definition admissible (e : Event) : Prop :=
  match e with
  | ComparerMove (Some rect) clientX => isFinite clientX = true /\ laidOut rect
  | _ => True
  end.

(** One transition: an event handled, or a batch run carried to its end. *)
Inductive transition (atob : string -> completion string) : State -> State -> Prop :=
| event_step (e : Event) (st : State) :
    admissible e ->
    transition atob st (snd (fire (handlerOf atob e) st))
| batch_step (prompt : string) (generator : Generator) (type : string)
    (answers : nat -> completion GenerateContentResponse) (order : list nat)
    (st : State) (result : completion unit) (st' : State) :
    handleBatchApply atob st prompt generator type answers order st = Some (result, st') ->
    transition atob st st'.

(** The states that the component can be in, from its first render on. *)
Inductive reachable (atob : string -> completion string) : State -> Prop :=
| reachable_initial : reachable atob initialState
| reachable_next (st st' : State) :
    reachable atob st -> transition atob st st' -> reachable atob st'.

(** What holds at every reachable state. *)
Definition cursorValid (st : State) : Prop :=
  (history st = [] /\ historyIndex st = (-1)%Z) \/ cursorInRange st.

Definition batchAligned (st : State) : Prop :=
  length (processedBatchImages st) = length (batchImages st).

Definition hotspotsPaired (st : State) : Prop :=
  is_Some (editHotspot st) <-> is_Some (displayHotspot st).

Definition atRest (st : State) : Prop :=
  isLoading st = false /\ processingProgress st = None.

Definition viewConsistent (st : State) : Prop :=
  (viewMode st = editor -> history st <> [])
  /\ (viewMode st = batch -> (2 <= length (batchImages st))%nat).

Definition invariant (st : State) : Prop :=
  cursorValid st /\ batchAligned st /\ hotspotsPaired st
  /\ inPercentRange (compareSliderPosition st) /\ atRest st /\ viewConsistent st.

(** A short session: upload, click, edit, undo. *)
Definition sampleImage : ImageElement :=
  {| rectLeft := ofZ 100; rectTop := ofZ 50;
     naturalWidth := ofZ 1600; naturalHeight := ofZ 1200;
     clientWidth := ofZ 800; clientHeight := ofZ 600 |}.

Definition sampleSession : list Event :=
  [FileSelect (Some [sampleFile "v0"]);
   ImageClick sampleImage (ofZ 300) (ofZ 150);
   PromptChange "make the sky blue";
   Edit LocalizedEdit 7 (Normal imageAfterText);
   ToggleCompare;
   ComparerMouseDown;
   ComparerMove (Some container) (ofZ 300);
   ComparerActionEnd;
   ToggleCompare;
   UndoClick].

Definition runEvents (atob : string -> completion string) (events : list Event) (st : State)
  : State :=
  foldl (fun acc e => snd (fire (handlerOf atob e) acc)) st events.

(** The message with which each edit operation refuses to run without a
    current image. *)
Definition noImageText (op : EditOperation) : string :=
  match op with
  | LocalizedEdit => "No image loaded to edit."
  | Filter _ => "No image loaded to apply a filter to."
  | Adjustment _ => "No image loaded to apply an adjustment to."
  | Enhancement => "No image loaded to enhance."
  | BackdropExtension => "No image loaded to extend."
  | BackdropReplacement _ => "No image loaded for backdrop replacement."
  end.

(** Every character of [s] is white space. *)
Definition blank (s : string) : Prop :=
  Forall (fun c => isWhiteSpace c = true) (list_ascii_of_string s).

(** The events that start a new lineage: a file selection, Upload New and
    a whisk. *)
Definition startsLineage (e : Event) : bool :=
  match e with
  | FileSelect _ | UploadNew | WhiskGenerate _ _ _ _ _ => true
  | _ => false
  end.

(** An editor on the lineage of [v0]; and the state after Upload New and
    the upload of [w0], which a handler made at the first render can still
    meet when its service call settles late. *)
Definition oldLineage : State :=
  runEvents atobModel [FileSelect (Some [sampleFile "v0"])] initialState.

Definition newLineage : State :=
  runEvents atobModel [UploadNew; FileSelect (Some [sampleFile "w0"])] oldLineage.

(** ** The batch run, while it lasts *)

(** The state of a batch run over the images of [st] once the invocations
    listed in [order] have settled, in that order, the others pending. *)
Definition duringBatch (atob : string -> completion string) (prompt : string)
    (generator : Generator) (type : string)
    (answers : nat -> completion GenerateContentResponse)
    (order : list nat) (st : State) : State :=
  snd (settle (batchTasks atob prompt generator type answers (batchImages st)) order
         (replicate (length (batchImages st)) None)
         (with_processingProgress
            (Some {| processed := 0; total := length (batchImages st) |})
            (with_isBatchProcessingComplete false
               (with_error None (with_isLoading true st))))).

(** ** The batch panel ([components/BatchPanel.tsx]) *)

Module BatchPanel.

Record Props := {
  originalImages : list File;
  processedImages : list (option File);
  isLoading : bool;
  progress : option Progress;
  isProcessingComplete : bool;
  error : option string
}.

(** What one [ImageThumbnail] is given. *)
Record Thumbnail := {
  originalFile : File;
  processedFile : option File;
  hasFailed : bool
}.

(** [processedFile || originalFile] *)
Definition fileToDisplay (t : Thumbnail) : File :=
  match processedFile t with
  | Some file => file
  | None => originalFile t
  end.

(** [processedImages.some(img => img !== null)] *)
Definition hasAnyProcessed (props : Props) : bool :=
  existsb (fun img => match img with Some _ => true | None => false end)
    (processedImages props).

(** [originalImages.map((original, index) => ...)]: an index past the end of
    [processedImages] reads [undefined], which is falsy as [null] is. *)
Definition thumbnails (props : Props) : list Thumbnail :=
  imap (fun index original =>
          let processed := mjoin (processedImages props !! index) in
          {| originalFile := original;
             processedFile := processed;
             hasFailed := isProcessingComplete props
                          && match processed with Some _ => false | None => true end |})
    (originalImages props).

(** [disabled={!hasAnyProcessed || isLoading}] of the Download All button. *)
Definition downloadAllDisabled (props : Props) : bool :=
  negb (hasAnyProcessed props) || isLoading props.

(** The line under the progress bar, shown while loading. *)
Definition progressText (props : Props) : option string :=
  if isLoading props
  then option_map (fun p => "Processing " ++ showNat (processed p) ++ " of "
                            ++ showNat (total p))
         (progress props)
  else None.

End BatchPanel.

(** The props that [renderContent] hands to the batch panel. *)
Definition batchPanelProps (st : State) : BatchPanel.Props :=
  {| BatchPanel.originalImages := batchImages st;
     BatchPanel.processedImages := processedBatchImages st;
     BatchPanel.isLoading := isLoading st;
     BatchPanel.progress := processingProgress st;
     BatchPanel.isProcessingComplete := isBatchProcessingComplete st;
     BatchPanel.error := error st |}.

(** ** The archive of processed images *)

(** A click on a download link: the [download] attribute and the content
    behind its [href]. *)
Record Download (Content : Type) := { download : string; href : Content }.
Arguments download {Content} _.
Arguments href {Content} _.

Section Archive.

(** [JSZip]: an archive, [new JSZip()], [zip.file(name, data)],
    [Object.keys(zip.files)] and [zip.generateAsync], which can reject. *)
Variable Zip : Type.
Variable Content : Type.
Variable newZip : Zip.
Variable zipFile : string -> File -> Zip -> Zip.
Variable zipKeys : Zip -> list string.
Variable generateAsync : Zip -> completion Content.

(** The archive that the [forEach] of [handleDownloadAll] fills; [now index]
    is the value of [Date.now()] at the slot [index]. *)
Definition archiveOf (now : nat -> N) (slots : list (option File)) : Zip :=
  fold_left
    (fun zip entry =>
       match entry with
       | (index, Some file) =>
           zipFile (if truthy (name file) then name file
                    else "image_" ++ showN (now index) ++ ".png")
             file zip
       | (_, None) => zip
       end)
    (imap (fun index file => (index, file)) slots)
    newZip.

(** The value is the list of downloads that the handler triggers through a
    link element. *)
Definition handleDownloadAll (render : State) (now : nat -> N) : M (list (Download Content)) :=
  let zip := archiveOf now (processedBatchImages render) in
  if (length (zipKeys zip) =? 0)%nat
  then setError (Some "No processed images to download.") ;; mret []
  else
    tryCatch
      (content ← lift (generateAsync zip) ;
       mret [{| download := "rakhi_visuals_processed_images.zip"; href := content |}])
      (fun err =>
         console_error (Some "Failed to create zip file") err ;;
         setError (Some "Could not create zip file.") ;;
         mret []).

End Archive.

(** An archive as the list of its entries, a later entry of the same name
    replacing the earlier one. *)
Fixpoint listZipFile (name : string) (data : File) (zip : list (string * File))
  : list (string * File) :=
  match zip with
  | [] => [(name, data)]
  | (n, d) :: rest =>
      if String.eqb n name then (name, data) :: rest
      else (n, d) :: listZipFile name data rest
  end.

(** The batch run of [threeImages] in which the second image fails. *)
Definition secondFailed : State :=
  afterBatch atobModel "sepia" generateFilteredImage "filtered" secondFails
    [0; 1; 2]%nat threeImages.

(** Two uploads of the same name, and a service that answers every
    invocation with an image. *)
Definition twins : State :=
  snd (handleBatchUpload [sampleFile "a.png"; sampleFile "a.png"] initialState).

Definition allSucceed (index : nat) : completion GenerateContentResponse :=
  Normal imageAfterText.

(** ** The adjustment panel ([components/AdjustmentPanel.tsx]) *)

Module AdjustmentPanel.

Record PanelState := {
  selectedPresetPrompt : option string;
  customPrompt : string
}.

Definition initial : PanelState :=
  {| selectedPresetPrompt := None; customPrompt := EmptyString |}.

(** [selectedPresetPrompt || customPrompt] *)
Definition activePrompt (st : PanelState) : string :=
  match truthyOpt (selectedPresetPrompt st) with
  | Some prompt => prompt
  | None => customPrompt st
  end.

Definition handlePresetClick (prompt : string) (st : PanelState) : PanelState :=
  {| selectedPresetPrompt := Some prompt; customPrompt := EmptyString |}.

Definition handleCustomChange (value : string) (st : PanelState) : PanelState :=
  {| selectedPresetPrompt := None; customPrompt := value |}.

(** The call of [onApplyAdjustment] that [handleApply] makes, if any. *)
Definition handleApply (st : PanelState) : option string :=
  if truthy (activePrompt st) then Some (activePrompt st) else None.

(** The Apply button is rendered when [activePrompt] is truthy, with
    [disabled={isLoading || !activePrompt.trim()}]. *)
Definition applyEnabled (isLoading : bool) (st : PanelState) : bool :=
  truthy (activePrompt st)
  && negb (isLoading || negb (truthy (trim (activePrompt st)))).

(** The inputs of the panel: a click on a preset and a change of the text
    area. *)
Inductive Input :=
| PresetClick (prompt : string)
| CustomChange (value : string).

Definition payload (input : Input) : string :=
  match input with
  | PresetClick prompt => prompt
  | CustomChange value => value
  end.

Definition step (st : PanelState) (input : Input) : PanelState :=
  match input with
  | PresetClick prompt => handlePresetClick prompt st
  | CustomChange value => handleCustomChange value st
  end.

End AdjustmentPanel.

(** ** The image uploader ([ImageUploader]) *)

Module ImageUploader.

(** [s.startsWith(prefix)] *)
Definition startsWith (prefix s : string) : bool := String.prefix prefix s.

(** Each handler gives the call of [onFileChange] that it makes, if any. *)
Definition handleFileSelect (selectedFile : option File) : option (option File) :=
  match selectedFile with
  | Some file => if startsWith "image/" (type file) then Some (Some file) else None
  | None => None
  end.

Definition handleClear : option (option File) := Some None.

(** [e.dataTransfer.files && e.dataTransfer.files[0]] *)
Definition onDrop (files : option (list File)) : option (option File) :=
  match files with
  | Some (file :: _) => handleFileSelect (Some file)
  | _ => None
  end.

(** [handleFileSelect(e.target.files?.[0] ?? null)] *)
Definition onChange (files : option (list File)) : option (option File) :=
  handleFileSelect (match files with
                    | Some (file :: _) => Some file
                    | _ => None
                    end).

Inductive Input :=
| Change (files : option (list File))
| Drop (files : option (list File))
| Clear.

Definition callOf (input : Input) : option (option File) :=
  match input with
  | Change files => onChange files
  | Drop files => onDrop files
  | Clear => handleClear
  end.

(** The file of the owner, whose setter is [onFileChange], after [input]. *)
Definition after (input : Input) (file : option File) : option File :=
  match callOf input with
  | Some value => value
  | None => file
  end.

End ImageUploader.

(** No file, or a file whose type starts with [image/] or is empty. *)
Definition imageOrUntyped (file : option File) : Prop :=
  match file with
  | Some f => ImageUploader.startsWith "image/" (type f) = true \/ type f = EmptyString
  | None => True
  end.

(** An image file, or no file. *)
Definition imageOrAbsent (file : option File) : Prop :=
  match file with
  | Some f => ImageUploader.startsWith "image/" (type f) = true
  | None => True
  end.

(** ** The whisk panel ([components/WhiskPanel.tsx]) *)

Module WhiskPanel.

Record PanelState := {
  subjectFile : option File;
  sceneFile : option File;
  styleFile : option File
}.

Definition initial : PanelState :=
  {| subjectFile := None; sceneFile := None; styleFile := None |}.

(** The call of [onWhisk] that [handleWhiskClick] makes, if any. *)
Definition handleWhiskClick (st : PanelState) : option (File * File * File) :=
  match subjectFile st, sceneFile st, styleFile st with
  | Some subject, Some scene, Some style => Some (subject, scene, style)
  | _, _, _ => None
  end.

(** The inputs of the panel are those of its three uploaders. *)
Inductive Input :=
| Subject (input : ImageUploader.Input)
| Scene (input : ImageUploader.Input)
| Style (input : ImageUploader.Input).

Definition step (st : PanelState) (input : Input) : PanelState :=
  match input with
  | Subject i =>
      {| subjectFile := ImageUploader.after i (subjectFile st);
         sceneFile := sceneFile st; styleFile := styleFile st |}
  | Scene i =>
      {| subjectFile := subjectFile st;
         sceneFile := ImageUploader.after i (sceneFile st); styleFile := styleFile st |}
  | Style i =>
      {| subjectFile := subjectFile st; sceneFile := sceneFile st;
         styleFile := ImageUploader.after i (styleFile st) |}
  end.

End WhiskPanel.

(** ** The backdrop panel ([BackdropPanel]) *)

Module BackdropPanel.

Record PanelState := {
  backgroundFile : option File;
  imageUrl : string;
  isFetchingUrl : bool;
  urlError : option string
}.

Definition initial : PanelState :=
  {| backgroundFile := None; imageUrl := EmptyString; isFetchingUrl := false;
     urlError := None |}.

Definition with_backgroundFile v (st : PanelState) : PanelState :=
  {| backgroundFile := v; imageUrl := imageUrl st; isFetchingUrl := isFetchingUrl st;
     urlError := urlError st |}.
Definition with_imageUrl v (st : PanelState) : PanelState :=
  {| backgroundFile := backgroundFile st; imageUrl := v; isFetchingUrl := isFetchingUrl st;
     urlError := urlError st |}.
Definition with_isFetchingUrl v (st : PanelState) : PanelState :=
  {| backgroundFile := backgroundFile st; imageUrl := imageUrl st; isFetchingUrl := v;
     urlError := urlError st |}.
Definition with_urlError v (st : PanelState) : PanelState :=
  {| backgroundFile := backgroundFile st; imageUrl := imageUrl st;
     isFetchingUrl := isFetchingUrl st; urlError := v |}.

(** The call of [onReplaceBackdrop] that [handleReplaceClick] makes, if any. *)
Definition handleReplaceClick (st : PanelState) : option File := backgroundFile st.

(** A [Blob] and a [Response] of [fetch]; reading the body can fail. *)
Record FetchedBlob := { blobType : string; blobBytes : list N }.
Record Response := { ok : bool; status : nat; blob : completion FetchedBlob }.

(** [s.lastIndexOf(c)]: the index of the last [c], or -1. *)
Fixpoint lastIndexOf (c : ascii) (s : string) : Z :=
  match s with
  | EmptyString => -1
  | String a rest =>
      let later := lastIndexOf c rest in
      if (0 <=? later)%Z then later + 1
      else if Ascii.eqb a c then 0
      else -1
  end.

Fixpoint dropChars (n : nat) (s : string) : string :=
  match n, s with
  | O, _ => s
  | S _, EmptyString => EmptyString
  | S m, String _ rest => dropChars m rest
  end.

(** [s.substring(start)]: a negative start counts as 0, one past the end
    as the length. *)
Definition substring (start : Z) (s : string) : string := dropChars (Z.to_nat start) s.

(** [urlPath.substring(urlPath.lastIndexOf('/') + 1) || `background-from-url.png`] *)
Definition filenameOf (urlPath : string) : string :=
  let tail := substring (lastIndexOf "/" urlPath + 1) urlPath in
  if truthy tail then tail else "background-from-url.png".

Definition urlErrorMessage (message : string) : string :=
  "Could not load image. Please check the URL and try again. Note: Some websites may block direct image loading (CORS policy). Error: "
  ++ message.

Section Network.

(** [fetch(url)], which rejects on a network failure, and
    [new URL(url).pathname], which throws on a string that is no absolute
    URL. *)
Variable fetch : string -> completion Response.
Variable pathname : string -> completion string.

(** The body of the [try] block: the file made of the fetched image. *)
Definition fetchedFile (url : string) : completion File :=
  let! response := fetch url in
  if negb (ok response)
  then Throw (ErrorObject ("Failed to fetch image. Server responded with status: "
                           ++ showNat (status response)))
  else
    let! blob := blob response in
    if negb (ImageUploader.startsWith "image/" (blobType blob))
    then Throw (ErrorObject "The URL did not point to a valid image file (e.g., JPEG, PNG).")
    else
      let! urlPath := pathname url in
      Normal (newFile (blobBytes blob) (filenameOf urlPath) (blobType blob)).

(** The part of [handleLoadFromUrl] that runs at the click, before the
    first [await]; [None] when the handler returns at once. *)
Definition loadStarted (render : PanelState) (st : PanelState) : option PanelState :=
  if negb (truthy (trim (imageUrl render))) then None
  else Some (with_backgroundFile None (with_urlError None (with_isFetchingUrl true st))).

(** The part that runs when the awaited calls have settled. *)
Definition loadSettled (render : PanelState) (st : PanelState) : PanelState :=
  with_isFetchingUrl false
    match fetchedFile (imageUrl render) with
    | Normal file => with_imageUrl EmptyString (with_backgroundFile (Some file) st)
    | Throw err => with_urlError (Some (urlErrorMessage (errorMessageOf err))) st
    end.

(** A run of [handleLoadFromUrl] with no other event in between. *)
Definition handleLoadFromUrl (render : PanelState) (st : PanelState) : PanelState :=
  match loadStarted render st with
  | None => st
  | Some started => loadSettled render started
  end.

(** The inputs of the panel: those of its uploader, typing in the URL
    field, a click on Load, and the settling of a load started at a render
    [render]. *)
Inductive Input :=
| Uploader (input : ImageUploader.Input)
| UrlChange (value : string)
| LoadClick
| LoadSettles (render : PanelState).

Definition step (st : PanelState) (input : Input) : PanelState :=
  match input with
  | Uploader i => with_backgroundFile (ImageUploader.after i (backgroundFile st)) st
  | UrlChange value => with_imageUrl value st
  | LoadClick => default st (loadStarted st st)
  | LoadSettles render => loadSettled render st
  end.

End Network.

End BackdropPanel.

(** A server that answers with a PNG image, and one that answers 404. *)
Definition servesPng (url : string) : completion BackdropPanel.Response :=
  Normal {| BackdropPanel.ok := true; BackdropPanel.status := 200;
            BackdropPanel.blob :=
              Normal {| BackdropPanel.blobType := "image/png";
                        BackdropPanel.blobBytes := [137; 80; 78; 71]%N |} |}.

(** A server whose content type is that of an image with a parameter that
    holds a TAB. *)
Definition servesTabbed (url : string) : completion BackdropPanel.Response :=
  Normal {| BackdropPanel.ok := true; BackdropPanel.status := 200;
            BackdropPanel.blob :=
              Normal {| BackdropPanel.blobType := "image/png;x=" ++ String "009" EmptyString;
                        BackdropPanel.blobBytes := [137; 80; 78; 71]%N |} |}.

Definition notFound (url : string) : completion BackdropPanel.Response :=
  Normal {| BackdropPanel.ok := false; BackdropPanel.status := 404;
            BackdropPanel.blob := Throw OtherValue |}.

(** The path of [https://example.com/] followed by the rest of the string. *)
Definition pathOfExample (url : string) : completion string :=
  if String.prefix "https://example.com/" url
  then Normal (BackdropPanel.dropChars 19 url)
  else Throw (ErrorObject "Invalid URL").

Definition typedUrl (url : string) : BackdropPanel.PanelState :=
  BackdropPanel.with_imageUrl url
    (BackdropPanel.with_backgroundFile (Some (sampleFile "old.png")) BackdropPanel.initial).

Definition pngNamed (n : string) : File :=
  {| name := n; type := "image/png"; bytes := [137; 80; 78; 71]%N |}.

Definition textFile : File := {| name := "notes.txt"; type := "text/plain"; bytes := [] |}.

(** * Properties *)

(** ** Response classification *)

Lemma truthyOpt_Some (o : option string) (s : string) :
  truthyOpt o = Some s <-> o = Some s /\ s <> EmptyString.
Proof.
  destruct o as [[|c r]|]; simpl; split.
  - discriminate.
  - intros [H Hne]. congruence.
  - intros H. injection H as <-. split; [reflexivity | discriminate].
  - intros [H _]. exact H.
  - discriminate.
  - intros [H _]. discriminate.
Qed.

Lemma truthyOpt_None (o : option string) :
  truthyOpt o = None <-> o = None \/ o = Some EmptyString.
Proof.
  destruct o as [[|c r]|]; simpl; split; auto; try discriminate.
  intros [H|H]; discriminate.
Qed.


Lemma blockCheck_None (response : GenerateContentResponse) :
  noBlockReason response ->
  match promptFeedback response with
  | Some pf => option_map (fun r => (r, blockReasonMessage pf)) (truthyOpt (blockReason pf))
  | None => None
  end = None.
Proof.
  intros Hno. destruct (promptFeedback response) as [pf|] eqn:Hpf; [|reflexivity].
  destruct (truthyOpt (blockReason pf)) as [r|] eqn:Hr; [|reflexivity].
  apply truthyOpt_Some in Hr as [Hr Hne].
  exfalso. apply (Hno r (blockReasonMessage pf)). exists pf. auto.
Qed.

Lemma imagePart_contentParts (response : GenerateContentResponse) :
  imagePartFromResponse response
  = List.find (fun part => bool_decide (is_Some (inlineData part))) (contentParts response).
Proof.
  unfold imagePartFromResponse, firstCandidate, contentParts.
  destruct (candidates response) as [[|c cs]|]; try reflexivity.
  destruct (content c) as [ct|]; try reflexivity.
  destruct (parts ct); reflexivity.
Qed.

Lemma inline_test_false (p : Part) :
  inlineData p = None -> bool_decide (is_Some (inlineData p)) = false.
Proof.
  intros H. apply bool_decide_eq_false. rewrite H. intros [b Hb]. discriminate.
Qed.

Lemma find_first_inline (before after : list Part) (part : Part) (blob : Blob) :
  Forall (fun p => inlineData p = None) before ->
  inlineData part = Some blob ->
  List.find (fun p => bool_decide (is_Some (inlineData p))) (before ++ part :: after)
  = Some part.
Proof.
  intros Hb Hp. induction Hb as [|p ps Hnone _ IH]; cbn [List.find app].
  - rewrite bool_decide_eq_true_2; [reflexivity|]. rewrite Hp. eauto.
  - rewrite (inline_test_false p Hnone). exact IH.
Qed.





(** The service asks for one candidate and reads [candidates[0]] only: an
    image in a further candidate is not looked for. *)
Remark further_candidates_are_not_read :
  handleApiResponse imageInSecondCandidate "edit"
  = Throw (ErrorObject (noImageMessage "edit" (Some "first"))).
Proof. reflexivity. Qed.

(** ** The edit history *)

Lemma slice0_take {A} (l : list A) (i : nat) :
  (i < length l)%nat -> slice0 l (Z.of_nat i + 1) = take (S i) l.
Proof.
  intros Hi. unfold slice0.
  destruct (Z.ltb_spec (Z.of_nat i + 1) 0) as [H|H]; [exfalso; lia|].
  replace (Z.to_nat (Z.min (Z.of_nat i + 1) (Z.of_nat (length l)))) with (S i) by lia.
  reflexivity.
Qed.

Lemma append_state (version : File) (st : State) :
  append version st
  = with_isCompareModeActive false
      (with_completedCrop None
         (with_crop None
            (with_historyIndex
               (Z.of_nat (length (slice0 (history st) (historyIndex st + 1) ++ [version])) - 1)
               (with_history (slice0 (history st) (historyIndex st + 1) ++ [version])%list
                  st)))).
Proof. reflexivity. Qed.

(** C2: with the cursor at index [i] of the history, [append] keeps the
    versions at indices up to [i], discards every version after [i], puts
    the new version at index [i + 1] and moves the cursor there, which is
    the new last index.  The result is again one sequence: whatever was
    reachable by redo is gone. *)
Theorem append_truncates_then_appends (st : State) (version : File) (i : nat) :
  historyIndex st = Z.of_nat i ->
  (i < length (history st))%nat ->
  let st' := append version st in
  fst (fire (fun render => addImageToHistory render version) st) = Normal tt
  /\ history st' = (take (S i) (history st) ++ [version])%list
  /\ length (history st') = S (S i)
  /\ historyIndex st' = Z.of_nat (S i)
  /\ historyIndex st' = (Z.of_nat (length (history st')) - 1)%Z
  /\ (forall j, (j <= i)%nat -> history st' !! j = history st !! j)
  /\ history st' !! S i = Some version
  /\ (forall j, (S i < j)%nat -> history st' !! j = None)
  /\ canRedo st' = false.
Proof.
  intros Hidx Hlt st'.
  assert (Hh : history st' = (take (S i) (history st) ++ [version])%list).
  { subst st'. rewrite append_state. cbn [history with_isCompareModeActive
      with_completedCrop with_crop with_historyIndex with_history].
    now rewrite Hidx, slice0_take. }
  assert (Hlen : length (history st') = S (S i)).
  { rewrite Hh, length_app, length_take. cbn [length]. lia. }
  assert (Hi : historyIndex st' = (Z.of_nat (length (history st')) - 1)%Z).
  { subst st'. rewrite append_state. reflexivity. }
  split; [reflexivity|]. split; [exact Hh|]. split; [exact Hlen|].
  split; [rewrite Hi, Hlen; lia|]. split; [exact Hi|].
  split; [|split; [|split]].
  - intros j Hj. rewrite Hh, lookup_app_l by (rewrite length_take; lia).
    apply lookup_take_lt. lia.
  - rewrite Hh, lookup_app_r by (rewrite length_take; lia).
    rewrite length_take. replace (S i - S i `min` length (history st))%nat with 0%nat by lia.
    reflexivity.
  - intros j Hj. apply lookup_ge_None. lia.
  - unfold canRedo. rewrite Hi. apply Z.ltb_irrefl.
Qed.

(** C2 on a history of three versions with the cursor moved back to the
    second: the third version is dropped. *)
Lemma append_truncates_then_appends_witness :
  history (append (sampleFile "new") threeVersions)
  = [sampleFile "v0"; sampleFile "v1"; sampleFile "new"]
  /\ historyIndex (append (sampleFile "new") threeVersions) = 2%Z.
Proof.
  assert (Hlt : (1 < length (history threeVersions))%nat) by (simpl; lia).
  pose proof (append_truncates_then_appends threeVersions (sampleFile "new") 1
                eq_refl Hlt) as (_ & Hh & _ & Hi & _).
  split; [exact Hh | exact Hi].
Defined.

Lemma undo_state (st : State) :
  undo st
  = if canUndo st
    then with_displayHotspot None
           (with_editHotspot None (with_historyIndex (historyIndex st - 1) st))
    else st.
Proof. unfold undo, fire, handleUndo. now destruct (canUndo st). Qed.

Lemma redo_state (st : State) :
  redo st
  = if canRedo st
    then with_displayHotspot None
           (with_editHotspot None (with_historyIndex (historyIndex st + 1) st))
    else st.
Proof. unfold redo, fire, handleRedo. now destruct (canRedo st). Qed.

Lemma navigate_history (op : Navigation) (st : State) :
  history (navigate op st) = history st.
Proof.
  destruct op; simpl; [rewrite undo_state; destruct (canUndo st)
                      | rewrite redo_state; destruct (canRedo st)]; reflexivity.
Qed.

Lemma navigate_cursor (op : Navigation) (st : State) :
  cursorInRange st -> cursorInRange (navigate op st).
Proof.
  unfold cursorInRange. intros H.
  rewrite navigate_history.
  destruct op; simpl.
  - rewrite undo_state. unfold canUndo.
    destruct (Z.ltb_spec 0 (historyIndex st)); simpl; lia.
  - rewrite redo_state. unfold canRedo.
    destruct (Z.ltb_spec (historyIndex st) (Z.of_nat (length (history st)) - 1)); simpl; lia.
Qed.

Lemma navigateAll_cons (op : Navigation) (ops : list Navigation) (st : State) :
  navigateAll (op :: ops) st = navigateAll ops (navigate op st).
Proof. reflexivity. Qed.

Lemma navigateAll_invariant (ops : list Navigation) (st : State) :
  cursorInRange st ->
  history (navigateAll ops st) = history st /\ cursorInRange (navigateAll ops st).
Proof.
  revert st. induction ops as [|op ops IH]; intros st H; [split; [reflexivity|exact H]|].
  rewrite navigateAll_cons.
  destruct (IH (navigate op st) (navigate_cursor op st H)) as [Hh Hc].
  split; [|exact Hc]. rewrite Hh. apply navigate_history.
Qed.

(** C4: on a non-empty history whose cursor is a valid index, [undo] at
    cursor 0 and [redo] at the last index change nothing, elsewhere [undo]
    decrements and [redo] increments the cursor, and after any sequence of
    undo and redo steps the versions are the same and the cursor is still
    within [0, length - 1]. *)
Theorem undo_redo_bounded (ops : list Navigation) (st : State) :
  cursorInRange st ->
  (historyIndex st = 0%Z -> undo st = st)
  /\ (historyIndex st = (Z.of_nat (length (history st)) - 1)%Z -> redo st = st)
  /\ ((0 < historyIndex st)%Z -> historyIndex (undo st) = (historyIndex st - 1)%Z)
  /\ ((historyIndex st < Z.of_nat (length (history st)) - 1)%Z ->
      historyIndex (redo st) = (historyIndex st + 1)%Z)
  /\ history (navigateAll ops st) = history st
  /\ (0 <= historyIndex (navigateAll ops st)
      <= Z.of_nat (length (history (navigateAll ops st))) - 1)%Z.
Proof.
  intros Hc. rewrite undo_state, redo_state. unfold canUndo, canRedo.
  split; [|split; [|split; [|split]]].
  - intros ->. reflexivity.
  - intros ->. now rewrite Z.ltb_irrefl.
  - intros H. apply Z.ltb_lt in H. now rewrite H.
  - intros H. apply Z.ltb_lt in H. now rewrite H.
  - destruct (navigateAll_invariant ops st Hc) as [Hh Hr]. split; [exact Hh | exact Hr].
Qed.

(** C4 on the three-version history: from the second version, two undos
    stop at 0 and three redos stop at the last index. *)
Lemma undo_redo_bounded_witness :
  historyIndex (navigateAll [Undo; Undo; Redo; Redo; Redo] threeVersions) = 2%Z
  /\ (0 <= historyIndex (navigateAll [Undo; Undo] threeVersions) <= 2)%Z.
Proof.
  assert (Hc : cursorInRange threeVersions) by (unfold cursorInRange; simpl; lia).
  split; [reflexivity|].
  pose proof (undo_redo_bounded [Undo; Undo] threeVersions Hc) as (_ & _ & _ & _ & Hh & Hr).
  rewrite Hh in Hr. exact Hr.
Defined.

(** ** Reset *)

Lemma resetToOrigin_state (st : State) :
  resetToOrigin st
  = match history st with
    | [] => st
    | _ :: _ =>
        with_isCompareModeActive false
          (with_displayHotspot None
             (with_editHotspot None (with_error None (with_historyIndex 0 st))))
    end.
Proof. unfold resetToOrigin, fire, handleReset. now destruct (history st). Qed.

Lemma redo_steps (k : nat) (st : State) :
  cursorInRange st ->
  historyIndex (navigateAll (replicate k Redo) st)
  = Z.min (historyIndex st + Z.of_nat k) (Z.of_nat (length (history st)) - 1).
Proof.
  revert st. induction k as [|k IH]; intros st Hc.
  - simpl. unfold cursorInRange in Hc. lia.
  - cbn [replicate]. rewrite navigateAll_cons.
    rewrite IH by (apply navigate_cursor, Hc).
    rewrite navigate_history. simpl. rewrite redo_state. unfold canRedo, cursorInRange in *.
    destruct (Z.ltb_spec (historyIndex st) (Z.of_nat (length (history st)) - 1)); simpl; lia.
Qed.

(** C5: [resetToOrigin] changes nothing on an empty history.  On a
    non-empty history it sets the cursor to 0 and keeps every version, so
    that [k] redo steps bring the cursor to [min k (length - 1)], the last
    index included; the next [append] leaves the original and the new
    version only. *)
Theorem resetToOrigin_moves_cursor_only (st : State) :
  (history st = [] -> resetToOrigin st = st)
  /\ (history st <> [] ->
      history (resetToOrigin st) = history st
      /\ historyIndex (resetToOrigin st) = 0%Z
      /\ (forall k,
             history (navigateAll (replicate k Redo) (resetToOrigin st)) = history st
             /\ historyIndex (navigateAll (replicate k Redo) (resetToOrigin st))
                = Z.min (Z.of_nat k) (Z.of_nat (length (history st)) - 1))
      /\ (forall version,
             history (append version (resetToOrigin st))
             = (take 1 (history st) ++ [version])%list)).
Proof.
  rewrite resetToOrigin_state.
  split; [intros ->; reflexivity|].
  intros Hne. destruct (history st) as [|v0 vs] eqn:Hh; [congruence|].
  set (st' := with_isCompareModeActive _ _).
  assert (Hh' : history st' = v0 :: vs) by (subst st'; simpl; exact Hh).
  assert (Hi' : historyIndex st' = 0%Z) by reflexivity.
  assert (Hc : cursorInRange st').
  { unfold cursorInRange. rewrite Hh', Hi'. simpl. lia. }
  split; [exact Hh'|]. split; [exact Hi'|]. split.
  - intros k. destruct (navigateAll_invariant (replicate k Redo) st' Hc) as [H1 _].
    split; [now rewrite H1|]. rewrite (redo_steps k st' Hc), Hh', Hi'. reflexivity.
  - intros version. rewrite append_state.
    cbn [history with_isCompareModeActive with_completedCrop with_crop
           with_historyIndex with_history].
    rewrite Hh', Hi'. change (0 + 1)%Z with (Z.of_nat 0 + 1)%Z.
    rewrite slice0_take by (simpl; lia). reflexivity.
Qed.

(** C5 on the three-version history: after a reset the cursor is 0, two
    redo steps reach the last version, and an append then keeps only the
    original and the new version. *)
Lemma resetToOrigin_moves_cursor_only_witness :
  historyIndex (resetToOrigin threeVersions) = 0%Z
  /\ historyIndex (navigateAll [Redo; Redo] (resetToOrigin threeVersions)) = 2%Z
  /\ history (append (sampleFile "new") (resetToOrigin threeVersions))
     = [sampleFile "v0"; sampleFile "new"]
  /\ resetToOrigin initialState = initialState.
Proof.
  assert (Hne : history threeVersions <> []) by discriminate.
  pose proof (resetToOrigin_moves_cursor_only threeVersions) as [_ H].
  destruct (H Hne) as (_ & Hi & Hk & Ha).
  split; [exact Hi|]. split; [exact (proj2 (Hk 2%nat))|]. split; [exact (Ha _)|].
  exact (proj1 (resetToOrigin_moves_cursor_only initialState) eq_refl).
Defined.

(** ** The edit handlers *)

Section Edits.

Variable atob : string -> completion string.

Ltac run_handler :=
  cbv beta iota zeta delta
    [fire editHandler handleGenerate handleApplyFilter handleApplyAdjustment
       handleEnhanceQuality handleExtendBackdrop handleReplaceBackdrop handleApplyCrop
       addImageToHistory append
       mbind M_bind bind mret M_ret ret tryCatchFinally tryCatch lift throw modify
       setIsLoading setError setHistory setHistoryIndex setCrop setCompletedCrop
       setIsCompareModeActive setEditHotspot setDisplayHotspot console_error
       gatewayCall versionName failureText].

Lemma gatewayCall_classifies (op : EditOperation) (response : GenerateContentResponse)
    (image : File) (st : State) :
  gatewayCall op (Normal response) image st = handleApiResponse response (contextOf op).
Proof. destruct op; reflexivity. Qed.

Lemma editHandler_failure (op : EditOperation) (now : N)
    (answer : completion GenerateContentResponse) (st : State) (image : File) (err : Thrown) :
  requestIssued op st image ->
  gatewayCall op answer image st = Throw err ->
  fire (editHandler atob op now answer) st = (Normal tt, afterFailure op err st).
Proof.
  intros [Hcur Hguard] Hcall. unfold afterFailure.
  destruct op; cbn [gatewayCall] in Hcall; run_handler; rewrite Hcur.
  1: { destruct Hguard as [Hp [hot Hh]]. rewrite Hh in Hcall.
       change (default _ (Some hot)) with hot in Hcall.
       rewrite Hp, Hh. cbn [negb]. rewrite Hcall. reflexivity. }
  all: rewrite Hcall; reflexivity.
Qed.

Lemma editHandler_success (op : EditOperation) (now : N)
    (answer : completion GenerateContentResponse) (st : State) (image : File)
    (url : string) (newImageFile : File) :
  requestIssued op st image ->
  gatewayCall op answer image st = Normal url ->
  dataURLtoFile atob url (versionName op now) = Normal newImageFile ->
  fire (editHandler atob op now answer) st = (Normal tt, afterSuccess op newImageFile st).
Proof.
  intros [Hcur Hguard] Hcall Hfile. unfold afterSuccess.
  destruct op; cbn [gatewayCall] in Hcall; unfold versionName in Hfile;
    run_handler; rewrite Hcur.
  1: { destruct Hguard as [Hp [hot Hh]]. rewrite Hh in Hcall.
       change (default _ (Some hot)) with hot in Hcall.
       rewrite Hp, Hh. cbn [negb]. rewrite Hcall, Hfile. reflexivity. }
  all: rewrite Hcall, Hfile; reflexivity.
Qed.

Lemma editHandler_returns (op : EditOperation) (now : N)
    (answer : completion GenerateContentResponse) (st : State) :
  fst (fire (editHandler atob op now answer) st) = Normal tt.
Proof.
  destruct op; run_handler; destruct (currentImage st) as [image|]; try reflexivity.
  1: { destruct (negb (truthy (trim (prompt st)))); [reflexivity|].
       destruct (editHotspot st) as [hot|]; [|reflexivity].
       destruct (generateEditedImage _ _ _ _) as [url|e]; [|reflexivity].
       destruct (dataURLtoFile _ _ _); reflexivity. }
  all: match goal with |- context [lift ?c] => idtac | _ => idtac end.
  all: match goal with
       | |- context [match ?c with Normal _ => _ | Throw _ => _ end] =>
           destruct c as [url|e]; [|reflexivity]
       end.
  all: destruct (dataURLtoFile _ _ _); reflexivity.
Qed.

(** C9: when the service call of an edit operation fails -- a blocked
    request, an abnormal stop, no image, or any other thrown value -- the
    handler returns normally, with the error message of the operation
    followed by the failure's message as the one user-facing error, the
    history and the cursor as they were, and the loading indicator off.
    Whatever the answer of the service, the handler throws nothing. *)
Theorem gateway_failure_is_caught (op : EditOperation) (now : N)
    (answer : completion GenerateContentResponse) (st : State) (image : File) (err : Thrown) :
  requestIssued op st image ->
  gatewayCall op answer image st = Throw err ->
  let result := fire (editHandler atob op now answer) st in
  fst result = Normal tt
  /\ history (snd result) = history st
  /\ historyIndex (snd result) = historyIndex st
  /\ isLoading (snd result) = false
  /\ error (snd result) = Some (failureText op ++ errorMessageOf err)
  /\ snd result = afterFailure op err st
  /\ (forall answer', fst (fire (editHandler atob op now answer') st) = Normal tt).
Proof.
  intros Hreq Hcall result. subst result.
  rewrite (editHandler_failure op now answer st image err Hreq Hcall).
  repeat (split; [reflexivity|]).
  intros answer'. apply editHandler_returns.
Qed.

Lemma append_transients (st : State) (version : File) :
  let st' := append version st in
  isCompareModeActive st' = false
  /\ crop st' = None
  /\ completedCrop st' = None
  /\ compareSliderPosition st' = compareSliderPosition st
  /\ editHotspot st' = editHotspot st
  /\ displayHotspot st' = displayHotspot st.
Proof. rewrite append_state. repeat split. Qed.

Lemma handleApplyCrop_success (now : N) (st : State) (url : string) (newImageFile : File) :
  is_Some (completedCrop st) ->
  dataURLtoFile atob url ("cropped-" ++ showN now ++ ".png") = Normal newImageFile ->
  fire (fun render => handleApplyCrop atob render now true (Some url)) st
  = (Normal tt, append newImageFile st).
Proof.
  intros [c Hc] Hfile. run_handler. rewrite Hc, Hfile. reflexivity.
Qed.

(** C3, as the code has it: every append of a new version sets Compare mode
    inactive and clears the crop selection, and leaves the compare slider
    position and the pending Hotspot as they were.  This holds through every
    edit path; the localized edit alone clears the Hotspot, after its
    append.  The slider position is set to 50 when Compare mode is next
    activated. *)
Theorem append_deactivates_compare (st : State) :
  (forall version,
      let st' := append version st in
      isCompareModeActive st' = false
      /\ crop st' = None /\ completedCrop st' = None
      /\ compareSliderPosition st' = compareSliderPosition st
      /\ editHotspot st' = editHotspot st
      /\ displayHotspot st' = displayHotspot st)
  /\ (forall op now answer image url newImageFile,
        requestIssued op st image ->
        gatewayCall op answer image st = Normal url ->
        dataURLtoFile atob url (versionName op now) = Normal newImageFile ->
        let st' := snd (fire (editHandler atob op now answer) st) in
        history st' = history (append newImageFile st)
        /\ isCompareModeActive st' = false
        /\ compareSliderPosition st' = compareSliderPosition st
        /\ editHotspot st'
           = match op with LocalizedEdit => None | _ => editHotspot st end
        /\ displayHotspot st'
           = match op with LocalizedEdit => None | _ => displayHotspot st end)
  /\ (forall now url newImageFile,
        is_Some (completedCrop st) ->
        dataURLtoFile atob url ("cropped-" ++ showN now ++ ".png") = Normal newImageFile ->
        let st' := snd (fire (fun render => handleApplyCrop atob render now true (Some url)) st) in
        history st' = history (append newImageFile st)
        /\ isCompareModeActive st' = false
        /\ compareSliderPosition st' = compareSliderPosition st
        /\ editHotspot st' = editHotspot st
        /\ displayHotspot st' = displayHotspot st)
  /\ (isCompareModeActive st = false ->
      let st' := snd (handleToggleCompareMode st) in
      isCompareModeActive st' = true /\ compareSliderPosition st' = ofZ 50).
Proof.
  split; [intros version; apply append_transients|]. split; [|split].
  - intros op now answer image url newImageFile Hreq Hcall Hfile st'. subst st'.
    rewrite (editHandler_success op now answer st image url newImageFile Hreq Hcall Hfile).
    unfold afterSuccess. rewrite !append_state. destruct op; repeat split.
  - intros now url newImageFile Hc Hfile st'. subst st'.
    rewrite (handleApplyCrop_success now st url newImageFile Hc Hfile).
    rewrite append_state. repeat split.
  - intros Hoff. unfold handleToggleCompareMode. rewrite Hoff. split; reflexivity.
Qed.

End Edits.

(** C9 on a filter request that the model stops for safety: the one error
    message is set, nothing is appended and loading is over. *)
Lemma gateway_failure_is_caught_witness :
  let result :=
    fire (editHandler atobModel (Filter "sepia") 7 (Normal stoppedForSafety))
      clickedAndDragged in
  fst result = Normal tt
  /\ history (snd result) = [sampleFile "v0"]
  /\ historyIndex (snd result) = 0%Z
  /\ isLoading (snd result) = false
  /\ error (snd result)
     = Some "Failed to apply the filter. Image generation for filter stopped unexpectedly. Reason: SAFETY. This often relates to safety settings.".
Proof.
  assert (Hreq : requestIssued (Filter "sepia") clickedAndDragged (sampleFile "v0"))
    by (split; [reflexivity | exact I]).
  pose proof (gateway_failure_is_caught atobModel (Filter "sepia") 7
                (Normal stoppedForSafety) clickedAndDragged (sampleFile "v0")
                (ErrorObject (stoppedMessage "filter" "SAFETY")) Hreq eq_refl)
    as (H1 & H2 & H3 & H4 & H5 & _).
  split; [exact H1|]. split; [exact H2|]. split; [exact H3|]. split; [exact H4 | exact H5].
Defined.

(** C3 as the specification states it -- every append clears the pending
    Hotspot and resets the slider to 50 -- does not hold: after a click on
    the image and a drag of the slider to 25, an append, alone or through a
    successful filter, keeps the Hotspot and leaves the slider at 25. *)
Lemma append_keeps_hotspot_and_slider :
  let hotspot := Some {| x := ofZ 10; y := ofZ 10 |} in
  let appended := append (pngFile "filtered-7.png") clickedAndDragged in
  let filtered :=
    snd (fire (editHandler atobModel (Filter "sepia") 7 (Normal imageAfterText))
           clickedAndDragged) in
  history appended = [sampleFile "v0"; pngFile "filtered-7.png"]
  /\ editHotspot appended = hotspot
  /\ compareSliderPosition appended = ofZ 25
  /\ history filtered = [sampleFile "v0"; pngFile "filtered-7.png"]
  /\ editHotspot filtered = hotspot
  /\ editHotspot filtered <> None
  /\ compareSliderPosition filtered = ofZ 25
  /\ compareSliderPosition filtered <> ofZ 50.
Proof.
  cbv zeta. repeat (split; [reflexivity|]).
  split; [discriminate|]. split; [reflexivity | discriminate].
Qed.

(** C3 as amended, on the same state: a successful filter deactivates
    Compare mode and keeps Hotspot and slider; a successful localized edit
    clears the Hotspot. *)
Lemma append_deactivates_compare_witness :
  let filtered :=
    snd (fire (editHandler atobModel (Filter "sepia") 7 (Normal imageAfterText))
           clickedAndDragged) in
  let edited :=
    snd (fire (editHandler atobModel LocalizedEdit 7 (Normal imageAfterText))
           clickedAndDragged) in
  (isCompareModeActive filtered = false
   /\ compareSliderPosition filtered = ofZ 25
   /\ editHotspot filtered = Some {| x := ofZ 10; y := ofZ 10 |})
  /\ (isCompareModeActive edited = false
      /\ compareSliderPosition edited = ofZ 25
      /\ editHotspot edited = None).
Proof.
  pose proof (append_deactivates_compare atobModel clickedAndDragged) as (_ & H & _ & _).
  assert (Hf : requestIssued (Filter "sepia") clickedAndDragged (sampleFile "v0"))
    by (split; [reflexivity | exact I]).
  assert (He : requestIssued LocalizedEdit clickedAndDragged (sampleFile "v0")).
  { split; [reflexivity|]. split; [reflexivity|]. eexists; reflexivity. }
  split.
  - destruct (H (Filter "sepia") 7%N (Normal imageAfterText) (sampleFile "v0")
                "data:image/png;base64,iVBORw0KGgo=" (pngFile "filtered-7.png")
                Hf eq_refl eq_refl) as (_ & H2 & H3 & H4 & _).
    split; [exact H2|]. split; [exact H3 | exact H4].
  - destruct (H LocalizedEdit 7%N (Normal imageAfterText) (sampleFile "v0")
                "data:image/png;base64,iVBORw0KGgo=" (pngFile "edited-7.png")
                He eq_refl eq_refl) as (_ & H2 & H3 & H4 & _).
    split; [exact H2|]. split; [exact H3 | exact H4].
Defined.

(** ** The batch run *)

Section Settle.

Context {A : Type}.
Variable tasks : list (M A).
Variable outs : list (completion A).
Hypothesis outs_length : length outs = length tasks.
Hypothesis outs_spec :
  forall i task st, tasks !! i = Some task -> outs !! i = Some (fst (task st)).

Lemma settle_cons (i : nat) (order : list nat) (slots : list (option (completion A)))
    (st : State) :
  settle tasks (i :: order) slots st
  = match (tasks !! i : option (M A)), slots !! i with
    | Some task, Some None =>
        settle tasks order (<[i := Some (fst (task st))]> slots) (snd (task st))
    | _, _ => settle tasks order slots st
    end.
Proof.
  cbn [settle]. destruct (tasks !! i) as [task|]; [|reflexivity].
  destruct (slots !! i) as [[r|]|]; try reflexivity.
  now destruct (task st).
Qed.

Lemma settle_length (order : list nat) :
  forall slots st, length (fst (settle tasks order slots st)) = length slots.
Proof.
  induction order as [|i order IH]; intros slots st; [reflexivity|].
  cbn [settle]. destruct (tasks !! i) as [task|]; [|apply IH].
  destruct (slots !! i) as [[r|]|]; try apply IH.
  destruct (task st) as [result st']. rewrite IH. apply length_insert.
Qed.

Lemma settle_keeps_settled (order : list nat) (j : nat) (r : completion A) :
  forall slots st,
    slots !! j = Some (Some r) ->
    fst (settle tasks order slots st) !! j = Some (Some r).
Proof.
  induction order as [|i order IH]; intros slots st Hj; [exact Hj|].
  cbn [settle]. destruct (tasks !! i) as [task|]; [|now apply IH].
  destruct (slots !! i) as [[r'|]|] eqn:Hi; try now apply IH.
  destruct (task st) as [result st']. apply IH.
  rewrite list_lookup_insert_ne; [exact Hj|]. intros ->. congruence.
Qed.

Lemma settle_agrees (order : list nat) :
  forall slots st,
    (forall j r, slots !! j = Some (Some r) -> outs !! j = Some r) ->
    forall j r, fst (settle tasks order slots st) !! j = Some (Some r) -> outs !! j = Some r.
Proof.
  induction order as [|i order IH]; intros slots st Hs; [exact Hs|].
  cbn [settle]. destruct (tasks !! i) as [task|] eqn:Ht; [|now apply IH].
  destruct (slots !! i) as [[r'|]|] eqn:Hi; try now apply IH.
  destruct (task st) as [result st'] eqn:Hrun. apply IH.
  intros j r Hj. destruct (decide (i = j)) as [->|Hne].
  - rewrite list_lookup_insert_eq in Hj by (apply lookup_lt_Some in Hi; exact Hi).
    injection Hj as <-. rewrite (outs_spec j task st Ht), Hrun. reflexivity.
  - rewrite list_lookup_insert_ne in Hj by exact Hne. now apply Hs.
Qed.

Lemma settle_covers (order : list nat) (i : nat) :
  i ∈ order ->
  forall slots st,
    length slots = length tasks ->
    (i < length tasks)%nat ->
    exists r, fst (settle tasks order slots st) !! i = Some (Some r).
Proof.
  induction order as [|h order IH]; intros Hin slots st Hlen Hi.
  - apply elem_of_nil in Hin. contradiction.
  - cbn [settle]. apply elem_of_cons in Hin as [Heq|Hin].
    + subst h.
      destruct (tasks !! i) as [task|] eqn:Ht;
        [|apply lookup_ge_None in Ht; exfalso; lia].
      destruct (slots !! i) as [[r|]|] eqn:Hs;
        [| |apply lookup_ge_None in Hs; exfalso; lia].
      * exists r. now apply settle_keeps_settled.
      * destruct (task st) as [result st']. exists result.
        apply settle_keeps_settled. apply list_lookup_insert_eq.
        apply lookup_lt_Some in Hs. exact Hs.
    + destruct (tasks !! h) as [task|]; [|now apply IH].
      destruct (slots !! h) as [[r|]|]; try now apply IH.
      destruct (task st) as [result st']. apply IH; try assumption.
      now rewrite length_insert.
Qed.

Lemma mapM_settled (l : list (completion A)) : mapM id (map Some l) = Some l.
Proof. apply mapM_Some. induction l; constructor; auto. Qed.

Lemma allSettled_complete (order : list nat) (st : State) :
  settlesAll order (length tasks) ->
  allSettled tasks order st
  = Some (outs, snd (settle tasks order (replicate (length tasks) None) st)).
Proof.
  intros Hall. unfold allSettled.
  destruct (settle tasks order (replicate (length tasks) None) st) as [slots st'] eqn:Hrun.
  assert (Hslots : slots = map Some outs).
  { apply list_eq. intros j. rewrite list_lookup_fmap.
    assert (Hlen : length slots = length tasks).
    { change slots with (fst (slots, st')). rewrite <- Hrun, settle_length.
      apply length_replicate. }
    destruct (decide (j < length tasks)%nat) as [Hj|Hj].
    - destruct (settle_covers order j (Hall j Hj) (replicate (length tasks) None) st
                  (length_replicate _ _) Hj) as [r Hr].
      rewrite Hrun in Hr. cbn [fst] in Hr. rewrite Hr.
      assert (Ho : outs !! j = Some r).
      { apply (settle_agrees order (replicate (length tasks) None) st).
        - intros k r' Hk. apply lookup_replicate in Hk as [Hk _]. discriminate.
        - now rewrite Hrun. }
      now rewrite Ho.
    - rewrite !lookup_ge_None_2; [reflexivity| lia | lia]. }
  rewrite Hslots, mapM_settled. reflexivity.
Qed.

End Settle.

Section Batch.

Variable atob : string -> completion string.
Variable prompt : string.
Variable generator : Generator.
Variable type : string.
Variable answers : nat -> completion GenerateContentResponse.
Variable images : list File.

Local Abbreviation tasks := (batchTasks atob prompt generator type answers images).
Local Abbreviation outs := (batchOutcomes atob prompt generator type answers images).
Local Abbreviation outcome := (invocationOutcome atob prompt generator type answers).
Local Abbreviation settled := (afterInvocation atob prompt generator type answers).

Lemma batchInvocation_run (index : nat) (image : File) (st : State) :
  batchInvocation atob prompt generator type (answers index) index image st
  = (outcome index image,
     settled index image st).
Proof.
  unfold afterInvocation, invocationOutcome, batchInvocation, failureEntry.
  cbv beta iota zeta delta
    [tryCatch mbind M_bind bind mret M_ret ret lift throw modify
       tickProcessingProgress console_error andThen].
  destruct (generator (answers index) image prompt) as [result|err]; [|reflexivity].
  destruct (dataURLtoFile atob result _) as [newFile|err]; reflexivity.
Qed.

Lemma tasks_length : length outs = length tasks.
Proof. unfold batchOutcomes, batchTasks. now rewrite !length_imap. Qed.

Lemma tasks_lookup (i : nat) (task : M File) :
  tasks !! i = Some task ->
  exists image, images !! i = Some image
                /\ task = batchInvocation atob prompt generator type (answers i) i image.
Proof.
  unfold batchTasks. rewrite list_lookup_imap.
  destruct (images !! i) as [image|]; [|discriminate].
  intros [= <-]. eauto.
Qed.

Lemma tasks_outcomes (i : nat) (task : M File) (st : State) :
  tasks !! i = Some task -> outs !! i = Some (fst (task st)).
Proof.
  intros Ht. destruct (tasks_lookup i task Ht) as (image & Hi & ->).
  unfold batchOutcomes. rewrite list_lookup_imap, Hi, batchInvocation_run. reflexivity.
Qed.

Lemma afterInvocation_frame (index : nat) (image : File) (st : State) p c :
  with_processingProgress p (with_console c (settled index image st))
  = with_processingProgress p (with_console c st).
Proof.
  unfold afterInvocation.
  destruct (outcome index image); reflexivity.
Qed.



(** Settling touches the progress counter and the console only. *)
Lemma settle_frame (order : list nat) p c :
  forall slots st,
    with_processingProgress p (with_console c (snd (settle tasks order slots st)))
    = with_processingProgress p (with_console c st).
Proof.
  induction order as [|i order IH]; intros slots st; [reflexivity|].
  rewrite settle_cons. destruct (tasks !! i) as [task|] eqn:Ht; [|apply IH].
  destruct (slots !! i) as [[r|]|]; try apply IH.
  destruct (tasks_lookup i task Ht) as (image & Hi & ->).
  rewrite batchInvocation_run, IH. apply afterInvocation_frame.
Qed.



Lemma failedCount_failures (results : list (completion File)) :
  length (List.filter (fun img : option File => match img with None => true | Some _ => false end)
            (map (fun result => match result with Normal value => Some value | Throw _ => None end)
               results))
  = length (List.filter (fun c => negb (succeeded c)) results).
Proof.
  induction results as [|[value|err] results IH]; cbn; [reflexivity|exact IH|].
  now rewrite IH.
Qed.

Lemma handleBatchApply_result (order : list nat) (st : State) :
  batchImages st = images ->
  settlesAll order (length images) ->
  handleBatchApply atob st prompt generator type answers order st
  = Some (Normal tt, afterBatch atob prompt generator type answers order st).
Proof.
  intros Himages Hall. unfold handleBatchApply, afterBatch, failures. rewrite Himages.
  fold tasks. fold outs.
  assert (Hall' : settlesAll order (length tasks)).
  { unfold batchTasks. now rewrite length_imap. }
  rewrite (allSettled_complete tasks outs tasks_length tasks_outcomes order _ Hall').
  unfold batchTasks at 2. rewrite length_imap.
  cbv zeta. rewrite failedCount_failures.
  destruct (0 <? length (List.filter _ outs))%nat; reflexivity.
Qed.

Lemma afterBatch_output (order : list nat) (st : State) :
  batchImages st = images ->
  processedBatchImages (afterBatch atob prompt generator type answers order st)
  = map slotOf outs.
Proof.
  intros Himages. unfold afterBatch. rewrite Himages.
  destruct (0 <? _)%nat; reflexivity.
Qed.

Lemma afterBatch_flags (order : list nat) (st : State) :
  let st' := afterBatch atob prompt generator type answers order st in
  isLoading st' = false /\ isBatchProcessingComplete st' = true
  /\ processingProgress st' = None.
Proof. unfold afterBatch. destruct (0 <? _)%nat; repeat split. Qed.



Lemma outs_lookup (i : nat) :
  outs !! i = outcome i <$> images !! i.
Proof. unfold batchOutcomes. apply list_lookup_imap. Qed.


Lemma failures_pos (i : nat) (image : File) :
  images !! i = Some image ->
  succeeded (outcome i image) = false ->
  (0 < failures atob prompt generator type answers images)%nat.
Proof.
  intros Hi Hfail. unfold failures. fold outs.
  assert (Hin : outcome i image ∈ outs).
  { apply list_elem_of_lookup. exists i. now rewrite outs_lookup, Hi. }
  revert Hin. generalize outs. intros l Hin.
  induction Hin as [c l|c d l Hin IH]; cbn [List.filter].
  - rewrite Hfail. cbn [negb length]. lia.
  - specialize (IH Hfail). destruct (negb (succeeded d)); [cbn [length]; lia | exact IH].
Qed.


End Batch.

Section BatchRun.

Variable atob : string -> completion string.
Variable prompt : string.
Variable generator : Generator.
Variable type : string.
Variable answers : nat -> completion GenerateContentResponse.

Local Abbreviation outcome := (invocationOutcome atob prompt generator type answers).
Local Abbreviation run := (handleBatchApply atob).

(** C6: a batch run over N images, whose invocations settle in any order,
    comes back with an output of length N in which slot [i] holds the image
    of invocation [i] when that invocation succeeded and is absent when it
    failed.  The output is the same for every settling order, and does not
    depend on the output of an earlier run. *)
Theorem batch_output_aligned (order : list nat) (st : State) :
  settlesAll order (length (batchImages st)) ->
  exists st',
    run st prompt generator type answers order st = Some (Normal tt, st')
    /\ length (processedBatchImages st') = length (batchImages st)
    /\ (forall i image,
           batchImages st !! i = Some image ->
           processedBatchImages st' !! i = Some (slotOf (outcome i image))
           /\ ((exists output, processedBatchImages st' !! i = Some (Some output))
               <-> succeeded (outcome i image) = true))
    /\ (forall order' prior,
           settlesAll order' (length (batchImages st)) ->
           exists st'',
             run (with_processedBatchImages prior st) prompt generator type answers order'
               (with_processedBatchImages prior st) = Some (Normal tt, st'')
             /\ processedBatchImages st'' = processedBatchImages st').
Proof.
  intros Hall. eexists. split;
    [now apply handleBatchApply_result with (images := batchImages st)|].
  rewrite (afterBatch_output atob prompt generator type answers (batchImages st) order st eq_refl).
  assert (Hslot : forall i image,
             batchImages st !! i = Some image ->
             map slotOf (batchOutcomes atob prompt generator type answers (batchImages st)) !! i
             = Some (slotOf (outcome i image))).
  { intros i image Hi. now rewrite list_lookup_fmap, outs_lookup, Hi. }
  split; [|split].
  - unfold batchOutcomes. now rewrite length_map, length_imap.
  - intros i image Hi. rewrite (Hslot i image Hi). split; [reflexivity|].
    destruct (outcome i image) as [value|err]; cbn; split.
    + reflexivity.
    + intros _. now exists value.
    + intros [output H]. discriminate.
    + discriminate.
  - intros order' prior Hall'. eexists. split.
    + apply handleBatchApply_result with (images := batchImages st); [reflexivity | exact Hall'].
    + now rewrite (afterBatch_output atob prompt generator type answers (batchImages st)).
Qed.



End BatchRun.

(** Every completion order of [n] invocations, a permutation of their
    indices, settles them all. *)
Lemma permutation_settlesAll (order : list nat) (n : nat) :
  order ≡ₚ seq 0 n -> settlesAll order n.
Proof. intros Hp i Hi. rewrite Hp. apply elem_of_seq. lia. Qed.

Lemma settlesAll_three (order : list nat) :
  (0 ∈ order)%nat -> (1 ∈ order)%nat -> (2 ∈ order)%nat -> settlesAll order 3.
Proof.
  intros H0 H1 H2 i Hi.
  assert (Hcases : i = 0%nat \/ i = 1%nat \/ i = 2%nat) by lia.
  destruct Hcases as [-> | [-> | ->]]; assumption.
Qed.

(** C6 on three images of which the second fails, the third settling
    first: the output keeps the input order. *)
Lemma batch_output_aligned_witness :
  exists st',
    handleBatchApply atobModel threeImages "sepia" generateFilteredImage "filtered"
      secondFails [2; 0; 1]%nat threeImages = Some (Normal tt, st')
    /\ length (processedBatchImages st') = 3%nat
    /\ processedBatchImages st' !! 0%nat = Some (Some (pngFile "filtered-0-a.png"))
    /\ processedBatchImages st' !! 1%nat = Some None
    /\ processedBatchImages st' !! 2%nat = Some (Some (pngFile "filtered-2-c.png")).
Proof.
  assert (Hall : settlesAll [2; 0; 1]%nat (length (batchImages threeImages))).
  { apply settlesAll_three; apply list_elem_of_In; simpl; auto. }
  destruct (batch_output_aligned atobModel "sepia" generateFilteredImage "filtered"
              secondFails [2; 0; 1]%nat threeImages Hall)
    as (st' & Hrun & Hlen & Hslots & _).
  exists st'. split; [exact Hrun|]. split; [exact Hlen|].
  split; [exact (proj1 (Hslots 0%nat (sampleFile "a.png") eq_refl))|].
  split; [exact (proj1 (Hslots 1%nat (sampleFile "b.png") eq_refl))|].
  exact (proj1 (Hslots 2%nat (sampleFile "c.png") eq_refl)).
Defined.



(** ** The compare slider *)

Lemma shr_1_nonneg (mrs : shr_record) :
  (0 <= shr_m mrs)%Z -> (0 <= shr_m (shr_1 mrs))%Z.
Proof.
  destruct mrs as [m r s]. destruct m as [|[p|p|]|[p|p|]]; cbn; lia.
Qed.

Lemma iter_shr_1_nonneg (p : positive) :
  forall mrs, (0 <= shr_m mrs)%Z -> (0 <= shr_m (SpecFloat.iter_pos shr_1 p mrs))%Z.
Proof.
  induction p as [p IH|p IH|]; intros mrs H; cbn [SpecFloat.iter_pos].
  - apply IH, IH, shr_1_nonneg, H.
  - apply IH, IH, H.
  - apply shr_1_nonneg, H.
Qed.

Lemma shr_fexp_nonneg (m e : Z) (l : location) :
  (0 <= m)%Z -> (0 <= shr_m (fst (shr_fexp prec emax m e l)))%Z.
Proof.
  intros H. unfold shr_fexp, shr.
  assert (H0 : (0 <= shr_m (shr_record_of_loc m l))%Z) by (destruct l as [|[| |]]; exact H).
  destruct (_ - e)%Z; cbn [fst]; [exact H0 | apply iter_shr_1_nonneg, H0 | exact H0].
Qed.

Lemma round_nearest_even_nonneg (m : Z) (l : location) :
  (0 <= m)%Z -> (0 <= round_nearest_even m l)%Z.
Proof.
  intros H. destruct l as [|[| |]]; cbn; try lia. destruct (Z.even m); lia.
Qed.

(** Rounding a non-negative mantissa gives a zero, a finite number or an
    infinity of the given sign, never NaN. *)
Lemma binary_round_aux_sign (sx : bool) (mx ex : Z) (lx : location) :
  (0 <= mx)%Z -> hasSign sx (binary_round_aux prec emax sx mx ex lx).
Proof.
  intros H. unfold binary_round_aux.
  pose proof (shr_fexp_nonneg mx ex lx H) as H1.
  destruct (shr_fexp prec emax mx ex lx) as [mrs' e']. cbn [fst] in H1.
  pose proof (shr_fexp_nonneg _ e' loc_Exact
                (round_nearest_even_nonneg _ (loc_of_shr_record mrs') H1)) as H2.
  destruct (shr_fexp prec emax _ e' loc_Exact) as [mrs'' e'']. cbn [fst] in H2.
  destruct (shr_m mrs'') as [|m|m]; [reflexivity| |lia].
  destruct (e'' <=? emax - prec)%Z; reflexivity.
Qed.

Lemma binary_round_sign (sx : bool) (mx : positive) (ex : Z) :
  hasSign sx (binary_round prec emax sx mx ex).
Proof.
  unfold binary_round. destruct (shl_align _ _ _) as [mz ez].
  apply binary_round_aux_sign. lia.
Qed.

Lemma hasSign_notNaN (s : bool) (a : number) : hasSign s a -> isNaN a = false.
Proof. destruct a; cbn; [reflexivity..|contradiction|reflexivity]. Qed.

Lemma sub_finite (a b : number) :
  isFinite a = true -> isFinite b = true -> isNaN (sub a b) = false.
Proof.
  destruct a as [sa|sa| |sa ma ea], b as [sb|sb| |sb mb eb]; try discriminate; intros _ _.
  - destruct sa, sb; reflexivity.
  - reflexivity.
  - reflexivity.
  - unfold sub, SFsub, binary_normalize.
    destruct (_ - _)%Z as [|m|m]; [reflexivity| |];
      eapply hasSign_notNaN, binary_round_sign.
Qed.

Lemma div_core_nonneg (m1 : positive) (e1 : Z) (m2 : positive) (e2 : Z) :
  (0 <= fst (fst (SFdiv_core_binary prec emax (Z.pos m1) e1 (Z.pos m2) e2)))%Z.
Proof.
  unfold SFdiv_core_binary.
  set (s := (e1 - e2 - _)%Z).
  set (m' := match s with Z.pos _ => Z.shiftl (Z.pos m1) s | 0%Z => Z.pos m1 | Z.neg _ => 0%Z end).
  assert (Hm : (0 <= m')%Z).
  { subst m'. destruct s; [lia | apply Z.shiftl_nonneg; lia | lia]. }
  pose proof (Z_div_mod m' (Z.pos m2) ltac:(lia)) as Hdiv.
  destruct (Z.div_eucl m' (Z.pos m2)) as [q r]. cbn [fst].
  destruct Hdiv as [Heq Hr]. nia.
Qed.

(** Dividing a number that is not NaN by a positive finite number keeps its
    sign. *)
Lemma div_sign (s : bool) (a w : number) :
  hasSign s a -> isFinite w = true -> ltb (ofZ 0) w = true -> hasSign s (div a w).
Proof.
  intros Ha Hf Hw.
  destruct w as [sw|sw| |sw mw ew]; try discriminate.
  destruct sw; [discriminate|].
  destruct a as [sa|sa| |sa ma ea]; cbn in Ha; try contradiction; subst sa.
  - cbn. now destruct s.
  - cbn. now destruct s.
  - unfold div, SFdiv.
    pose proof (div_core_nonneg ma ea mw ew) as Hq.
    destruct (SFdiv_core_binary _ _ _ _ _ _) as [[mz ez] lz]. cbn [fst] in Hq.
    replace (xorb s false) with s by now destruct s.
    apply binary_round_aux_sign, Hq.
Qed.

Lemma mul_hundred_sign (s : bool) (a : number) :
  hasSign s a -> hasSign s (mul a (ofZ 100)).
Proof.
  intros Ha. destruct a as [sa|sa| |sa ma ea]; cbn in Ha; try contradiction; subst sa.
  - cbn. now destruct s.
  - cbn. now destruct s.
  - unfold mul. cbn [ofZ SFmul]. change (ofZ 100) with (S754_finite false 7036874417766400 (-46)).
    cbn [SFmul]. replace (xorb s false) with s by now destruct s.
    apply binary_round_aux_sign. lia.
Qed.

Lemma compare_finite_antisym (m1 : positive) (e1 : Z) (m2 : positive) (e2 : Z) (c : comparison) :
  SFcompare (S754_finite false m1 e1) (S754_finite false m2 e2) = Some c ->
  SFcompare (S754_finite false m2 e2) (S754_finite false m1 e1) = Some (CompOpp c).
Proof.
  cbn [SFcompare]. rewrite (Z.compare_antisym e1 e2).
  destruct (e1 ?= e2)%Z; cbn [CompOpp]; intros [= <-]; try reflexivity.
  now rewrite Pos.compare_cont_antisym.
Qed.

Lemma compare_finite_refl (s : bool) (m : positive) (e : Z) :
  SFcompare (S754_finite s m e) (S754_finite s m e) = Some Eq.
Proof.
  cbn [SFcompare]. rewrite Z.compare_refl, Pos.compare_cont_refl. now destruct s.
Qed.

(** The nested [Math.max] and [Math.min] of the handler are the clamp of
    the specification on every number that is not NaN, and stay within
    0 and 100. *)
Lemma max_min_is_clamp (v : number) :
  isNaN v = false ->
  let p := Math_max (ofZ 0) (Math_min (ofZ 100) v) in
  strictEq p (clamp (ofZ 0) (ofZ 100) v) = true /\ inPercentRange p.
Proof.
  intros Hv. destruct v as [s|s| |s m e]; [| |discriminate|].
  - destruct s; repeat split.
  - destruct s; repeat split.
  - destruct s; [repeat split|].
    unfold inPercentRange, strictEq, clamp, Math_max, Math_min, leb, ltb, SFleb, SFltb, SFeqb.
    change (ofZ 100) with (S754_finite false 7036874417766400 (-46)).
    change (ofZ 0) with (S754_zero false).
    assert (He' : (e ?= -46)%Z = CompOpp (-46 ?= e)%Z) by apply Z.compare_antisym.
    assert (Hm' : Pos.compare_cont Eq m 7036874417766400
                  = CompOpp (Pos.compare_cont Eq 7036874417766400 m))
      by (rewrite Pos.compare_cont_antisym; reflexivity).
    destruct (-46 ?= e)%Z eqn:He;
      destruct (Pos.compare_cont Eq 7036874417766400 m) eqn:Hm;
      cbn [CompOpp] in He', Hm';
      repeat (cbn -[Z.compare Pos.compare_cont];
              rewrite ?He, ?Hm, ?He', ?Hm', ?Z.compare_refl, ?Pos.compare_cont_refl);
      repeat split.
Qed.

Lemma max_min_negative (v : number) :
  hasSign true v -> Math_max (ofZ 0) (Math_min (ofZ 100) v) = ofZ 0.
Proof.
  destruct v as [s|s| |s m e]; cbn [hasSign]; [| |contradiction|]; intros ->; reflexivity.
Qed.

Lemma negative_hasSign (a : number) : ltb a (ofZ 0) = true -> hasSign true a.
Proof.
  destruct a as [s|s| |s m e]; cbn; try discriminate; destruct s; try discriminate; reflexivity.
Qed.

Lemma notNaN_hasSign (a : number) : isNaN a = false -> exists s, hasSign s a.
Proof.
  destruct a as [s|s| |s m e]; [| |discriminate|]; intros _; exists s; reflexivity.
Qed.

Lemma percentage_notNaN (clientX : number) (rect : DOMRect) :
  isFinite clientX = true -> laidOut rect -> isNaN (percentage clientX rect) = false.
Proof.
  intros Hx (Hl & Hw & Hpos).
  destruct (notNaN_hasSign _ (sub_finite clientX (left rect) Hx Hl)) as [s Hs].
  apply (hasSign_notNaN s). unfold percentage.
  apply mul_hundred_sign, div_sign; assumption.
Qed.

Lemma positionAfterMove_dragging (clientX : number) (rect : DOMRect) (st : State) :
  isDraggingComparer st = true ->
  positionAfterMove clientX rect st
  = Math_max (ofZ 0) (Math_min (ofZ 100) (percentage clientX rect)).
Proof.
  intros Hd. unfold positionAfterMove, fire, handleComparerActionMove. now rewrite Hd.
Qed.

(** While the slider is dragged over a laid-out container -- finite left
    edge, finite positive width -- every finite pointer position, left of
    the container, inside it or right of it, gives a slider position equal
    to clamp(0, 100, (pointerX - containerLeft) / containerWidth * 100),
    which lies between 0 and 100 inclusive; a pointer left of the container
    gives exactly 0. *)
Theorem slider_position_clamped (st : State) (rect : DOMRect) (clientX : number) :
  isDraggingComparer st = true ->
  isFinite clientX = true ->
  laidOut rect ->
  let p := positionAfterMove clientX rect st in
  strictEq p (clamp (ofZ 0) (ofZ 100) (percentage clientX rect)) = true
  /\ leb (ofZ 0) p = true
  /\ leb p (ofZ 100) = true
  /\ (ltb (sub clientX (left rect)) (ofZ 0) = true -> p = ofZ 0).
Proof.
  intros Hd Hx Hrect p. subst p. rewrite (positionAfterMove_dragging _ _ _ Hd).
  destruct (max_min_is_clamp _ (percentage_notNaN clientX rect Hx Hrect)) as [Heq [Hlo Hhi]].
  split; [exact Heq|]. split; [exact Hlo|]. split; [exact Hhi|].
  intros Hneg. apply max_min_negative. unfold percentage.
  destruct Hrect as (Hl & Hw & Hpos).
  apply mul_hundred_sign, div_sign; try assumption.
  now apply negative_hasSign.
Qed.

(** On a container 800 wide at 100: a pointer at 300 gives 25, one at 40
    gives 0 and one at 2000 gives 100. *)
Lemma slider_position_clamped_witness :
  positionAfterMove (ofZ 300) container dragging = ofZ 25
  /\ positionAfterMove (ofZ 40) container dragging = ofZ 0
  /\ positionAfterMove (ofZ 2000) container dragging = ofZ 100
  /\ leb (ofZ 0) (positionAfterMove (ofZ 2000) container dragging) = true
  /\ leb (positionAfterMove (ofZ 2000) container dragging) (ofZ 100) = true.
Proof.
  assert (Hrect : laidOut container) by (repeat split).
  pose proof (slider_position_clamped dragging container (ofZ 2000) eq_refl eq_refl Hrect)
    as (_ & Hlo & Hhi & _).
  pose proof (slider_position_clamped dragging container (ofZ 40) eq_refl eq_refl Hrect)
    as (_ & _ & _ & Hzero).
  split; [vm_compute; reflexivity|]. split; [exact (Hzero eq_refl)|].
  split; [vm_compute; reflexivity|]. split; [exact Hlo | exact Hhi].
Defined.

(** C8: the position is not always within 0 and 100.  The handler does not
    look at the width of the container: over a container of width 0 with
    the pointer on its left edge the division is 0 / 0, [Math.min] and
    [Math.max] pass the NaN on, and the stored position is NaN, which is
    neither at least 0, nor at most 100, nor equal to the clamp. *)
Remark zero_width_container_gives_NaN :
  positionAfterMove (ofZ 100) {| left := ofZ 100; width := ofZ 0 |} dragging = S754_nan
  /\ isDraggingComparer dragging = true
  /\ leb (ofZ 0)
       (positionAfterMove (ofZ 100) {| left := ofZ 100; width := ofZ 0 |} dragging) = false
  /\ leb (positionAfterMove (ofZ 100) {| left := ofZ 100; width := ofZ 0 |} dragging)
       (ofZ 100) = false
  /\ strictEq
       (positionAfterMove (ofZ 100) {| left := ofZ 100; width := ofZ 0 |} dragging)
       (clamp (ofZ 0) (ofZ 100)
          (percentage (ofZ 100) {| left := ofZ 100; width := ofZ 0 |})) = false.
Proof. repeat split. Qed.

(** * Further properties of the code *)

(** ** Data URLs: [dataURLtoFile] and [fileToPart] *)

Lemma string_app_assoc (a b c : string) : (a ++ b) ++ c = a ++ (b ++ c).
Proof. induction a as [|x a IH]; cbn; [reflexivity | now rewrite IH]. Qed.

Lemma hasChar_app (c : ascii) (a b : string) :
  hasChar c (a ++ b) = hasChar c a || hasChar c b.
Proof.
  induction a as [|x a IH]; cbn; [reflexivity|]. rewrite IH. apply orb_assoc.
Qed.

Lemma splitComma_nonempty (s : string) : splitComma s <> [].
Proof.
  destruct s as [|c s]; cbn; [discriminate|].
  destruct (Ascii.eqb c ","); [discriminate|].
  destruct (splitComma s); discriminate.
Qed.

Lemma splitComma_no_comma (s : string) :
  hasChar "," s = false -> splitComma s = [s].
Proof.
  induction s as [|c s IH]; cbn; [reflexivity|].
  destruct (Ascii.eqb c ","); cbn; [discriminate|].
  intros H. now rewrite (IH H).
Qed.

Lemma splitComma_first (a b : string) :
  hasChar "," a = false -> splitComma (a ++ String "," b) = a :: splitComma b.
Proof.
  induction a as [|c a IH]; cbn; [reflexivity|].
  destruct (Ascii.eqb c ","); cbn; [discriminate|].
  intros H. now rewrite (IH H).
Qed.

Lemma splitComma_has_comma (s : string) :
  hasChar "," s = true -> (2 <= length (splitComma s))%nat.
Proof.
  induction s as [|c s IH]; cbn; [discriminate|].
  destruct (Ascii.eqb c ","); cbn.
  - intros _. pose proof (splitComma_nonempty s). destruct (splitComma s); cbn; [congruence | lia].
  - intros H. specialize (IH H). destruct (splitComma s); cbn in *; lia.
Qed.

Lemma beforeComma_split (url a : string) :
  beforeComma url = Some a ->
  exists b, url = a ++ String "," b /\ hasChar "," a = false.
Proof.
  revert a. induction url as [|c url IH]; cbn; [discriminate|]. intros a.
  destruct (Ascii.eqb_spec c ",") as [->|Hc].
  - intros [= <-]. exists url. split; reflexivity.
  - destruct (beforeComma url) as [a'|]; [|discriminate]. intros [= <-].
    destruct (IH a' eq_refl) as (b & -> & Hb). exists b. cbn.
    split; [reflexivity|]. rewrite Hb.
    destruct (Ascii.eqb_spec c ","); [contradiction | reflexivity].
Qed.

Lemma lazyUntilSemicolon_found (m rest : string) :
  hasChar ";" m = false -> hasChar "010" m = false -> hasChar "013" m = false ->
  lazyUntilSemicolon (m ++ String ";" rest) = Some m.
Proof.
  induction m as [|c m IH]; cbn; [reflexivity|].
  unfold isLineTerminator.
  destruct (Ascii.eqb c ";"), (Ascii.eqb c "010"), (Ascii.eqb c "013"); cbn; try discriminate.
  intros H1 H2 H3. now rewrite (IH H1 H2 H3).
Qed.

Lemma lazyUntilSemicolon_none (s : string) :
  hasChar ";" s = false -> lazyUntilSemicolon s = None.
Proof.
  induction s as [|c s IH]; cbn; [reflexivity|].
  destruct (Ascii.eqb c ";"); cbn; [discriminate|].
  intros H. rewrite (IH H). now destruct (isLineTerminator c).
Qed.

Lemma matchMime_none (s : string) : hasChar ";" s = false -> matchMime s = None.
Proof.
  induction s as [|c s IH]; cbn; [reflexivity|].
  destruct (Ascii.eqb c ";"); cbn; [discriminate|].
  intros H. rewrite (IH H), (lazyUntilSemicolon_none s H). now destruct (Ascii.eqb c ":").
Qed.

(** The two parsers read a data URL of the form [data:<mime>;base64,<data>]
    back into its MIME type and its data. *)
Lemma dataUrl_pieces (m d : string) :
  portableMime m -> hasChar "," d = false ->
  splitComma ("data:" ++ m ++ ";base64," ++ d) = ["data:" ++ m ++ ";base64"; d]
  /\ truthyOpt (matchMime ("data:" ++ m ++ ";base64")) = Some m.
Proof.
  intros (Hne & Hsemi & Hcomma & Hlf & Hcr) Hd. split.
  - replace ("data:" ++ m ++ ";base64," ++ d)
      with (("data:" ++ m ++ ";base64") ++ String "," d).
    + rewrite splitComma_first, (splitComma_no_comma d Hd); [reflexivity|].
      change ("data:" ++ m ++ ";base64") with ("data:" ++ (m ++ ";base64")).
      rewrite hasChar_app, hasChar_app, Hcomma. reflexivity.
    + change ("data:" ++ m ++ ";base64") with ("data:" ++ (m ++ ";base64")).
      rewrite !string_app_assoc. reflexivity.
  - change (matchMime ("data:" ++ m ++ ";base64"))
      with (match lazyUntilSemicolon (m ++ String ";" "base64") with
            | Some g => Some g
            | None => matchMime (m ++ String ";" "base64")
            end).
    rewrite (lazyUntilSemicolon_found m "base64" Hsemi Hlf Hcr).
    destruct m; [contradiction | reflexivity].
Qed.

Lemma get_lookup (s : string) :
  forall n, String.get n s = list_ascii_of_string s !! n.
Proof.
  induction s as [|c s IH]; intros [|n]; cbn; try reflexivity. apply IH.
Qed.

Lemma length_chars (s : string) : length (list_ascii_of_string s) = String.length s.
Proof. induction s as [|c s IH]; cbn; [reflexivity | now rewrite IH]. Qed.

Lemma length_charCodes (s : string) : length (charCodes s) = String.length s.
Proof. unfold charCodes. rewrite length_map. apply length_chars. Qed.

(** The loop of [dataURLtoFile] running down from [n] writes the character
    codes of the first [n] characters and leaves the rest of the array. *)
Lemma fillBytes_prefix (bstr : string) :
  forall n u,
    (n <= String.length bstr)%nat -> length u = String.length bstr ->
    fillBytes n bstr u = (take n (charCodes bstr) ++ drop n u)%list.
Proof.
  induction n as [|n IH]; intros u Hn Hu; [reflexivity|].
  cbn [fillBytes]. rewrite IH by (rewrite ?length_insert; lia).
  assert (Hc : exists c, list_ascii_of_string bstr !! n = Some c).
  { apply lookup_lt_is_Some_2. rewrite length_chars. lia. }
  destruct Hc as [c Hc]. rewrite get_lookup, Hc.
  rewrite (take_S_r (charCodes bstr) n (N_of_ascii c))
    by (unfold charCodes; now rewrite list_lookup_fmap, Hc).
  rewrite <- app_assoc. f_equal. cbn [app].
  rewrite (insert_take_drop u n) by lia.
  rewrite drop_app_length' by (rewrite length_take; lia). reflexivity.
Qed.

Lemma fillBytes_all (bstr : string) :
  fillBytes (String.length bstr) bstr (replicate (String.length bstr) 0%N) = charCodes bstr.
Proof.
  rewrite fillBytes_prefix by (rewrite ?length_replicate; lia).
  rewrite <- (length_charCodes bstr) at 1. rewrite firstn_all.
  rewrite drop_ge by (rewrite length_replicate; lia). apply app_nil_r.
Qed.

Lemma charCodes_bytes (s : string) : Forall (fun n => (n < 256)%N) (charCodes s).
Proof.
  unfold charCodes. apply Forall_fmap, Forall_forall. intros c _. cbn.
  apply N_ascii_bounded.
Qed.

Lemma hd_splitComma (s : string) : hd EmptyString (splitComma s) = firstPiece s.
Proof.
  unfold firstPiece. induction s as [|c s IH]; cbn; [reflexivity|].
  destruct (Ascii.eqb c ","); cbn; [reflexivity|].
  pose proof (splitComma_nonempty s) as Hne.
  destruct (splitComma s) as [|p ps]; [congruence|]. cbn in IH. subst p.
  now destruct (beforeComma s).
Qed.

Lemma lazyUntilSemicolon_clean (s g : string) :
  lazyUntilSemicolon s = Some g ->
  hasChar ";" g = false /\ hasChar "010" g = false /\ hasChar "013" g = false.
Proof.
  revert g. induction s as [|c s IH]; cbn; [discriminate|]. intros g.
  destruct (Ascii.eqb c ";") eqn:Hsemi; [intros [= <-]; repeat split|].
  unfold isLineTerminator.
  destruct (Ascii.eqb c "010") eqn:Hlf; [discriminate|].
  destruct (Ascii.eqb c "013") eqn:Hcr; [discriminate|]. cbn.
  destruct (lazyUntilSemicolon s) as [g'|]; [|discriminate]. intros [= <-].
  destruct (IH g' eq_refl) as (H1 & H2 & H3). cbn. now rewrite Hsemi, Hlf, Hcr, H1, H2, H3.
Qed.

Lemma matchMime_clean (s g : string) :
  matchMime s = Some g ->
  hasChar ";" g = false /\ hasChar "010" g = false /\ hasChar "013" g = false.
Proof.
  induction s as [|c s IH]; cbn; [discriminate|].
  destruct (Ascii.eqb c ":"); [|exact IH].
  destruct (lazyUntilSemicolon s) as [g'|] eqn:Hl; [|exact IH].
  intros [= <-]. now apply (lazyUntilSemicolon_clean s).
Qed.

(** *** The type that the [File] constructor keeps *)

Lemma toAsciiLowerCase_facts (c : ascii) :
  implb (isPrintable c) (isPrintable (toAsciiLowerCase c)) = true
  /\ toAsciiLowerCase (toAsciiLowerCase c) = toAsciiLowerCase c
  /\ Ascii.eqb (toAsciiLowerCase c) ";" = Ascii.eqb c ";"
  /\ isUpperCase (toAsciiLowerCase c) = false.
Proof.
  destruct c as [b0 b1 b2 b3 b4 b5 b6 b7].
  destruct b0, b1, b2, b3, b4, b5, b6, b7; repeat split; reflexivity.
Qed.

Lemma toAsciiLowerCase_kept (c : ascii) : isUpperCase c = false -> toAsciiLowerCase c = c.
Proof. unfold isUpperCase, toAsciiLowerCase. cbv zeta. now intros ->. Qed.

Lemma lowerCase_printable (m : string) :
  allPrintable m = true -> allPrintable (lowerCase m) = true.
Proof.
  induction m as [|c m IH]; cbn [allPrintable lowerCase]; [reflexivity|].
  intros H. apply andb_true_iff in H as [Hc Hm].
  destruct (toAsciiLowerCase_facts c) as (Hp & _). rewrite Hc in Hp. cbn in Hp.
  now rewrite Hp, IH.
Qed.

Lemma lowerCase_idempotent (m : string) : lowerCase (lowerCase m) = lowerCase m.
Proof.
  induction m as [|c m IH]; cbn [lowerCase]; [reflexivity|].
  destruct (toAsciiLowerCase_facts c) as (_ & Hi & _). now rewrite Hi, IH.
Qed.

Lemma lowerCase_noUpperCase (m : string) : noUpperCase (lowerCase m) = true.
Proof.
  induction m as [|c m IH]; cbn [lowerCase noUpperCase]; [reflexivity|].
  destruct (toAsciiLowerCase_facts c) as (_ & _ & _ & Hu). now rewrite Hu, IH.
Qed.

Lemma lowerCase_semicolon (m : string) : hasChar ";" (lowerCase m) = hasChar ";" m.
Proof.
  induction m as [|c m IH]; cbn [lowerCase hasChar]; [reflexivity|].
  destruct (toAsciiLowerCase_facts c) as (_ & _ & Hs & _). now rewrite Hs, IH.
Qed.

Lemma lowerCase_kept (m : string) : noUpperCase m = true -> lowerCase m = m.
Proof.
  induction m as [|c m IH]; cbn [lowerCase noUpperCase]; [reflexivity|].
  intros H. apply andb_true_iff in H as [Hc Hm]. apply negb_true_iff in Hc.
  now rewrite (toAsciiLowerCase_kept c Hc), IH.
Qed.

Lemma fileType_kept (m : string) : keptByFile m -> fileType m = m.
Proof. intros [Hp Hu]. unfold fileType. rewrite Hp. now apply lowerCase_kept. Qed.

Lemma fileType_normal (m : string) :
  keptByFile (fileType m)
  /\ (hasChar ";" m = false -> hasChar ";" (fileType m) = false).
Proof.
  unfold fileType, keptByFile. destruct (allPrintable m) eqn:Hp.
  - split; [split|].
    + now apply lowerCase_printable.
    + apply lowerCase_noUpperCase.
    + now rewrite lowerCase_semicolon.
  - repeat split.
Qed.

Section DataUrls.

Variable atob : string -> completion string.

(** X1: a data URL made by the service from a response image whose MIME
    type is portable and whose data has no comma is decoded by
    [dataURLtoFile] into a file of that name, whose bytes are the character
    codes of what [atob] gives for the data, and whose type is what the
    [File] constructor makes of the MIME type: the MIME type in lower case,
    or the empty string when it holds a character outside U+0020 to U+007E.
    The type is the MIME type itself when that is printable ASCII without
    upper-case letters.  The call fails only if [atob] does.  An absent
    MIME type or data is the word undefined. *)
Theorem dataURLtoFile_of_dataUrl (blob : Blob) (filename : string) :
  portableMime (interpolate (mimeType blob)) ->
  hasChar "," (interpolate (data blob)) = false ->
  dataURLtoFile atob (dataUrl blob) filename
  = (let! bstr := atob (interpolate (data blob)) in
     Normal {| name := filename;
               type := fileType (interpolate (mimeType blob));
               bytes := charCodes bstr |})
  /\ (keptByFile (interpolate (mimeType blob)) ->
      dataURLtoFile atob (dataUrl blob) filename
      = let! bstr := atob (interpolate (data blob)) in
        Normal {| name := filename;
                  type := interpolate (mimeType blob);
                  bytes := charCodes bstr |}).
Proof.
  intros Hm Hd.
  assert (H : dataURLtoFile atob (dataUrl blob) filename
              = let! bstr := atob (interpolate (data blob)) in
                Normal {| name := filename;
                          type := fileType (interpolate (mimeType blob));
                          bytes := charCodes bstr |}).
  { unfold dataURLtoFile, dataUrl.
    destruct (dataUrl_pieces _ _ Hm Hd) as [Hsplit Hmime].
    rewrite Hsplit. cbn [length Nat.ltb Nat.leb nth]. rewrite Hmime.
    destruct (atob _) as [bstr|err]; cbn [andThen]; [|reflexivity].
    unfold newFile. now rewrite fillBytes_all. }
  split; [exact H|]. intros Hkept. rewrite H. now rewrite (fileType_kept _ Hkept).
Qed.

(** X2: whenever [dataURLtoFile] returns a file, the file has the name
    asked for; its type is what the [File] constructor makes of the MIME
    text parsed before the first comma, which is not empty: printable ASCII
    without upper-case letters and without semicolon, possibly empty; and
    it has one byte per character of the string that [atob] returned for
    the text between the first and the second comma. *)
Theorem dataURLtoFile_sound (url filename : string) (f : File) :
  dataURLtoFile atob url filename = Normal f ->
  name f = filename
  /\ keptByFile (type f)
  /\ hasChar ";" (type f) = false
  /\ exists head rest mime bstr,
       url = head ++ String "," rest
       /\ hasChar "," head = false
       /\ matchMime head = Some mime
       /\ mime <> EmptyString
       /\ type f = fileType mime
       /\ atob (firstPiece rest) = Normal bstr
       /\ bytes f = charCodes bstr
       /\ length (bytes f) = String.length bstr
       /\ Forall (fun n => (n < 256)%N) (bytes f).
Proof.
  unfold dataURLtoFile. intros H.
  destruct (length (splitComma url) <? 2)%nat eqn:Hlen; [discriminate|].
  apply Nat.ltb_ge in Hlen.
  destruct (truthyOpt _) as [mime|] eqn:Hmime; [|discriminate].
  apply truthyOpt_Some in Hmime as [Hmime Hne].
  destruct (atob _) as [bstr|err] eqn:Hatob; cbn [andThen] in H; [|discriminate].
  injection H as <-. unfold newFile. cbn [name type bytes]. rewrite fillBytes_all.
  destruct (matchMime_clean _ _ Hmime) as (H1 & _).
  destruct (fileType_normal mime) as (Hkept & Hsemi).
  split; [reflexivity|]. split; [exact Hkept|]. split; [exact (Hsemi H1)|].
  destruct (beforeComma url) as [head|] eqn:Hb.
  - destruct (beforeComma_split url head Hb) as (rest & -> & Hhead).
    exists head, rest, mime, bstr.
    rewrite (splitComma_first head rest Hhead) in Hatob, Hmime.
    cbn [nth] in Hatob, Hmime.
    assert (Hnth : nth 0 (splitComma rest) EmptyString = hd EmptyString (splitComma rest))
      by now destruct (splitComma rest).
    rewrite Hnth, hd_splitComma in Hatob.
    repeat split; try assumption; [apply length_charCodes | apply charCodes_bytes].
  - exfalso. assert (Hno : hasChar "," url = false).
    { clear -Hb. induction url as [|c url IH]; cbn in *; [reflexivity|].
      destruct (Ascii.eqb c ","); [discriminate|].
      destruct (beforeComma url); [discriminate | now apply IH]. }
    rewrite (splitComma_no_comma url Hno) in Hlen. cbn in Hlen. lia.
Qed.

(** X3: [dataURLtoFile] refuses, without calling [atob], a string with no
    comma (Invalid data URL) and a string whose text before the first comma
    has no semicolon (no MIME type to parse), as the [data:,] of an empty
    canvas. *)
Theorem dataURLtoFile_rejects (url filename : string) :
  (hasChar "," url = false ->
   dataURLtoFile atob url filename = Throw (ErrorObject "Invalid data URL"))
  /\ (forall head,
         beforeComma url = Some head -> hasChar ";" head = false ->
         dataURLtoFile atob url filename
         = Throw (ErrorObject "Could not parse MIME type from data URL")).
Proof.
  unfold dataURLtoFile. split.
  - intros H. now rewrite (splitComma_no_comma url H).
  - intros head Hb Hsemi.
    destruct (beforeComma_split url head Hb) as (rest & -> & Hhead).
    rewrite (splitComma_first head rest Hhead).
    pose proof (splitComma_nonempty rest) as Hne.
    destruct (splitComma rest) as [|p ps] eqn:Hs; [congruence|].
    cbn [length Nat.ltb Nat.leb nth]. now rewrite (matchMime_none head Hsemi).
Qed.

End DataUrls.

(** X1 on the sample image; on an image without MIME type, which becomes
    a file of type undefined; on a MIME type in upper case, which the file
    has in lower case; and on a MIME type with a TAB, which leaves the file
    without type. *)
Lemma dataURLtoFile_of_dataUrl_witness :
  dataURLtoFile atobModel (dataUrl pngBlob) "edited-7.png" = Normal (pngFile "edited-7.png")
  /\ dataURLtoFile atobModel (dataUrl untypedBlob) "edited-7.png"
     = Normal {| name := "edited-7.png"; type := "undefined";
                 bytes := [137; 80; 78; 71; 13; 10; 26; 10]%N |}
  /\ dataURLtoFile atobModel (dataUrl shoutedBlob) "edited-7.png"
     = Normal (pngFile "edited-7.png")
  /\ dataURLtoFile atobModel (dataUrl tabbedBlob) "edited-7.png"
     = Normal {| name := "edited-7.png"; type := EmptyString;
                 bytes := [137; 80; 78; 71; 13; 10; 26; 10]%N |}.
Proof.
  split; [|split; [|split]].
  - refine (proj2 (dataURLtoFile_of_dataUrl atobModel pngBlob "edited-7.png" _ eq_refl) _).
    + repeat split. discriminate.
    + split; reflexivity.
  - refine (proj2 (dataURLtoFile_of_dataUrl atobModel untypedBlob "edited-7.png" _ eq_refl) _).
    + repeat split. discriminate.
    + split; reflexivity.
  - refine (proj1 (dataURLtoFile_of_dataUrl atobModel shoutedBlob "edited-7.png" _ eq_refl)).
    repeat split. discriminate.
  - refine (proj1 (dataURLtoFile_of_dataUrl atobModel tabbedBlob "edited-7.png" _ eq_refl)).
    repeat split. discriminate.
Defined.

(** X2 on a data URL in upper case: the file has the type in lower case. *)
Lemma dataURLtoFile_sound_witness :
  dataURLtoFile atobModel "data:IMAGE/PNG;base64,iVBORw0KGgo=" "a.png"
  = Normal (pngFile "a.png")
  /\ keptByFile (type (pngFile "a.png"))
  /\ hasChar ";" (type (pngFile "a.png")) = false
  /\ Forall (fun n => (n < 256)%N) (bytes (pngFile "a.png")).
Proof.
  destruct (dataURLtoFile_sound atobModel "data:IMAGE/PNG;base64,iVBORw0KGgo=" "a.png"
              (pngFile "a.png") eq_refl)
    as (_ & Hkept & Hsemi & head & rest & mime & bstr & _ & _ & _ & _ & _
        & _ & _ & _ & Hbytes).
  split; [reflexivity|]. split; [exact Hkept|]. split; [exact Hsemi | exact Hbytes].
Defined.

Lemma dataURLtoFile_rejects_witness :
  dataURLtoFile atobModel "iVBORw0KGgo=" "a.png" = Throw (ErrorObject "Invalid data URL")
  /\ dataURLtoFile atobModel "data:," "a.png"
     = Throw (ErrorObject "Could not parse MIME type from data URL").
Proof.
  split.
  - exact (proj1 (dataURLtoFile_rejects atobModel "iVBORw0KGgo=" "a.png") eq_refl).
  - exact (proj2 (dataURLtoFile_rejects atobModel "data:," "a.png") "data:" eq_refl eq_refl).
Defined.

(** X4: [fileToPart] reads the data URL of a file back into its MIME type
    and its base64 data: it undoes the service's own [data:...;base64,...]
    rendering of an image whose MIME type is portable and whose data has no
    comma. *)
Theorem fileToPart_of_dataUrl (m d : string) :
  portableMime m -> hasChar "," d = false ->
  fileToPart (Normal (dataUrl {| mimeType := Some m; data := Some d |}))
  = Normal {| inlineData := Some {| mimeType := Some m; data := Some d |};
              partText := None |}.
Proof.
  intros Hm Hd. unfold fileToPart, dataUrl. cbn [andThen interpolate mimeType data].
  destruct (dataUrl_pieces _ _ Hm Hd) as [Hsplit Hmime].
  rewrite Hsplit. cbn [length Nat.ltb Nat.leb nth]. now rewrite Hmime.
Qed.

Lemma fileToPart_of_dataUrl_witness :
  fileToPart (Normal "data:image/png;base64,iVBORw0KGgo=") = Normal imagePart.
Proof.
  refine (fileToPart_of_dataUrl "image/png" "iVBORw0KGgo=" _ eq_refl).
  repeat split. discriminate.
Defined.

(** ** The component as a transition system *)

(** The invariant reads ten fields of the state. *)
Lemma invariant_fields (st st' : State) :
  history st' = history st ->
  historyIndex st' = historyIndex st ->
  batchImages st' = batchImages st ->
  processedBatchImages st' = processedBatchImages st ->
  editHotspot st' = editHotspot st ->
  displayHotspot st' = displayHotspot st ->
  compareSliderPosition st' = compareSliderPosition st ->
  isLoading st' = isLoading st ->
  processingProgress st' = processingProgress st ->
  viewMode st' = viewMode st ->
  invariant st -> invariant st'.
Proof.
  unfold invariant, cursorValid, cursorInRange, batchAligned, hotspotsPaired, atRest,
    viewConsistent.
  intros -> -> -> -> -> -> -> -> -> ->. exact (fun H => H).
Qed.

Lemma invariant_initial : invariant initialState.
Proof.
  unfold invariant, cursorValid, batchAligned, hotspotsPaired, atRest, viewConsistent,
    inPercentRange.
  cbn. repeat split; try discriminate; auto.
Qed.

Lemma invariant_appended (st : State) (version : File) :
  invariant st -> invariant (append version st).
Proof.
  unfold invariant, cursorValid, cursorInRange, batchAligned, hotspotsPaired, atRest,
    viewConsistent.
  rewrite append_state.
  cbn [history historyIndex batchImages processedBatchImages editHotspot displayHotspot
         compareSliderPosition isLoading processingProgress viewMode
         with_isCompareModeActive with_completedCrop with_crop with_historyIndex
         with_history].
  intros (_ & Hb & Hh & Hs & Hr & _ & Hv).
  split; [right; rewrite length_app; cbn [length]; lia|].
  split; [exact Hb|]. split; [exact Hh|]. split; [exact Hs|]. split; [exact Hr|].
  split; [|exact Hv].
  intros _ Hnil. apply app_eq_nil in Hnil as [_ Hnil]. discriminate.
Qed.

Lemma trimStart_blank (s : string) : blank s -> trimStart s = EmptyString.
Proof.
  unfold blank. induction s as [|c s IH]; cbn; [reflexivity|].
  intros H. apply Forall_cons in H as [Hc Hs]. rewrite Hc. now apply IH.
Qed.

Lemma trimEnd_nonempty (c : ascii) (s : string) :
  isWhiteSpace c = false -> trimEnd (String c s) <> EmptyString.
Proof.
  intros Hc. cbn [trimEnd]. destruct (trimEnd s); [rewrite Hc|]; discriminate.
Qed.

Lemma trim_blank_iff (s : string) : truthy (trim s) = false <-> blank s.
Proof.
  unfold trim, blank. induction s as [|c s IH]; cbn [trimStart list_ascii_of_string].
  - split; [constructor | reflexivity].
  - destruct (isWhiteSpace c) eqn:Hc.
    + rewrite IH. split; [intros H; now constructor | intros H; now apply Forall_cons in H].
    + split.
      * intros H. pose proof (trimEnd_nonempty c s Hc) as Hne.
        destruct (trimEnd (String c s)); [congruence | discriminate].
      * intros H. apply Forall_cons in H as [H _]. congruence.
Qed.

Section Machine.

Variable atob : string -> completion string.

Ltac run_edit :=
  cbv beta iota zeta delta
    [fire editHandler handleGenerate handleApplyFilter handleApplyAdjustment
       handleEnhanceQuality handleExtendBackdrop handleReplaceBackdrop handleApplyCrop
       handleWhiskGenerate addImageToHistory append afterSuccess afterFailure
       mbind M_bind bind mret M_ret ret tryCatchFinally tryCatch lift throw modify
       setIsLoading setError setHistory setHistoryIndex setCrop setCompletedCrop
       setIsCompareModeActive setEditHotspot setDisplayHotspot setViewMode console_error
       failureText noImageText].

(** The three ways in which an edit handler ends: refused with a message,
    failed, or appended. *)
Lemma editHandler_shapes (op : EditOperation) (now : N)
    (answer : completion GenerateContentResponse) (st : State) :
  let st' := snd (fire (editHandler atob op now answer) st) in
  (exists msg, st' = with_error (Some msg) st)
  \/ (exists err, st' = afterFailure op err st)
  \/ (exists newImageFile, st' = afterSuccess op newImageFile st).
Proof.
  destruct op; run_edit; (destruct (currentImage st) as [image|]; [|left; eexists; reflexivity]).
  1: { destruct (negb (truthy (trim (prompt st)))); [left; eexists; reflexivity|].
       destruct (editHotspot st) as [hot|]; [|left; eexists; reflexivity].
       destruct (generateEditedImage _ _ _ _) as [url|e];
         [|right; left; eexists; reflexivity].
       destruct (dataURLtoFile _ _ _) as [f|e];
         [right; right | right; left]; eexists; reflexivity. }
  all: match goal with
       | |- context [match ?c with Normal _ => _ | Throw _ => _ end] =>
           destruct c as [url|e]; [|right; left; eexists; reflexivity]
       end.
  all: destruct (dataURLtoFile _ _ _) as [f|e];
    [right; right | right; left]; eexists; reflexivity.
Qed.

(** X5: an edit operation that cannot issue its request is refused with a
    message and changes nothing else, whatever the service would answer:
    without a current image for every operation, and for the localized edit
    also with a prompt of white space only, or, the prompt being there,
    without a hotspot. *)
Theorem edit_refused_before_request (op : EditOperation) (now : N)
    (answer : completion GenerateContentResponse) (st : State) :
  (currentImage st = None ->
   fire (editHandler atob op now answer) st
   = (Normal tt, with_error (Some (noImageText op)) st))
  /\ (op = LocalizedEdit -> is_Some (currentImage st) -> blank (prompt st) ->
      fire (editHandler atob op now answer) st
      = (Normal tt, with_error (Some "Please enter a description for your edit.") st))
  /\ (op = LocalizedEdit -> is_Some (currentImage st) -> ~ blank (prompt st) ->
      editHotspot st = None ->
      fire (editHandler atob op now answer) st
      = (Normal tt,
         with_error (Some "Please click on the image to select an area to edit.") st)).
Proof.
  split; [|split].
  - intros Hnone. destruct op; run_edit; rewrite Hnone; reflexivity.
  - intros -> [image Hi] Hblank. apply trim_blank_iff in Hblank.
    run_edit. now rewrite Hi, Hblank.
  - intros -> [image Hi] Hblank Hhot.
    assert (Ht : truthy (trim (prompt st)) = true).
    { destruct (truthy (trim (prompt st))) eqn:E; [reflexivity|].
      exfalso. apply Hblank, trim_blank_iff, E. }
    run_edit. now rewrite Hi, Ht, Hhot.
Qed.

End Machine.

(** X5 on an empty editor and on a prompt of spaces. *)
Lemma edit_refused_before_request_witness :
  fire (editHandler atobModel (Filter "sepia") 7 (Normal imageAfterText)) initialState
  = (Normal tt, with_error (Some "No image loaded to apply a filter to.") initialState)
  /\ fire (editHandler atobModel LocalizedEdit 7 (Normal imageAfterText))
       (with_prompt "   " clickedAndDragged)
     = (Normal tt,
        with_error (Some "Please enter a description for your edit.")
          (with_prompt "   " clickedAndDragged)).
Proof.
  split.
  - exact (proj1 (edit_refused_before_request atobModel (Filter "sepia") 7
                    (Normal imageAfterText) initialState) eq_refl).
  - refine (proj1 (proj2 (edit_refused_before_request atobModel LocalizedEdit 7
                            (Normal imageAfterText) (with_prompt "   " clickedAndDragged)))
              eq_refl _ _).
    + eexists; reflexivity.
    + repeat constructor.
Defined.

Ltac open_invariant :=
  unfold invariant, cursorValid, cursorInRange, batchAligned, hotspotsPaired, atRest,
    viewConsistent;
  cbn [history historyIndex prompt editHotspot displayHotspot activeTab crop completedCrop
         isCompareModeActive compareSliderPosition isDraggingComparer batchImages
         processedBatchImages processingProgress isBatchProcessingComplete viewMode
         isLoading error console
         with_history with_historyIndex with_prompt with_editHotspot with_displayHotspot
         with_activeTab with_crop with_completedCrop with_isCompareModeActive
         with_compareSliderPosition with_isDraggingComparer with_batchImages
         with_processedBatchImages with_processingProgress with_isBatchProcessingComplete
         with_viewMode with_isLoading with_error with_console].

Ltac paired := first [assumption | reflexivity | split; intros _; eexists; reflexivity].

Ltac run_all :=
  cbv beta iota zeta delta
    [fire handlerOf handleFileSelect handleImageUpload handleBatchUpload handleUploadNew
       handleApplyCrop handleWhiskGenerate handleImageClick handleToggleCompareMode
       handleComparerMouseDown handleComparerTouchStart handleComparerActionEnd
       handleComparerActionMove addImageToHistory
       mbind M_bind bind mret M_ret ret tryCatchFinally tryCatch lift throw modify
       setIsLoading setError setHistory setHistoryIndex setCrop setCompletedCrop
       setIsCompareModeActive setEditHotspot setDisplayHotspot setViewMode console_error
       setPrompt setActiveTab setBatchImages setProcessedBatchImages
       setIsBatchProcessingComplete setCompareSliderPosition setIsDraggingComparer snd].

Section Invariant.

Variable atob : string -> completion string.

Lemma invariant_afterFailure (op : EditOperation) (err : Thrown) (st : State) :
  invariant st -> invariant (afterFailure op err st).
Proof.
  unfold afterFailure. open_invariant. intros (Hc & Hb & Hh & Hs & [_ Hp] & Hv).
  split; [exact Hc|]. split; [exact Hb|]. split; [exact Hh|]. split; [exact Hs|].
  split; [split; [reflexivity | exact Hp] | exact Hv].
Qed.

Lemma invariant_afterSuccess (op : EditOperation) (f : File) (st : State) :
  invariant st -> invariant (afterSuccess op f st).
Proof.
  unfold afterSuccess. rewrite append_state.
  destruct op; open_invariant; intros (_ & Hb & Hh & Hs & [_ Hp] & _ & Hv).
  all: split; [right; rewrite length_app; cbn [length]; lia|].
  all: split; [exact Hb|]; split; [paired|]; split; [exact Hs|];
    split; [split; [reflexivity | exact Hp]|].
  all: split; [|exact Hv].
  all: intros _ Hnil; apply app_eq_nil in Hnil as [_ Hnil]; discriminate.
Qed.

Lemma invariant_edit (op : EditOperation) (now : N)
    (answer : completion GenerateContentResponse) (st : State) :
  invariant st -> invariant (snd (fire (editHandler atob op now answer) st)).
Proof.
  intros H.
  destruct (editHandler_shapes atob op now answer st) as [[msg ->]|[[err ->]|[f ->]]].
  - revert H. apply invariant_fields; reflexivity.
  - now apply invariant_afterFailure.
  - now apply invariant_afterSuccess.
Qed.

Lemma invariant_cursor_move (i : Z) (st : State) :
  invariant st ->
  (0 <= i <= Z.of_nat (length (history st)) - 1)%Z ->
  invariant (with_displayHotspot None (with_editHotspot None (with_historyIndex i st))).
Proof.
  open_invariant. intros (Hc & Hb & Hh & Hs & Hr & He & Hv) Hi.
  split; [right; exact Hi|]. split; [exact Hb|]. split; [reflexivity|].
  split; [exact Hs|]. split; [exact Hr|]. split; [exact He | exact Hv].
Qed.

Lemma invariant_cursor (st : State) :
  invariant st ->
  (history st = [] /\ historyIndex st = (-1)%Z) \/ cursorInRange st.
Proof. intros H. apply H. Qed.

Lemma invariant_navigation (st : State) :
  invariant st -> invariant (undo st) /\ invariant (redo st) /\ invariant (resetToOrigin st).
Proof.
  intros H. pose proof (invariant_cursor st H) as Hc. unfold cursorInRange in Hc.
  rewrite undo_state, redo_state, resetToOrigin_state. unfold canUndo, canRedo.
  split; [|split].
  - destruct (Z.ltb_spec 0 (historyIndex st)); [|exact H].
    apply invariant_cursor_move; [exact H | lia].
  - destruct (Z.ltb_spec (historyIndex st) (Z.of_nat (length (history st)) - 1)); [|exact H].
    apply invariant_cursor_move; [exact H|].
    destruct Hc as [[Hnil Hi]|Hc]; [rewrite Hnil in *; cbn [length] in *; lia | lia].
  - destruct (history st) as [|v0 vs] eqn:Hh; [exact H|].
    assert (H0 : invariant
                   (with_displayHotspot None (with_editHotspot None (with_historyIndex 0 st)))).
    { apply invariant_cursor_move; [exact H|]. rewrite Hh. cbn [length]. lia. }
    revert H0. apply invariant_fields; reflexivity.
Qed.

Lemma invariant_event (e : Event) (st : State) :
  admissible e -> invariant st -> invariant (snd (fire (handlerOf atob e) st)).
Proof.
  intros Hadm H. destruct e.
  - (* FileSelect *)
    destruct files as [[|file [|file' files]]|]; run_all; try exact H;
      revert H; open_invariant; intros (Hc & Hb & Hh & Hs & Hr & He & Hv).
    + split; [right; cbn [length]; lia|]. split; [exact Hb|]. split; [paired|]. split; [exact Hs|].
      split; [exact Hr|]. split; [discriminate | discriminate].
    + split; [exact Hc|]. split; [now rewrite length_replicate|]. split; [exact Hh|].
      split; [exact Hs|]. split; [exact Hr|]. split; [discriminate | intros _; cbn [length]; lia].
  - (* UploadNew *)
    run_all. revert H. open_invariant. intros (Hc & Hb & Hh & Hs & Hr & He & Hv).
    split; [left; split; reflexivity|]. split; [reflexivity|]. split; [paired|].
    split; [exact Hs|]. split; [exact Hr|]. split; discriminate.
  - (* Edit *)
    cbn [handlerOf]. now apply invariant_edit.
  - (* ApplyCrop *)
    run_all. destruct (completedCrop st), imgRefCurrent; try exact H;
      try (revert H; apply invariant_fields; reflexivity).
    destruct canvas as [url|]; [|revert H; apply invariant_fields; reflexivity].
    destruct (dataURLtoFile atob url _) as [f|err]; [|exact H].
    apply (invariant_appended st f) in H. rewrite append_state in H. exact H.
  - (* WhiskGenerate *)
    run_all. destruct (generateWhiskedImage _ _ _ _) as [url|err];
      [destruct (dataURLtoFile atob url _) as [f|err]|];
      revert H; open_invariant; intros (Hc & Hb & Hh & Hs & [Hl Hp] & He & Hv).
    + split; [right; cbn [length]; lia|]. split; [exact Hb|]. split; [exact Hh|]. split; [exact Hs|].
      split; [split; [reflexivity | exact Hp]|]. split; [discriminate | discriminate].
    + split; [exact Hc|]. split; [exact Hb|]. split; [exact Hh|]. split; [exact Hs|].
      split; [split; [reflexivity | exact Hp]|]. split; [exact He | exact Hv].
    + split; [exact Hc|]. split; [exact Hb|]. split; [exact Hh|]. split; [exact Hs|].
      split; [split; [reflexivity | exact Hp]|]. split; [exact He | exact Hv].
  - (* UndoClick *) exact (proj1 (invariant_navigation st H)).
  - (* RedoClick *) exact (proj1 (proj2 (invariant_navigation st H))).
  - (* ResetClick *) exact (proj2 (proj2 (invariant_navigation st H))).
  - (* ImageClick *)
    run_all. destruct (_ || _); [exact H|].
    revert H. open_invariant. intros (Hc & Hb & Hh & Hs & Hr & Hv).
    split; [exact Hc|]. split; [exact Hb|]. split; [paired|]. split; [exact Hs|].
    split; [exact Hr | exact Hv].
  - (* ToggleCompare *)
    run_all. destruct (isCompareModeActive st); cbn [negb];
      revert H; open_invariant; intros (Hc & Hb & Hh & Hs & Hr & Hv);
      (split; [exact Hc|]); (split; [exact Hb|]); (split; [exact Hh|]);
      (split; [first [exact Hs | split; reflexivity]|]); (split; [exact Hr | exact Hv]).
  - revert H. apply invariant_fields; reflexivity.
  - revert H. apply invariant_fields; reflexivity.
  - revert H. apply invariant_fields; reflexivity.
  - (* ComparerMove *)
    run_all. destruct (isDraggingComparer st); [|exact H].
    destruct imageContainerRef as [rect|]; [|exact H].
    destruct Hadm as [Hx Hrect].
    destruct (max_min_is_clamp _ (percentage_notNaN clientX rect Hx Hrect)) as [_ Hrange].
    revert H. open_invariant. intros (Hc & Hb & Hh & _ & Hr & Hv).
    split; [exact Hc|]. split; [exact Hb|]. split; [exact Hh|]. split; [exact Hrange|].
    split; [exact Hr | exact Hv].
  - revert H. apply invariant_fields; reflexivity.
  - revert H. apply invariant_fields; reflexivity.
  - revert H. apply invariant_fields; reflexivity.
  - revert H. apply invariant_fields; reflexivity.
  - revert H. apply invariant_fields; reflexivity.
  - (* SwitchToWhisk *)
    run_all. revert H. open_invariant. intros (Hc & Hb & Hh & Hs & Hr & He & Hv).
    split; [exact Hc|]. split; [exact Hb|]. split; [exact Hh|]. split; [exact Hs|].
    split; [exact Hr|]. split; discriminate.
  - (* BackToStart *)
    run_all. revert H. open_invariant. intros (Hc & Hb & Hh & Hs & Hr & He & Hv).
    split; [exact Hc|]. split; [exact Hb|]. split; [exact Hh|]. split; [exact Hs|].
    split; [exact Hr|]. split; discriminate.
Qed.

End Invariant.

Section InvariantBatch.

Variable atob : string -> completion string.

Lemma settle_keeps_fields (prompt : string) (generator : Generator) (type : string)
    (answers : nat -> completion GenerateContentResponse) (images : list File)
    (order : list nat) (slots : list (option (completion File))) (st : State) :
  let st' := snd (settle (batchTasks atob prompt generator type answers images) order slots st) in
  history st' = history st /\ historyIndex st' = historyIndex st
  /\ batchImages st' = batchImages st
  /\ editHotspot st' = editHotspot st /\ displayHotspot st' = displayHotspot st
  /\ compareSliderPosition st' = compareSliderPosition st
  /\ viewMode st' = viewMode st /\ error st' = error st
  /\ isCompareModeActive st' = isCompareModeActive st.
Proof.
  pose proof (settle_frame atob prompt generator type answers images order None [] slots st)
    as Hframe.
  cbv zeta.
  repeat split;
    match goal with
    | |- ?proj _ = _ => apply (f_equal proj) in Hframe; exact Hframe
    end.
Qed.

Lemma allSettled_length {A} (tasks : list (M A)) (order : list nat) (st : State)
    (results : list (completion A)) (st' : State) :
  allSettled tasks order st = Some (results, st') ->
  length results = length tasks
  /\ st' = snd (settle tasks order (replicate (length tasks) None) st).
Proof.
  unfold allSettled.
  pose proof (settle_length tasks order (replicate (length tasks) None) st) as Hlen.
  destruct (settle tasks order _ st) as [slots st2].
  destruct (mapM id slots) as [rs|] eqn:Hm; [|discriminate].
  intros [= <- <-]. split; [|reflexivity].
  apply length_mapM in Hm. cbn [fst] in Hlen. rewrite <- Hm, Hlen. apply length_replicate.
Qed.

Lemma handleBatchApply_shape (prompt : string) (generator : Generator) (type : string)
    (answers : nat -> completion GenerateContentResponse) (order : list nat)
    (st : State) (result : completion unit) (st' : State) :
  handleBatchApply atob st prompt generator type answers order st = Some (result, st') ->
  exists results e,
    length results = length (batchImages st)
    /\ st' = with_error e
               (with_processingProgress None
                  (with_isBatchProcessingComplete true
                     (with_isLoading false
                        (with_processedBatchImages (map slotOf results)
                           (snd (settle
                                   (batchTasks atob prompt generator type answers
                                      (batchImages st))
                                   order (replicate (length (batchImages st)) None)
                                   (with_processingProgress
                                      (Some {| processed := 0;
                                               total := length (batchImages st) |})
                                      (with_isBatchProcessingComplete false
                                         (with_error None (with_isLoading true st)))))))))).
Proof.
  cbv beta iota zeta delta
    [handleBatchApply mbind M_bind bind mret M_ret ret modify setProcessedBatchImages
       setIsLoading setIsBatchProcessingComplete setProcessingProgress setError snd].
  fold (batchTasks atob prompt generator type answers (batchImages st)).
  destruct (allSettled _ order _) as [[results st2]|] eqn:Hall; [|discriminate].
  apply allSettled_length in Hall as [Hlen Hst2].
  unfold batchTasks in Hlen at 1. rewrite length_imap in Hlen.
  unfold batchTasks in Hst2 at 2. rewrite length_imap in Hst2.
  intros Hrun. exists results.
  destruct (0 <? _)%nat; injection Hrun as _ <-; rewrite Hst2.
  - eexists. split; [exact Hlen | reflexivity].
  - match goal with
    | |- exists e, _ /\ ?s = _ => exists (error s)
    end.
    split; [exact Hlen | reflexivity].
Qed.

Lemma invariant_batch (prompt : string) (generator : Generator) (type : string)
    (answers : nat -> completion GenerateContentResponse) (order : list nat)
    (st : State) (result : completion unit) (st' : State) :
  handleBatchApply atob st prompt generator type answers order st = Some (result, st') ->
  invariant st -> invariant st'.
Proof.
  intros Hrun.
  destruct (handleBatchApply_shape _ _ _ _ _ _ _ _ Hrun) as (results & e & Hlen & ->).
  match goal with
  | |- context [snd (settle ?t order ?sl ?s)] =>
      pose proof (settle_keeps_fields prompt generator type answers (batchImages st)
                    order sl s) as Hf
  end.
  cbv zeta in Hf. destruct Hf as (H1 & H2 & H3 & H4 & H5 & H6 & H7 & _).
  cbn [with_isLoading with_error with_isBatchProcessingComplete with_processingProgress
         history historyIndex batchImages editHotspot displayHotspot compareSliderPosition
         viewMode] in H1, H2, H3, H4, H5, H6, H7.
  unfold invariant, cursorValid, cursorInRange, batchAligned, hotspotsPaired, atRest,
    viewConsistent.
  cbn [history historyIndex batchImages processedBatchImages editHotspot displayHotspot
         compareSliderPosition isLoading processingProgress viewMode
         with_error with_processingProgress with_isBatchProcessingComplete with_isLoading
         with_processedBatchImages].
  rewrite H1, H2, H3, H4, H5, H6, H7, length_map, Hlen.
  intros (Hc & Hb & Hh & Hs & Hr & He & Hv).
  split; [exact Hc|]. split; [reflexivity|]. split; [exact Hh|]. split; [exact Hs|].
  split; [split; reflexivity|]. split; [exact He | exact Hv].
Qed.

(** Every reachable state satisfies the invariant. *)
Lemma reachable_invariant (st : State) : reachable atob st -> invariant st.
Proof.
  induction 1 as [|st st' _ IH Hstep]; [apply invariant_initial|].
  destruct Hstep as [e st Hadm | prompt generator type answers order st result st' Hrun].
  - now apply invariant_event.
  - now apply (invariant_batch prompt generator type answers order st result st').
Qed.

End InvariantBatch.

Section Reachable.

Variable atob : string -> completion string.

Lemma reachable_runEvents (events : list Event) :
  Forall admissible events ->
  forall st, reachable atob st -> reachable atob (runEvents atob events st).
Proof.
  induction 1 as [|e events He _ IH]; intros st Hst; [exact Hst|].
  apply (IH (snd (fire (handlerOf atob e) st))).
  apply (reachable_next atob st); [exact Hst | now apply event_step].
Qed.






(** X10: at every reachable state the compare slider position lies between
    0 and 100 inclusive, the platform reporting finite pointer coordinates
    and laid-out containers. *)
Theorem slider_always_in_range (st : State) :
  reachable atob st ->
  leb (ofZ 0) (compareSliderPosition st) = true
  /\ leb (compareSliderPosition st) (ofZ 100) = true.
Proof. intros H. apply (reachable_invariant atob st H). Qed.


End Reachable.

Lemma sampleSession_admissible : Forall admissible sampleSession.
Proof. repeat constructor. Qed.

Lemma sampleSession_reachable :
  reachable atobModel (runEvents atobModel sampleSession initialState).
Proof.
  apply reachable_runEvents; [exact sampleSession_admissible | apply reachable_initial].
Qed.






Lemma slider_always_in_range_witness :
  leb (ofZ 0) (ofZ 25) = true /\ leb (ofZ 25) (ofZ 100) = true.
Proof. exact (slider_always_in_range atobModel _ sampleSession_reachable). Defined.


(** ** Navigation round trips *)

Lemma currentImage_append (st : State) (version : File) :
  currentImage (append version st) = Some version.
Proof.
  rewrite append_state. unfold currentImage.
  cbn [history historyIndex with_isCompareModeActive with_completedCrop with_crop
         with_historyIndex with_history].
  unfold at_index. rewrite length_app. cbn [length].
  destruct (Z.ltb_spec (Z.of_nat (length (slice0 (history st) (historyIndex st + 1)) + 1) - 1) 0);
    [lia|].
  rewrite lookup_app_r by lia.
  replace (Z.to_nat _ - _)%nat with 0%nat by lia. reflexivity.
Qed.

(** X12: on a history whose cursor is a valid index, redo undoes undo and
    undo undoes redo wherever they move the cursor; and after an append the
    new version is current, one undo brings back the version that was
    current before, and one redo the new version again. *)
Theorem undo_redo_round_trip (st : State) :
  cursorInRange st ->
  ((0 < historyIndex st)%Z ->
   historyIndex (redo (undo st)) = historyIndex st
   /\ currentImage (redo (undo st)) = currentImage st)
  /\ ((historyIndex st < Z.of_nat (length (history st)) - 1)%Z ->
      historyIndex (undo (redo st)) = historyIndex st
      /\ currentImage (undo (redo st)) = currentImage st)
  /\ (forall version,
         currentImage (append version st) = Some version
         /\ currentImage (undo (append version st)) = currentImage st
         /\ currentImage (redo (undo (append version st))) = Some version).
Proof.
  unfold cursorInRange. intros Hc.
  assert (Hur : forall s, (0 < historyIndex s <= Z.of_nat (length (history s)) - 1)%Z ->
                          historyIndex (redo (undo s)) = historyIndex s
                          /\ history (redo (undo s)) = history s).
  { intros s Hs. rewrite redo_state, undo_state. unfold canUndo, canRedo.
    destruct (Z.ltb_spec 0 (historyIndex s)); [|lia].
    cbn [history historyIndex with_displayHotspot with_editHotspot with_historyIndex].
    destruct (Z.ltb_spec (historyIndex s - 1) (Z.of_nat (length (history s)) - 1)); [|lia].
    cbn [history historyIndex with_displayHotspot with_editHotspot with_historyIndex].
    split; [lia | reflexivity]. }
  split; [|split].
  - intros Hpos. destruct (Hur st ltac:(lia)) as [Hi Hh].
    split; [exact Hi|]. unfold currentImage. now rewrite Hi, Hh.
  - intros Hlt. rewrite undo_state, redo_state. unfold canUndo, canRedo.
    destruct (Z.ltb_spec (historyIndex st) (Z.of_nat (length (history st)) - 1)); [|lia].
    cbn [history historyIndex with_displayHotspot with_editHotspot with_historyIndex].
    destruct (Z.ltb_spec 0 (historyIndex st + 1)); [|lia].
    unfold currentImage.
    cbn [history historyIndex with_displayHotspot with_editHotspot with_historyIndex].
    replace (historyIndex st + 1 - 1)%Z with (historyIndex st) by lia. split; reflexivity.
  - intros version.
    assert (Hi : exists i, historyIndex st = Z.of_nat i /\ (i < length (history st))%nat).
    { exists (Z.to_nat (historyIndex st)). lia. }
    destruct Hi as (i & Hi & Hlt).
    assert (Hh : history (append version st) = (take (S i) (history st) ++ [version])%list).
    { rewrite append_state.
      cbn [history with_isCompareModeActive with_completedCrop with_crop
             with_historyIndex with_history].
      now rewrite Hi, slice0_take. }
    assert (Hidx : historyIndex (append version st) = Z.of_nat (S i)).
    { rewrite append_state.
      cbn [historyIndex with_isCompareModeActive with_completedCrop with_crop
             with_historyIndex with_history].
      rewrite Hi, slice0_take by exact Hlt. rewrite length_app, length_take. cbn [length]. lia. }
    assert (Hlen : length (history (append version st)) = S (S i)).
    { rewrite Hh, length_app, length_take. cbn [length]. lia. }
    split; [apply currentImage_append|].
    assert (Hundo : currentImage (undo (append version st)) = currentImage st).
    { rewrite undo_state. unfold canUndo. rewrite Hidx.
      destruct (Z.ltb_spec 0 (Z.of_nat (S i))); [|lia].
      unfold currentImage.
      cbn [history historyIndex with_displayHotspot with_editHotspot with_historyIndex].
      rewrite ?Hidx, Hh, Hi. replace (Z.of_nat (S i) - 1)%Z with (Z.of_nat i) by lia.
      unfold at_index. destruct (Z.ltb_spec (Z.of_nat i) 0); [lia|].
      rewrite Nat2Z.id, lookup_app_l by (rewrite length_take; lia).
      apply lookup_take_lt. lia. }
    split; [exact Hundo|].
    destruct (Hur (append version st) ltac:(lia)) as [Hi' Hh'].
    unfold currentImage at 1. rewrite Hi', Hh'. apply currentImage_append.
Qed.

Lemma undo_redo_round_trip_witness :
  currentImage (redo (undo threeVersions)) = Some (sampleFile "v1")
  /\ currentImage (undo (append (sampleFile "new") threeVersions)) = Some (sampleFile "v1").
Proof.
  assert (Hc : cursorInRange threeVersions) by (unfold cursorInRange; simpl; lia).
  pose proof (undo_redo_round_trip threeVersions Hc) as (H1 & _ & H3).
  split.
  - exact (proj2 (H1 ltac:(reflexivity))).
  - exact (proj1 (proj2 (H3 (sampleFile "new")))).
Defined.

(** ** The original image *)

Lemma originalImage_append (st : State) (version : File) :
  cursorInRange st -> originalImage (append version st) = originalImage st.
Proof.
  unfold cursorInRange. intros Hc. rewrite append_state. unfold originalImage, at_index.
  cbn [history with_isCompareModeActive with_completedCrop with_crop with_historyIndex
         with_history Z.ltb Z.compare Z.to_nat].
  assert (Hi : exists i, historyIndex st = Z.of_nat i /\ (i < length (history st))%nat).
  { exists (Z.to_nat (historyIndex st)). lia. }
  destruct Hi as (i & -> & Hlt). rewrite slice0_take by exact Hlt.
  rewrite lookup_app_l by (rewrite length_take; lia). apply lookup_take_lt. lia.
Qed.

Lemma originalImage_sliced (render : State) (version : File) :
  cursorInRange render ->
  at_index (slice0 (history render) (historyIndex render + 1) ++ [version])%list 0
  = originalImage render.
Proof.
  unfold cursorInRange. intros Hc. unfold originalImage, at_index.
  cbn [Z.ltb Z.compare Z.to_nat].
  assert (Hi : exists i, historyIndex render = Z.of_nat i /\ (i < length (history render))%nat).
  { exists (Z.to_nat (historyIndex render)). lia. }
  destruct Hi as (i & -> & Hlt). rewrite slice0_take by exact Hlt.
  rewrite lookup_app_l by (rewrite length_take; lia). apply lookup_take_lt. lia.
Qed.

Ltac run_closure :=
  cbv beta iota zeta delta
    [handlerOf editHandler handleGenerate handleApplyFilter handleApplyAdjustment
       handleEnhanceQuality handleExtendBackdrop handleReplaceBackdrop handleApplyCrop
       handleUndo handleRedo handleReset handleImageClick handleToggleCompareMode
       handleComparerMouseDown handleComparerTouchStart handleComparerActionEnd
       handleComparerActionMove addImageToHistory
       mbind M_bind bind mret M_ret ret tryCatchFinally tryCatch lift throw modify
       setIsLoading setError setHistory setHistoryIndex setCrop setCompletedCrop
       setIsCompareModeActive setEditHotspot setDisplayHotspot setViewMode console_error
       setPrompt setActiveTab setCompareSliderPosition setIsDraggingComparer snd].

Section Original.

Variable atob : string -> completion string.

(** A handler that starts no lineage leaves the history as it is, or
    replaces it by the history of the render it was made at, cut after
    that render's cursor, with one new version at the end. *)
Lemma closure_history (e : Event) (render st : State) :
  startsLineage e = false ->
  history (snd (handlerOf atob e render st)) = history st
  \/ exists version,
       history (snd (handlerOf atob e render st))
       = (slice0 (history render) (historyIndex render + 1) ++ [version])%list.
Proof.
  intros He. destruct e; try discriminate He; try (left; reflexivity).
  - destruct op; run_closure;
      (destruct (currentImage render) as [image|]; [|left; reflexivity]).
    1: { destruct (negb (truthy (trim (prompt render)))); [left; reflexivity|].
         destruct (editHotspot render) as [hot|]; [|left; reflexivity].
         destruct (generateEditedImage _ _ _ _) as [url|err]; [|left; reflexivity].
         destruct (dataURLtoFile _ _ _) as [f|err];
           [right; eexists; reflexivity | left; reflexivity]. }
    all: match goal with
         | |- context [match ?c with Normal _ => _ | Throw _ => _ end] =>
             destruct c as [url|err]; [|left; reflexivity]
         end.
    all: destruct (dataURLtoFile _ _ _) as [f|err];
      [right; eexists; reflexivity | left; reflexivity].
  - run_closure. destruct (completedCrop render), imgRefCurrent; try (left; reflexivity).
    destruct canvas as [url|]; [|left; reflexivity].
    destruct (dataURLtoFile atob url _) as [f|err];
      [right; eexists; reflexivity | left; reflexivity].
  - run_closure. destruct (canUndo render); left; reflexivity.
  - run_closure. destruct (canRedo render); left; reflexivity.
  - run_closure. destruct (history render); left; reflexivity.
  - run_closure. destruct (_ || _); left; reflexivity.
  - run_closure. destruct (isCompareModeActive st); left; reflexivity.
  - run_closure. destruct (isDraggingComparer render); [|left; reflexivity].
    destruct imageContainerRef; left; reflexivity.
Qed.

(** X13: a handler other than a file selection, Upload New and a whisk
    writes the history from the render it was made at.  Made at a render
    with a valid cursor and run on any later state, it leaves the history
    of that state as it is, or replaces it by the versions of its render up
    to the render's cursor followed by one new version; so the original
    image afterwards is that of the state it ran on or that of its render.
    Run on the state of its own render, it leaves the original image as it
    is. *)
Theorem original_survives (e : Event) (render st : State) :
  cursorInRange render ->
  startsLineage e = false ->
  (history (snd (handlerOf atob e render st)) = history st
   \/ exists version,
        history (snd (handlerOf atob e render st))
        = (slice0 (history render) (historyIndex render + 1) ++ [version])%list)
  /\ (originalImage (snd (handlerOf atob e render st)) = originalImage st
      \/ originalImage (snd (handlerOf atob e render st)) = originalImage render)
  /\ originalImage (snd (fire (handlerOf atob e) render)) = originalImage render.
Proof.
  intros Hc He.
  assert (Hany : forall st',
             originalImage (snd (handlerOf atob e render st')) = originalImage st'
             \/ originalImage (snd (handlerOf atob e render st')) = originalImage render).
  { intros st'. destruct (closure_history e render st' He) as [H | (version & H)].
    - left. unfold originalImage. now rewrite H.
    - right. unfold originalImage at 1. rewrite H. now apply originalImage_sliced. }
  split; [exact (closure_history e render st He)|]. split; [exact (Hany st)|].
  unfold fire. now destruct (Hany render).
Qed.

End Original.

(** X13 on a filter that succeeds: fired on the state of its render it
    keeps the original image; made on the lineage of [v0] and settling
    after Upload New and the upload of [w0], it puts [v0] back as the
    original image. *)
Lemma original_survives_witness :
  originalImage
    (snd (fire (handlerOf atobModel (Edit (Filter "sepia") 9 (Normal imageAfterText)))
            (runEvents atobModel sampleSession initialState)))
  = originalImage (runEvents atobModel sampleSession initialState)
  /\ originalImage newLineage = Some (sampleFile "w0")
  /\ originalImage
       (snd (handlerOf atobModel (Edit (Filter "sepia") 9 (Normal imageAfterText))
               oldLineage newLineage))
     = Some (sampleFile "v0")
  /\ history
       (snd (handlerOf atobModel (Edit (Filter "sepia") 9 (Normal imageAfterText))
               oldLineage newLineage))
     = [sampleFile "v0"; pngFile "filtered-9.png"].
Proof.
  split; [|split; [reflexivity|split]].
  - refine (proj2 (proj2 (original_survives atobModel
                            (Edit (Filter "sepia") 9 (Normal imageAfterText))
                            (runEvents atobModel sampleSession initialState)
                            (runEvents atobModel sampleSession initialState) _ eq_refl))).
    vm_compute. split; intros H; discriminate H.
  - destruct (proj1 (proj2 (original_survives atobModel
                              (Edit (Filter "sepia") 9 (Normal imageAfterText))
                              oldLineage newLineage
                              ltac:(vm_compute; split; intros H; discriminate H) eq_refl)))
      as [H | H].
    + exfalso. vm_compute in H. discriminate H.
    + rewrite H. reflexivity.
  - destruct (proj1 (original_survives atobModel
                       (Edit (Filter "sepia") 9 (Normal imageAfterText))
                       oldLineage newLineage
                       ltac:(vm_compute; split; intros H; discriminate H) eq_refl))
      as [H | (version & H)].
    + exfalso. vm_compute in H. discriminate H.
    + vm_compute. reflexivity.
Defined.

(** ** Response classification, the converse *)

Lemma blockCheck_None_inv (response : GenerateContentResponse) :
  match promptFeedback response with
  | Some pf => option_map (fun r => (r, blockReasonMessage pf)) (truthyOpt (blockReason pf))
  | None => None
  end = None ->
  noBlockReason response.
Proof.
  intros H reason message (pf & Hpf & Hr & Hne & _). rewrite Hpf in H.
  assert (Ht : truthyOpt (blockReason pf) = Some reason) by (apply truthyOpt_Some; auto).
  rewrite Ht in H. discriminate.
Qed.

Lemma find_inline_split (ps : list Part) (part : Part) :
  List.find (fun p => bool_decide (is_Some (inlineData p))) ps = Some part ->
  exists before after,
    ps = (before ++ part :: after)%list
    /\ Forall (fun p => inlineData p = None) before
    /\ is_Some (inlineData part).
Proof.
  induction ps as [|p ps IH]; cbn [List.find]; [discriminate|].
  destruct (bool_decide (is_Some (inlineData p))) eqn:Hp.
  - intros [= <-]. exists [], ps. split; [reflexivity|]. split; [constructor|].
    now apply bool_decide_eq_true in Hp.
  - intros H. destruct (IH H) as (before & after & -> & Hb & Hs).
    exists (p :: before), after. split; [reflexivity|]. split; [|exact Hs].
    constructor; [|exact Hb]. apply bool_decide_eq_false in Hp.
    destruct (inlineData p); [exfalso; apply Hp; eauto | reflexivity].
Qed.

(** X14: [handleApiResponse] returns a data URL exactly when the response
    carries no prompt-block reason and its first candidate has a part with
    inline data, and the URL is then that of the first such part: the
    context, the finish reason and the text play no role.  What it throws
    is always an [Error]. *)
Theorem handleApiResponse_success_iff (response : GenerateContentResponse)
    (context url : string) :
  (handleApiResponse response context = Normal url
   <-> noBlockReason response
       /\ exists part blob, firstImagePart response part blob /\ url = dataUrl blob)
  /\ (forall t, handleApiResponse response context = Throw t ->
                exists message, t = ErrorObject message).
Proof.
  unfold handleApiResponse. split; [split|].
  - destruct (match promptFeedback response with Some _ => _ | None => None end)
      as [[reason message]|] eqn:Hb; [discriminate|].
    rewrite imagePart_contentParts.
    destruct (List.find _ (contentParts response)) as [part|] eqn:Hf.
    + destruct (find_inline_split _ _ Hf) as (before & after & Hparts & Hbefore & [blob Hblob]).
      rewrite Hblob. intros [= <-]. split; [now apply blockCheck_None_inv|].
      exists part, blob. split; [|reflexivity]. exists before, after. auto.
    + destruct (truthyOpt _) as [r|]; [destruct (negb _)|]; discriminate.
  - intros (Hnb & part & blob & (before & after & Hparts & Hbefore & Hblob) & ->).
    rewrite (blockCheck_None _ Hnb), imagePart_contentParts, Hparts.
    now rewrite (find_first_inline _ _ _ _ Hbefore Hblob), Hblob.
  - intros t.
    destruct (match promptFeedback response with Some _ => _ | None => None end)
      as [[reason message]|]; [intros [= <-]; eauto|].
    destruct (match imagePartFromResponse response with Some _ => _ | None => None end);
      [discriminate|].
    destruct (truthyOpt _) as [r|]; [destruct (negb _)|]; intros [= <-]; eauto.
Qed.

Lemma handleApiResponse_success_iff_witness :
  noBlockReason imageAfterText
  /\ exists part blob, firstImagePart imageAfterText part blob
                       /\ "data:image/png;base64,iVBORw0KGgo=" = dataUrl blob.
Proof.
  exact (proj1 (proj1 (handleApiResponse_success_iff imageAfterText "edit"
                         "data:image/png;base64,iVBORw0KGgo=")) eq_refl).
Defined.

(** ** Crop and whisk *)

Section CropWhisk.

Variable atob : string -> completion string.

(** X15: the crop handler has no catch: when the canvas gives a string that
    [dataURLtoFile] refuses -- as the [data:,] of a canvas without area --
    the thrown value escapes the handler, and the state, error message
    included, is as it was. *)
Theorem crop_failure_escapes (now : N) (st : State) (url : string) :
  is_Some (completedCrop st) ->
  (forall err,
      dataURLtoFile atob url ("cropped-" ++ showN now ++ ".png") = Throw err ->
      fire (fun render => handleApplyCrop atob render now true (Some url)) st
      = (Throw err, st))
  /\ (forall head,
         beforeComma url = Some head -> hasChar ";" head = false ->
         fire (fun render => handleApplyCrop atob render now true (Some url)) st
         = (Throw (ErrorObject "Could not parse MIME type from data URL"), st)).
Proof.
  intros [c Hc].
  assert (H : forall err,
             dataURLtoFile atob url ("cropped-" ++ showN now ++ ".png") = Throw err ->
             fire (fun render => handleApplyCrop atob render now true (Some url)) st
             = (Throw err, st)).
  { intros err Herr. run_all. now rewrite Hc, Herr. }
  split; [exact H|].
  intros head Hb Hsemi. apply H.
  exact (proj2 (dataURLtoFile_rejects atob url _) head Hb Hsemi).
Qed.

(** X16: a whisk that succeeds starts a new lineage of one version, shown
    in the editor with nothing to undo or redo; a whisk that fails leaves
    the history, the cursor and the view as they were and sets the one
    error message.  In both cases the handler returns normally with the
    loading indicator off. *)
Theorem whisk_outcome (now : N) (answer : completion GenerateContentResponse)
    (subject scene style : File) (st : State) :
  let result := fire (fun _ => handleWhiskGenerate atob now answer subject scene style) st in
  fst result = Normal tt
  /\ isLoading (snd result) = false
  /\ (forall url f,
         generateWhiskedImage answer subject scene style = Normal url ->
         dataURLtoFile atob url ("whisked-" ++ showN now ++ ".png") = Normal f ->
         history (snd result) = [f]
         /\ currentImage (snd result) = Some f
         /\ canUndo (snd result) = false /\ canRedo (snd result) = false
         /\ viewMode (snd result) = editor
         /\ error (snd result) = None)
  /\ (forall err,
         generateWhiskedImage answer subject scene style = Throw err ->
         history (snd result) = history st
         /\ historyIndex (snd result) = historyIndex st
         /\ viewMode (snd result) = viewMode st
         /\ error (snd result) = Some ("Failed to whisk images. " ++ errorMessageOf err)).
Proof.
  cbv zeta. run_all.
  destruct (generateWhiskedImage answer subject scene style) as [url|err].
  - destruct (dataURLtoFile atob url _) as [f|err] eqn:Hf.
    + split; [reflexivity|]. split; [reflexivity|]. split; [|discriminate].
      intros url' f' [= <-] Hf'. rewrite Hf in Hf'. injection Hf' as <-. repeat split.
    + split; [reflexivity|]. split; [reflexivity|]. split; [|discriminate].
      intros url' f' [= <-] Hf'. rewrite Hf in Hf'. discriminate.
  - split; [reflexivity|]. split; [reflexivity|]. split; [discriminate|].
    intros err' [= <-]. repeat split.
Qed.

End CropWhisk.

Lemma crop_failure_escapes_witness :
  fire (fun render => handleApplyCrop atobModel render 7 true (Some "data:,"))
    (with_completedCrop (Some {| cropX := ofZ 0; cropY := ofZ 0;
                                 cropWidth := ofZ 0; cropHeight := ofZ 0 |})
       clickedAndDragged)
  = (Throw (ErrorObject "Could not parse MIME type from data URL"),
     with_completedCrop (Some {| cropX := ofZ 0; cropY := ofZ 0;
                                 cropWidth := ofZ 0; cropHeight := ofZ 0 |})
       clickedAndDragged).
Proof.
  refine (proj2 (crop_failure_escapes atobModel 7 _ "data:," _) "data:" eq_refl eq_refl).
  eexists; reflexivity.
Defined.

Lemma whisk_outcome_witness :
  history (snd (fire (fun _ => handleWhiskGenerate atobModel 7 (Normal imageAfterText)
                                 (sampleFile "a") (sampleFile "b") (sampleFile "c"))
                  threeVersions))
  = [pngFile "whisked-7.png"]
  /\ error (snd (fire (fun _ => handleWhiskGenerate atobModel 7 (Normal stoppedForSafety)
                                  (sampleFile "a") (sampleFile "b") (sampleFile "c"))
                   threeVersions))
     = Some "Failed to whisk images. Image generation for whisk stopped unexpectedly. Reason: SAFETY. This often relates to safety settings.".
Proof.
  split.
  - pose proof (whisk_outcome atobModel 7 (Normal imageAfterText)
                  (sampleFile "a") (sampleFile "b") (sampleFile "c") threeVersions)
      as (_ & _ & H & _).
    exact (proj1 (H _ _ eq_refl eq_refl)).
  - pose proof (whisk_outcome atobModel 7 (Normal stoppedForSafety)
                  (sampleFile "a") (sampleFile "b") (sampleFile "c") threeVersions)
      as (_ & _ & _ & H).
    exact (proj2 (proj2 (proj2 (H _ eq_refl)))).
Defined.

(** ** The batch run, while it lasts *)

Section Progress.

Variable atob : string -> completion string.
Variable prompt : string.
Variable generator : Generator.
Variable type : string.
Variable answers : nat -> completion GenerateContentResponse.
Variable images : list File.

Local Abbreviation tasks := (batchTasks atob prompt generator type answers images).

Lemma afterInvocation_progress (index : nat) (image : File) (st : State) :
  processingProgress (afterInvocation atob prompt generator type answers index image st)
  = option_map (fun prev => {| processed := processed prev + 1; total := total prev |})
      (processingProgress st).
Proof.
  unfold afterInvocation.
  now destruct (invocationOutcome atob prompt generator type answers index image).
Qed.

Lemma settle_progress (order : list nat) :
  NoDup order ->
  forall slots st,
    (forall i, i ∈ order -> slots !! i = Some None /\ (i < length images)%nat) ->
    processingProgress (snd (settle tasks order slots st))
    = option_map (fun prev => {| processed := processed prev + length order;
                                 total := total prev |})
        (processingProgress st).
Proof.
  induction 1 as [|h order Hh Hnd IH]; intros slots st Hpend.
  - cbn. destruct (processingProgress st) as [[p t]|]; cbn; [|reflexivity].
    now rewrite Nat.add_0_r.
  - rewrite settle_cons.
    destruct (Hpend h ltac:(left)) as [Hs Hlt].
    destruct (lookup_lt_is_Some_2 images h Hlt) as [image Hi].
    assert (Ht : tasks !! h
                 = Some (batchInvocation atob prompt generator type (answers h) h image)).
    { unfold batchTasks. now rewrite list_lookup_imap, Hi. }
    rewrite Ht, Hs, batchInvocation_run. cbn [fst snd].
    rewrite IH.
    + rewrite afterInvocation_progress.
      destruct (processingProgress st) as [[p t]|]; cbn; [|reflexivity].
      do 2 f_equal. lia.
    + intros i Hin. destruct (Hpend i ltac:(now right)) as [Hsi Hlti].
      split; [|exact Hlti]. rewrite list_lookup_insert_ne; [exact Hsi|].
      intros ->. contradiction.
Qed.

End Progress.

Section ProgressRun.

Variable atob : string -> completion string.

(** X17: during a batch run over N images, once any k distinct
    invocations have settled -- in any order, fulfilled or rejected -- the
    progress counter shows k processed of N, and the run is still loading. *)
Theorem batch_progress_counts (prompt : string) (generator : Generator) (type : string)
    (answers : nat -> completion GenerateContentResponse) (order : list nat) (st : State) :
  NoDup order ->
  (forall i, i ∈ order -> (i < length (batchImages st))%nat) ->
  let mid := duringBatch atob prompt generator type answers order st in
  processingProgress mid
  = Some {| processed := length order; total := length (batchImages st) |}
  /\ isLoading mid = true
  /\ isBatchProcessingComplete mid = false.
Proof.
  intros Hnd Hlt. cbv zeta. unfold duringBatch. split.
  - rewrite (settle_progress atob prompt generator type answers (batchImages st) order Hnd);
      [reflexivity|].
    intros i Hi. split; [|now apply Hlt]. apply lookup_replicate. split; [reflexivity|].
    now apply Hlt.
  - match goal with
    | |- context [settle ?t order ?sl ?s] =>
        pose proof (settle_frame atob prompt generator type answers (batchImages st)
                      order None [] sl s) as Hframe
    end.
    split.
    + apply (f_equal isLoading) in Hframe. exact Hframe.
    + apply (f_equal isBatchProcessingComplete) in Hframe. exact Hframe.
Qed.

End ProgressRun.

Lemma batch_progress_counts_witness :
  processingProgress
    (duringBatch atobModel "sepia" generateFilteredImage "filtered" secondFails
       [2; 1]%nat threeImages)
  = Some {| processed := 2; total := 3 |}.
Proof.
  refine (proj1 (batch_progress_counts atobModel "sepia" generateFilteredImage "filtered"
                   secondFails [2; 1]%nat threeImages _ _)).
  - apply NoDup_cons. split.
    + intros Hin. apply list_elem_of_In in Hin. cbn in Hin. lia.
    + apply NoDup_singleton.
  - intros i Hi. apply list_elem_of_In in Hi.
    change (length (batchImages threeImages)) with 3%nat.
    destruct Hi as [<- | [<- | []]]; lia.
Defined.

(** ** The batch panel after a run *)

Lemma filter_imap_length {A B C} (p : B -> bool) (q : C -> bool) (l : list A) :
  forall (f : nat -> A -> B) (g : nat -> A -> C),
    (forall i x, l !! i = Some x -> p (f i x) = q (g i x)) ->
    length (List.filter p (imap f l)) = length (List.filter q (imap g l)).
Proof.
  induction l as [|x l IH]; intros f g H; [reflexivity|].
  cbn [imap List.filter]. rewrite (H 0%nat x eq_refl).
  specialize (IH (f ∘ S) (g ∘ S) (fun i y Hi => H (S i) y Hi)).
  destruct (q (g 0%nat x)); cbn [length]; now rewrite IH.
Qed.

Lemma filter_length_le {A} (p : A -> bool) (l : list A) :
  (length (List.filter p l) <= length l)%nat.
Proof.
  induction l as [|x l IH]; cbn [List.filter length]; [lia|].
  destruct (p x); cbn [length]; lia.
Qed.

Lemma filter_all_iff {A} (p : A -> bool) (l : list A) :
  length (List.filter p l) = length l <-> existsb (fun x => negb (p x)) l = false.
Proof.
  induction l as [|x l IH]; cbn [List.filter length existsb]; [tauto|].
  pose proof (filter_length_le p l) as Hle.
  destruct (p x); cbn [length negb orb].
  - rewrite <- IH. lia.
  - split; [lia|discriminate].
Qed.

Lemma existsb_imap_map {A B C} (p : C -> bool) (q : B -> bool) (h : B -> C) (l : list A) :
  forall (f : nat -> A -> B),
    (forall b, p (h b) = q b) ->
    existsb p (map h (imap f l)) = existsb q (imap f l).
Proof.
  induction l as [|x l IH]; intros f H; [reflexivity|].
  cbn [imap map existsb]. now rewrite H, IH.
Qed.

Lemma existsb_pointwise {A} (p q : A -> bool) (l : list A) :
  (forall x, p x = q x) -> existsb p l = existsb q l.
Proof. intros H. induction l as [|x l IH]; cbn [existsb]; [reflexivity|]. now rewrite H, IH. Qed.

Section BatchView.

Variable atob : string -> completion string.
Variable prompt : string.
Variable generator : Generator.
Variable type : string.
Variable answers : nat -> completion GenerateContentResponse.

Local Abbreviation outcome := (invocationOutcome atob prompt generator type answers).

Lemma afterBatch_images (order : list nat) (st : State) :
  batchImages (afterBatch atob prompt generator type answers order st) = batchImages st.
Proof.
  unfold afterBatch. cbv zeta.
  match goal with
  | |- context [settle ?t order ?sl ?s] =>
      pose proof (settle_frame atob prompt generator type answers (batchImages st)
                    order None [] sl s) as Hframe
  end.
  apply (f_equal batchImages) in Hframe.
  destruct (0 <? _)%nat; exact Hframe.
Qed.

(** X18: what the batch panel shows once a run over N images has come
    back: N thumbnails in the order of the upload; thumbnail [i] is marked
    failed exactly when invocation [i] failed, and displays the processed
    image when it succeeded and the original one when it failed; the number
    of marked thumbnails is the number of failed invocations; the Download
    All button is disabled exactly when every invocation failed; and no
    progress line is left. *)
Theorem batch_view_after_run (order : list nat) (st : State) :
  settlesAll order (length (batchImages st)) ->
  exists st',
    handleBatchApply atob st prompt generator type answers order st = Some (Normal tt, st')
    /\ length (BatchPanel.thumbnails (batchPanelProps st')) = length (batchImages st)
    /\ (forall i image,
           batchImages st !! i = Some image ->
           exists t,
             BatchPanel.thumbnails (batchPanelProps st') !! i = Some t
             /\ BatchPanel.originalFile t = image
             /\ BatchPanel.hasFailed t = negb (succeeded (outcome i image))
             /\ BatchPanel.fileToDisplay t
                = match outcome i image with
                  | Normal output => output
                  | Throw _ => image
                  end)
    /\ length (List.filter BatchPanel.hasFailed (BatchPanel.thumbnails (batchPanelProps st')))
       = failures atob prompt generator type answers (batchImages st)
    /\ (BatchPanel.downloadAllDisabled (batchPanelProps st') = true
        <-> failures atob prompt generator type answers (batchImages st)
            = length (batchImages st))
    /\ BatchPanel.progressText (batchPanelProps st') = None.
Proof.
  intros Hall. eexists. split;
    [now apply handleBatchApply_result with (images := batchImages st)|].
  pose proof (afterBatch_flags atob prompt generator type answers order st) as Hflags.
  cbv zeta in Hflags. destruct Hflags as (Hload & Hdone & Hprog).
  unfold BatchPanel.thumbnails, BatchPanel.downloadAllDisabled, BatchPanel.hasAnyProcessed,
    BatchPanel.progressText, batchPanelProps.
  cbn [BatchPanel.originalImages BatchPanel.processedImages BatchPanel.isLoading
       BatchPanel.progress BatchPanel.isProcessingComplete].
  rewrite afterBatch_images, Hload, Hdone,
    (afterBatch_output atob prompt generator type answers (batchImages st) order st eq_refl).
  assert (Hslot : forall i image,
             batchImages st !! i = Some image ->
             mjoin (map slotOf (batchOutcomes atob prompt generator type answers
                                  (batchImages st)) !! i)
             = slotOf (outcome i image)).
  { intros i image Hi. now rewrite list_lookup_fmap, outs_lookup, Hi. }
  split; [now rewrite length_imap|]. split; [|split; [|split]].
  - intros i image Hi. eexists. split; [rewrite list_lookup_imap, Hi; reflexivity|].
    rewrite (Hslot i image Hi).
    unfold BatchPanel.fileToDisplay. cbn [BatchPanel.originalFile BatchPanel.hasFailed
                                          BatchPanel.processedFile andb].
    now destruct (outcome i image).
  - unfold failures. apply filter_imap_length. intros i image Hi.
    cbn [BatchPanel.hasFailed andb]. rewrite (Hslot i image Hi).
    now destruct (outcome i image).
  - rewrite orb_false_r. unfold failures, batchOutcomes.
    rewrite <- (length_imap outcome (batchImages st)).
    rewrite filter_all_iff.
    rewrite (existsb_imap_map _ succeeded slotOf); [|now intros []].
    rewrite (existsb_pointwise (fun c => negb (negb (succeeded c))) succeeded);
      [|intros c; apply negb_involutive].
    now destruct (existsb _ _).
  - reflexivity.
Qed.

End BatchView.

Lemma batch_view_after_run_witness :
  exists st',
    handleBatchApply atobModel threeImages "sepia" generateFilteredImage "filtered"
      secondFails [2; 0; 1]%nat threeImages = Some (Normal tt, st')
    /\ length (List.filter BatchPanel.hasFailed (BatchPanel.thumbnails (batchPanelProps st')))
       = 1%nat
    /\ (exists t, BatchPanel.thumbnails (batchPanelProps st') !! 1%nat = Some t
                  /\ BatchPanel.hasFailed t = true
                  /\ BatchPanel.fileToDisplay t = sampleFile "b.png")
    /\ BatchPanel.progressText (batchPanelProps st') = None.
Proof.
  assert (Hall : settlesAll [2; 0; 1]%nat (length (batchImages threeImages))).
  { apply settlesAll_three; apply list_elem_of_In; simpl; auto. }
  destruct (batch_view_after_run atobModel "sepia" generateFilteredImage "filtered"
              secondFails [2; 0; 1]%nat threeImages Hall)
    as (st' & Hrun & _ & Hthumb & Hcount & _ & Hprog).
  exists st'. split; [exact Hrun|]. split; [exact Hcount|]. split; [|exact Hprog].
  destruct (Hthumb 1%nat (sampleFile "b.png") eq_refl) as (t & Ht & _ & Hfailed & Hshow).
  exists t. split; [exact Ht|]. split; [exact Hfailed|exact Hshow].
Defined.

(** ** The names of the processed images *)

Lemma string_app_inv_head (p a b : string) : p ++ a = p ++ b -> a = b.
Proof. induction p as [|c p IH]; cbn; [tauto|]. intros H. injection H as H. now apply IH. Qed.

Lemma digits_no_dash (d : Decimal.uint) :
  hasChar "-" (NilEmpty.string_of_uint d) = false.
Proof. induction d; cbn; auto. Qed.

Lemma showNat_no_dash (n : nat) : hasChar "-" (showNat n) = false.
Proof.
  unfold showNat, NilZero.string_of_uint.
  destruct (Nat.to_uint n) eqn:E; try (rewrite <- E; apply digits_no_dash).
  reflexivity.
Qed.

Lemma to_uint_not_Nil (n : nat) : Nat.to_uint n <> Decimal.Nil.
Proof.
  rewrite <- (DecimalNat.Unsigned.of_to n) at 1. rewrite DecimalNat.Unsigned.to_of.
  unfold Decimal.unorm. now destruct (Decimal.nzhead _).
Qed.

Lemma showNat_inj (i j : nat) : showNat i = showNat j -> i = j.
Proof.
  unfold showNat. intros H. apply DecimalNat.Unsigned.to_uint_inj.
  apply (f_equal NilZero.uint_of_string) in H.
  rewrite !NilZero.usu in H by apply to_uint_not_Nil.
  now injection H.
Qed.

Lemma split_at_dash (s1 : string) :
  forall s2 a b,
    hasChar "-" s1 = false -> hasChar "-" s2 = false ->
    s1 ++ String "-" a = s2 ++ String "-" b -> s1 = s2.
Proof.
  induction s1 as [|c s1 IH]; intros [|c' s2] a b H1 H2 H; cbn in *.
  - reflexivity.
  - injection H as <- _. now rewrite Ascii.eqb_refl in H2.
  - injection H as -> _. now rewrite Ascii.eqb_refl in H1.
  - injection H as <- H. apply orb_false_iff in H1 as [_ H1], H2 as [_ H2].
    f_equal. exact (IH s2 a b H1 H2 H).
Qed.

Lemma indexed_names_differ (type : string) (i j : nat) (a b : string) :
  type ++ "-" ++ showNat i ++ "-" ++ a = type ++ "-" ++ showNat j ++ "-" ++ b -> i = j.
Proof.
  intros H. apply string_app_inv_head in H. cbn in H. injection H as H.
  apply showNat_inj. exact (split_at_dash _ _ a b (showNat_no_dash i) (showNat_no_dash j) H).
Qed.

Section BatchNames.

Variable atob : string -> completion string.

Lemma dataURLtoFile_name (url filename : string) (f : File) :
  dataURLtoFile atob url filename = Normal f -> name f = filename.
Proof.
  unfold dataURLtoFile. intros H.
  destruct (length (splitComma url) <? 2)%nat; [discriminate|].
  destruct (truthyOpt _); [|discriminate].
  destruct (atob _); cbn [andThen] in H; [|discriminate].
  now injection H as <-.
Qed.

Variable prompt : string.
Variable generator : Generator.
Variable type : string.
Variable answers : nat -> completion GenerateContentResponse.

Lemma invocationOutcome_name (index : nat) (image f : File) :
  invocationOutcome atob prompt generator type answers index image = Normal f ->
  name f = type ++ "-" ++ showNat index ++ "-" ++ name image.
Proof.
  unfold invocationOutcome. destruct (generator _ _ _); cbn [andThen]; [|discriminate].
  apply dataURLtoFile_name.
Qed.

(** X19: in the output of a batch run, the image of slot [i] is named
    [type-i-name] after the uploaded image of that slot, and no two
    processed images bear the same name, whatever the names of the
    uploaded images. *)
Theorem batch_names_distinct (order : list nat) (st st' : State) :
  settlesAll order (length (batchImages st)) ->
  handleBatchApply atob st prompt generator type answers order st = Some (Normal tt, st') ->
  (forall i f,
      processedBatchImages st' !! i = Some (Some f) ->
      exists image,
        batchImages st !! i = Some image
        /\ name f = type ++ "-" ++ showNat i ++ "-" ++ name image)
  /\ (forall i j f g,
         i <> j ->
         processedBatchImages st' !! i = Some (Some f) ->
         processedBatchImages st' !! j = Some (Some g) ->
         name f <> name g).
Proof.
  intros Hall Hrun.
  rewrite (handleBatchApply_result atob prompt generator type answers (batchImages st)
             order st eq_refl Hall) in Hrun.
  injection Hrun as <-.
  rewrite (afterBatch_output atob prompt generator type answers (batchImages st) order st eq_refl).
  assert (Hname : forall i f,
             map slotOf (batchOutcomes atob prompt generator type answers (batchImages st)) !! i
             = Some (Some f) ->
             exists image,
               batchImages st !! i = Some image
               /\ name f = type ++ "-" ++ showNat i ++ "-" ++ name image).
  { intros i f Hi. rewrite list_lookup_fmap, outs_lookup in Hi.
    destruct (batchImages st !! i) as [image|] eqn:Himg; [|discriminate].
    exists image. split; [reflexivity|]. cbn in Hi.
    destruct (invocationOutcome _ _ _ _ _ _ _) as [value|err] eqn:Hout; [|discriminate].
    injection Hi as <-. exact (invocationOutcome_name i image value Hout). }
  split; [exact Hname|].
  intros i j f g Hij Hi Hj Heq.
  destruct (Hname i f Hi) as (image & _ & Hf), (Hname j g Hj) as (image' & _ & Hg).
  rewrite Hf, Hg in Heq. exact (Hij (indexed_names_differ type i j _ _ Heq)).
Qed.

End BatchNames.

Lemma batch_names_distinct_witness :
  name (pngFile "filtered-0-a.png") <> name (pngFile "filtered-1-a.png").
Proof.
  refine (proj2 (batch_names_distinct atobModel "sepia" generateFilteredImage "filtered"
                   allSucceed [1; 0]%nat twins
                   (afterBatch atobModel "sepia" generateFilteredImage "filtered"
                      allSucceed [1; 0]%nat twins) _ _)
            0%nat 1%nat _ _ _ _ _).
  - intros i Hi. change (length (batchImages twins)) with 2%nat in Hi.
    apply list_elem_of_In. cbn. lia.
  - vm_compute. reflexivity.
  - discriminate.
  - vm_compute. reflexivity.
  - vm_compute. reflexivity.
Defined.

(** ** The archive of processed images *)

Lemma listZipFile_nonempty (name : string) (data : File) (zip : list (string * File)) :
  map fst (listZipFile name data zip) <> [].
Proof.
  destruct zip as [|[n d] rest]; cbn; [discriminate|].
  destruct (String.eqb n name); discriminate.
Qed.

Section ArchiveProps.

Variable Zip : Type.
Variable Content : Type.
Variable newZip : Zip.
Variable zipFile : string -> File -> Zip -> Zip.
Variable zipKeys : Zip -> list string.
Variable generateAsync : Zip -> completion Content.

(** A new archive has no entry, and adding a file leaves at least one. *)
Hypothesis new_zip_empty : zipKeys newZip = [].
Hypothesis zip_file_adds : forall name data zip, zipKeys (zipFile name data zip) <> [].

Lemma fill_keys (now : nat -> N) (entries : list (nat * option File)) :
  forall zip,
    zipKeys
      (fold_left
         (fun zip entry =>
            match entry with
            | (index, Some file) =>
                zipFile (if truthy (name file) then name file
                         else "image_" ++ showN (now index) ++ ".png")
                  file zip
            | (_, None) => zip
            end)
         entries zip) = []
    <-> zipKeys zip = []
        /\ existsb (fun entry => match snd entry with Some _ => true | None => false end)
             entries = false.
Proof.
  induction entries as [|[index [file|]] entries IH]; intros zip; cbn [fold_left existsb snd].
  - tauto.
  - rewrite IH. cbn [orb]. split; [intros [H _]; now apply zip_file_adds in H|].
    intros [_ H]. discriminate.
  - rewrite IH. cbn [orb]. tauto.
Qed.

Lemma existsb_indexed {A} (p : A -> bool) (l : list A) :
  forall k,
    existsb (fun entry : nat * A => p (snd entry)) (imap (fun index x => (k + index, x)%nat) l)
    = existsb p l.
Proof.
  induction l as [|x l IH]; intros k; [reflexivity|].
  cbn [imap existsb snd]. f_equal.
  rewrite <- (IH (S k)). f_equal. apply imap_ext. intros i y _. cbn. f_equal. lia.
Qed.

Lemma archiveOf_keys (now : nat -> N) (render : State) :
  (length (zipKeys (archiveOf Zip newZip zipFile now (processedBatchImages render))) =? 0)%nat
  = negb (BatchPanel.hasAnyProcessed (batchPanelProps render)).
Proof.
  unfold BatchPanel.hasAnyProcessed, batchPanelProps. cbn [BatchPanel.processedImages].
  rewrite <- (existsb_indexed _ (processedBatchImages render) 0).
  pose proof (fill_keys now (imap (fun index x => ((0 + index)%nat, x))
                               (processedBatchImages render)) newZip) as H.
  unfold archiveOf. cbn [Nat.add] in *.
  set (filled := fold_left _ _ newZip) in *.
  destruct (existsb _ _).
  - destruct (zipKeys filled) as [|k ks] eqn:K; [|reflexivity].
    destruct (proj1 H eq_refl) as [_ Hno]. discriminate.
  - now rewrite (proj2 H (conj new_zip_empty eq_refl)).
Qed.

(** X20: [handleDownloadAll] refuses, with the message that there is no
    processed image, exactly when the panel's [hasAnyProcessed] is false;
    otherwise it triggers one download of the archive under a fixed name
    and leaves the state alone, or, when the archive cannot be generated,
    logs the failure and reports that the zip file could not be created.
    It never throws, and a click on the enabled Download All button never
    writes the refusal. *)
Theorem download_all_outcome (render : State) (now : nat -> N) (st : State) :
  let zip := archiveOf Zip newZip zipFile now (processedBatchImages render) in
  let run := handleDownloadAll Zip Content newZip zipFile zipKeys generateAsync render now st in
  run
  = (if BatchPanel.hasAnyProcessed (batchPanelProps render)
     then match generateAsync zip with
          | Normal content =>
              (Normal [{| download := "rakhi_visuals_processed_images.zip"; href := content |}],
               st)
          | Throw err =>
              (Normal [],
               with_error (Some "Could not create zip file.")
                 (with_console
                    (console st ++ [{| logText := Some "Failed to create zip file";
                                       logValue := err |}])%list st))
          end
     else (Normal [], with_error (Some "No processed images to download.") st))
  /\ (exists downloads, fst run = Normal downloads)
  /\ (BatchPanel.downloadAllDisabled (batchPanelProps render) = false ->
      error (snd run) = Some "No processed images to download." ->
      error st = Some "No processed images to download.").
Proof.
  cbv zeta.
  assert (Hrun : handleDownloadAll Zip Content newZip zipFile zipKeys generateAsync render now st
                 = (if BatchPanel.hasAnyProcessed (batchPanelProps render)
                    then match generateAsync
                                 (archiveOf Zip newZip zipFile now (processedBatchImages render))
                         with
                         | Normal content =>
                             (Normal [{| download := "rakhi_visuals_processed_images.zip";
                                         href := content |}], st)
                         | Throw err =>
                             (Normal [],
                              with_error (Some "Could not create zip file.")
                                (with_console
                                   (console st
                                    ++ [{| logText := Some "Failed to create zip file";
                                           logValue := err |}])%list st))
                         end
                    else (Normal [],
                          with_error (Some "No processed images to download.") st))).
  { unfold handleDownloadAll. rewrite archiveOf_keys.
    destruct (BatchPanel.hasAnyProcessed _); cbn [negb]; [|reflexivity].
    unfold tryCatch, mbind, M_bind, bind, lift.
    destruct (generateAsync _); reflexivity. }
  rewrite Hrun. split; [reflexivity|]. split.
  - destruct (BatchPanel.hasAnyProcessed _); [|now eexists].
    destruct (generateAsync _); now eexists.
  - unfold BatchPanel.downloadAllDisabled. intros Hbutton.
    apply orb_false_iff in Hbutton as [Hany _]. apply negb_false_iff in Hany.
    rewrite Hany. destruct (generateAsync _); cbn; [tauto|discriminate].
Qed.

End ArchiveProps.

Lemma download_all_outcome_witness :
  handleDownloadAll (list (string * File)) (list (string * File)) [] listZipFile (map fst) Normal
    secondFailed (fun _ => 0%N) secondFailed
  = (Normal [{| download := "rakhi_visuals_processed_images.zip";
                href := [("filtered-0-a.png", pngFile "filtered-0-a.png");
                         ("filtered-2-c.png", pngFile "filtered-2-c.png")] |}],
     secondFailed).
Proof.
  exact (proj1 (download_all_outcome (list (string * File)) (list (string * File)) []
                  listZipFile (map fst) Normal eq_refl listZipFile_nonempty
                  secondFailed (fun _ => 0%N) secondFailed)).
Defined.

(** ** The adjustment panel *)

Lemma activePrompt_step (st : AdjustmentPanel.PanelState) (input : AdjustmentPanel.Input) :
  AdjustmentPanel.activePrompt (AdjustmentPanel.step st input) = AdjustmentPanel.payload input.
Proof.
  destruct input as [prompt|value]; cbn; [|reflexivity].
  now destruct prompt.
Qed.

(** X21: whatever was clicked and typed in the adjustment panel before,
    the active prompt is the payload of the last input: the prompt of the
    preset clicked last, or the text typed last.  [handleApply] passes it
    on unless it is empty, and the Apply button is enabled only when it
    holds more than white space and nothing is loading. *)
Theorem adjustment_panel_applies_last_input (inputs : list AdjustmentPanel.Input)
    (last : AdjustmentPanel.Input) (isLoading : bool) :
  let st := fold_left AdjustmentPanel.step (inputs ++ [last]) AdjustmentPanel.initial in
  AdjustmentPanel.activePrompt st = AdjustmentPanel.payload last
  /\ AdjustmentPanel.handleApply st
     = (if truthy (AdjustmentPanel.payload last)
        then Some (AdjustmentPanel.payload last) else None)
  /\ (AdjustmentPanel.applyEnabled isLoading st = true ->
      isLoading = false
      /\ trim (AdjustmentPanel.payload last) <> EmptyString
      /\ AdjustmentPanel.handleApply st = Some (AdjustmentPanel.payload last)).
Proof.
  cbv zeta. rewrite fold_left_app. cbn [fold_left].
  unfold AdjustmentPanel.handleApply, AdjustmentPanel.applyEnabled.
  rewrite activePrompt_step.
  split; [reflexivity|]. split; [reflexivity|].
  intros H. apply andb_true_iff in H as [Hne H]. rewrite Hne.
  apply negb_true_iff, orb_false_iff in H as [-> H]. apply negb_false_iff in H.
  split; [reflexivity|]. split; [|reflexivity].
  intros Hblank. now rewrite Hblank in H.
Qed.

Lemma adjustment_panel_applies_last_input_witness :
  AdjustmentPanel.handleApply
    (fold_left AdjustmentPanel.step
       ([AdjustmentPanel.PresetClick "Warmer"; AdjustmentPanel.CustomChange "x"]
        ++ [AdjustmentPanel.CustomChange "more contrast"])
       AdjustmentPanel.initial)
  = Some "more contrast".
Proof.
  refine (proj2 (proj2 (proj2 (proj2
            (adjustment_panel_applies_last_input
               [AdjustmentPanel.PresetClick "Warmer"; AdjustmentPanel.CustomChange "x"]
               (AdjustmentPanel.CustomChange "more contrast") false)) _))).
  vm_compute. reflexivity.
Defined.

(** ** The uploaders of the whisk and backdrop panels *)

Lemma handleFileSelect_image (selected : option File) (value : option File) :
  ImageUploader.handleFileSelect selected = Some value -> imageOrAbsent value.
Proof.
  destruct selected as [file|]; cbn; [|discriminate].
  destruct (ImageUploader.startsWith "image/" (type file)) eqn:E; [|discriminate].
  intros H. injection H as <-. exact E.
Qed.

Lemma after_image (input : ImageUploader.Input) (held : option File) :
  imageOrAbsent held -> imageOrAbsent (ImageUploader.after input held).
Proof.
  intros Hfile. unfold ImageUploader.after.
  destruct (ImageUploader.callOf input) as [value|] eqn:Hcall; [|exact Hfile].
  destruct input as [files|files|]; cbn in Hcall.
  - exact (handleFileSelect_image _ _ Hcall).
  - destruct files as [[|dropped rest]|]; try discriminate.
    exact (handleFileSelect_image _ _ Hcall).
  - injection Hcall as <-. exact I.
Qed.

Lemma whisk_step_image (st : WhiskPanel.PanelState) (input : WhiskPanel.Input) :
  imageOrAbsent (WhiskPanel.subjectFile st)
  /\ imageOrAbsent (WhiskPanel.sceneFile st)
  /\ imageOrAbsent (WhiskPanel.styleFile st) ->
  imageOrAbsent (WhiskPanel.subjectFile (WhiskPanel.step st input))
  /\ imageOrAbsent (WhiskPanel.sceneFile (WhiskPanel.step st input))
  /\ imageOrAbsent (WhiskPanel.styleFile (WhiskPanel.step st input)).
Proof.
  intros (H1 & H2 & H3).
  destruct input as [i|i|i]; cbn; (split; [|split]); auto using after_image.
Qed.

Lemma whisk_run_image (inputs : list WhiskPanel.Input) :
  forall st,
    imageOrAbsent (WhiskPanel.subjectFile st)
    /\ imageOrAbsent (WhiskPanel.sceneFile st)
    /\ imageOrAbsent (WhiskPanel.styleFile st) ->
    let st' := fold_left WhiskPanel.step inputs st in
    imageOrAbsent (WhiskPanel.subjectFile st')
    /\ imageOrAbsent (WhiskPanel.sceneFile st')
    /\ imageOrAbsent (WhiskPanel.styleFile st').
Proof.
  induction inputs as [|input inputs IH]; intros st H; [exact H|].
  cbn [fold_left]. apply IH, whisk_step_image, H.
Qed.

(** X22: whatever files were offered to the three uploaders of the whisk
    panel, by the file dialog or by a drop, and whichever were cleared, a
    click on Whisk calls [onWhisk] only when all three slots are filled,
    and then with three files whose type starts with [image/]. *)
Theorem whisk_panel_sends_images (inputs : list WhiskPanel.Input)
    (subject scene style : File) :
  WhiskPanel.handleWhiskClick (fold_left WhiskPanel.step inputs WhiskPanel.initial)
  = Some (subject, scene, style) ->
  WhiskPanel.subjectFile (fold_left WhiskPanel.step inputs WhiskPanel.initial) = Some subject
  /\ WhiskPanel.sceneFile (fold_left WhiskPanel.step inputs WhiskPanel.initial) = Some scene
  /\ WhiskPanel.styleFile (fold_left WhiskPanel.step inputs WhiskPanel.initial) = Some style
  /\ ImageUploader.startsWith "image/" (type subject) = true
  /\ ImageUploader.startsWith "image/" (type scene) = true
  /\ ImageUploader.startsWith "image/" (type style) = true.
Proof.
  pose proof (whisk_run_image inputs WhiskPanel.initial (conj I (conj I I))) as H.
  cbv zeta in H. destruct H as (H1 & H2 & H3).
  unfold WhiskPanel.handleWhiskClick. intros Hclick.
  destruct (WhiskPanel.subjectFile _) as [a|]; [|discriminate].
  destruct (WhiskPanel.sceneFile _) as [b|]; [|discriminate].
  destruct (WhiskPanel.styleFile _) as [c|]; [|discriminate].
  injection Hclick as -> -> ->. repeat split; assumption.
Qed.

Lemma whisk_panel_sends_images_witness :
  WhiskPanel.subjectFile
    (fold_left WhiskPanel.step
       [WhiskPanel.Subject (ImageUploader.Change (Some [pngNamed "s.png"]));
        WhiskPanel.Subject (ImageUploader.Drop (Some [textFile]));
        WhiskPanel.Scene (ImageUploader.Drop (Some [pngNamed "c.png"; textFile]));
        WhiskPanel.Style (ImageUploader.Change (Some [pngNamed "old.png"]));
        WhiskPanel.Style ImageUploader.Clear;
        WhiskPanel.Style (ImageUploader.Change (Some [pngNamed "t.png"]))]
       WhiskPanel.initial)
  = Some (pngNamed "s.png")
  /\ ImageUploader.startsWith "image/" (type (pngNamed "t.png")) = true.
Proof.
  pose proof (whisk_panel_sends_images
                [WhiskPanel.Subject (ImageUploader.Change (Some [pngNamed "s.png"]));
                 WhiskPanel.Subject (ImageUploader.Drop (Some [textFile]));
                 WhiskPanel.Scene (ImageUploader.Drop (Some [pngNamed "c.png"; textFile]));
                 WhiskPanel.Style (ImageUploader.Change (Some [pngNamed "old.png"]));
                 WhiskPanel.Style ImageUploader.Clear;
                 WhiskPanel.Style (ImageUploader.Change (Some [pngNamed "t.png"]))]
                (pngNamed "s.png") (pngNamed "c.png") (pngNamed "t.png") eq_refl)
    as (H1 & _ & _ & _ & _ & H6).
  split; [exact H1|exact H6].
Defined.

(** ** Loading a backdrop from a URL *)

Lemma lastIndexOf_lower (c : ascii) (s : string) : (-1 <= BackdropPanel.lastIndexOf c s)%Z.
Proof.
  induction s as [|a s IH]; cbn [BackdropPanel.lastIndexOf]; [lia|]. cbv zeta.
  destruct (0 <=? BackdropPanel.lastIndexOf c s)%Z eqn:E; [apply Z.leb_le in E; lia|].
  destruct (Ascii.eqb a c); lia.
Qed.

Lemma lastIndexOf_absent (c : ascii) (s : string) :
  (BackdropPanel.lastIndexOf c s < 0)%Z -> hasChar c s = false.
Proof.
  induction s as [|a s IH]; cbn [BackdropPanel.lastIndexOf hasChar]; [reflexivity|]. cbv zeta.
  pose proof (lastIndexOf_lower c s) as Hlow.
  destruct (0 <=? BackdropPanel.lastIndexOf c s)%Z eqn:E; [apply Z.leb_le in E; lia|].
  apply Z.leb_gt in E. destruct (Ascii.eqb a c); [lia|].
  intros _. cbn [orb]. exact (IH E).
Qed.

Lemma tail_has_no_separator (c : ascii) (s : string) :
  hasChar c (BackdropPanel.substring (BackdropPanel.lastIndexOf c s + 1) s) = false.
Proof.
  unfold BackdropPanel.substring.
  induction s as [|a s IH]; cbn [BackdropPanel.lastIndexOf]; [reflexivity|]. cbv zeta.
  pose proof (lastIndexOf_lower c s) as Hlow.
  destruct (0 <=? BackdropPanel.lastIndexOf c s)%Z eqn:E.
  - apply Z.leb_le in E.
    replace (Z.to_nat (BackdropPanel.lastIndexOf c s + 1 + 1))
      with (S (Z.to_nat (BackdropPanel.lastIndexOf c s + 1))) by lia.
    exact IH.
  - apply Z.leb_gt in E. pose proof (lastIndexOf_absent c s E) as Habs.
    destruct (Ascii.eqb a c) eqn:Hac.
    + change (Z.to_nat (0 + 1)) with 1%nat. cbn [BackdropPanel.dropChars]. exact Habs.
    + change (Z.to_nat (-1 + 1)) with 0%nat. cbn [BackdropPanel.dropChars hasChar].
      now rewrite Hac, Habs.
Qed.

Lemma filenameOf_clean (urlPath : string) :
  BackdropPanel.filenameOf urlPath <> EmptyString
  /\ hasChar "/" (BackdropPanel.filenameOf urlPath) = false.
Proof.
  unfold BackdropPanel.filenameOf. cbv zeta.
  pose proof (tail_has_no_separator "/" urlPath) as Htail.
  destruct (BackdropPanel.substring _ urlPath) as [|a tail]; cbn [truthy].
  - split; [discriminate|reflexivity].
  - split; [discriminate|exact Htail].
Qed.

Lemma prefix_lowerCase (p : string) :
  noUpperCase p = true ->
  forall t, String.prefix p t = true -> String.prefix p (lowerCase t) = true.
Proof.
  induction p as [|a p IH]; intros Hp t; [now destruct t|].
  cbn [noUpperCase] in Hp. apply andb_true_iff in Hp as [Ha Hp].
  apply negb_true_iff in Ha.
  destruct t as [|b t]; cbn [String.prefix lowerCase]; [discriminate|].
  destruct (ascii_dec a b) as [<-|]; [|discriminate].
  rewrite (toAsciiLowerCase_kept a Ha).
  destruct (ascii_dec a a) as [_|Hne]; [|contradiction]. now apply IH.
Qed.

Lemma fileType_image (t : string) :
  ImageUploader.startsWith "image/" t = true ->
  (allPrintable t = true -> ImageUploader.startsWith "image/" (fileType t) = true)
  /\ (allPrintable t = false -> fileType t = EmptyString).
Proof.
  unfold ImageUploader.startsWith, fileType. intros Hprefix.
  split; intros ->; [|reflexivity].
  now apply prefix_lowerCase.
Qed.

Lemma image_is_imageOrUntyped (held : option File) :
  imageOrAbsent held -> imageOrUntyped held.
Proof. destruct held; cbn; [now left | trivial]. Qed.

Section Loading.

Variable fetch : string -> completion BackdropPanel.Response.
Variable pathname : string -> completion string.

Lemma fetchedFile_image (url : string) (file : File) :
  BackdropPanel.fetchedFile fetch pathname url = Normal file ->
  (exists response blob,
      fetch url = Normal response
      /\ BackdropPanel.blob response = Normal blob
      /\ ImageUploader.startsWith "image/" (BackdropPanel.blobType blob) = true
      /\ type file = fileType (BackdropPanel.blobType blob))
  /\ name file <> EmptyString
  /\ hasChar "/" (name file) = false.
Proof.
  unfold BackdropPanel.fetchedFile.
  destruct (fetch url) as [response|err]; cbn [andThen]; [|discriminate].
  destruct (BackdropPanel.ok response); cbn [negb]; [|discriminate].
  destruct (BackdropPanel.blob response) as [blob|err] eqn:Hblob; cbn [andThen];
    [|discriminate].
  destruct (ImageUploader.startsWith "image/" (BackdropPanel.blobType blob)) eqn:E;
    cbn [negb]; [|discriminate].
  destruct (pathname url) as [urlPath|err]; cbn [andThen]; [|discriminate].
  intros H. injection H as <-. unfold newFile. cbn [name type].
  split; [|apply filenameOf_clean].
  exists response, blob. repeat split; assumption.
Qed.

(** X23: a click on Load with a URL that holds more than white space
    raises the fetching flag and clears the error and the background chosen
    before; whatever the uploader and the URL field receive while the load
    is pending, the settling of the load lowers the fetching flag and ends
    in one of two ways.  When the fetch gives a blob whose type starts with
    [image/], the background is the file made of it, whose name is not
    empty and holds no slash and whose type is what the [File] constructor
    makes of the blob's type -- it starts with [image/] when the blob's
    type is printable ASCII and is empty otherwise --, the URL field is
    emptied, and the error is as it was.  When it fails, the background and the URL field are as they were
    just before the settling -- so a file chosen in the uploader meanwhile
    stays -- and the error is the fixed sentence followed by the message of
    the failure; a server answer that is not [ok] is reported with its
    status.  With nothing in between there is no background and no error
    just before the settling.  With a blank URL the click changes
    nothing. *)
Theorem load_from_url_outcome (render st : BackdropPanel.PanelState)
    (between : list BackdropPanel.Input) :
  (truthy (trim (BackdropPanel.imageUrl render)) = false ->
   BackdropPanel.loadStarted render st = None
   /\ BackdropPanel.handleLoadFromUrl fetch pathname render st = st)
  /\ (truthy (trim (BackdropPanel.imageUrl render)) = true ->
      exists started,
        BackdropPanel.loadStarted render st = Some started
        /\ BackdropPanel.isFetchingUrl started = true
        /\ BackdropPanel.backgroundFile started = None
        /\ BackdropPanel.urlError started = None
        /\ BackdropPanel.imageUrl started = BackdropPanel.imageUrl st
        /\ BackdropPanel.handleLoadFromUrl fetch pathname render st
           = BackdropPanel.loadSettled fetch pathname render started
        /\ let before := fold_left (BackdropPanel.step fetch pathname) between started in
           let st' := BackdropPanel.loadSettled fetch pathname render before in
           BackdropPanel.isFetchingUrl st' = false
           /\ (forall file,
                  BackdropPanel.fetchedFile fetch pathname (BackdropPanel.imageUrl render)
                  = Normal file ->
                  BackdropPanel.backgroundFile st' = Some file
                  /\ BackdropPanel.imageUrl st' = EmptyString
                  /\ BackdropPanel.urlError st' = BackdropPanel.urlError before
                  /\ (exists response blob,
                         fetch (BackdropPanel.imageUrl render) = Normal response
                         /\ BackdropPanel.blob response = Normal blob
                         /\ ImageUploader.startsWith "image/" (BackdropPanel.blobType blob)
                            = true
                         /\ type file = fileType (BackdropPanel.blobType blob)
                         /\ (allPrintable (BackdropPanel.blobType blob) = true ->
                             ImageUploader.startsWith "image/" (type file) = true)
                         /\ (allPrintable (BackdropPanel.blobType blob) = false ->
                             type file = EmptyString))
                  /\ name file <> EmptyString
                  /\ hasChar "/" (name file) = false)
           /\ (forall err,
                  BackdropPanel.fetchedFile fetch pathname (BackdropPanel.imageUrl render)
                  = Throw err ->
                  BackdropPanel.backgroundFile st' = BackdropPanel.backgroundFile before
                  /\ BackdropPanel.imageUrl st' = BackdropPanel.imageUrl before
                  /\ BackdropPanel.urlError st'
                     = Some ("Could not load image. Please check the URL and try again. Note: Some websites may block direct image loading (CORS policy). Error: "
                             ++ errorMessageOf err))
           /\ (forall response,
                  fetch (BackdropPanel.imageUrl render) = Normal response ->
                  BackdropPanel.ok response = false ->
                  BackdropPanel.urlError st'
                  = Some ("Could not load image. Please check the URL and try again. Note: Some websites may block direct image loading (CORS policy). Error: Failed to fetch image. Server responded with status: "
                          ++ showNat (BackdropPanel.status response)))).
Proof.
  unfold BackdropPanel.handleLoadFromUrl, BackdropPanel.loadStarted.
  split; intros Hurl; rewrite Hurl; cbn [negb]; [split; reflexivity|].
  eexists. split; [reflexivity|]. do 5 (split; [reflexivity|]).
  cbv zeta. unfold BackdropPanel.loadSettled.
  split; [reflexivity|]. split; [|split].
  - intros file Hfile. rewrite Hfile.
    destruct (fetchedFile_image _ _ Hfile)
      as ((response & blob & Hfetch & Hblob & Himage & Htype) & H2 & H3).
    destruct (fileType_image _ Himage) as [Hprintable Hother].
    split; [reflexivity|]. split; [reflexivity|]. split; [reflexivity|].
    split; [|split; assumption].
    exists response, blob. rewrite Htype. repeat split; assumption.
  - intros err Hfile. rewrite Hfile. repeat split.
  - intros response Hfetch Hok. unfold BackdropPanel.fetchedFile.
    rewrite Hfetch. cbn [andThen]. rewrite Hok. reflexivity.
Qed.

Lemma backdrop_step_untyped (st : BackdropPanel.PanelState) (input : BackdropPanel.Input) :
  imageOrUntyped (BackdropPanel.backgroundFile st) ->
  imageOrUntyped (BackdropPanel.backgroundFile (BackdropPanel.step fetch pathname st input)).
Proof.
  intros H. destruct input as [i|value| |render]; cbn [BackdropPanel.step].
  - cbn [BackdropPanel.backgroundFile BackdropPanel.with_backgroundFile].
    unfold ImageUploader.after.
    destruct (ImageUploader.callOf i) as [value|] eqn:Hcall; [|exact H].
    apply image_is_imageOrUntyped.
    pose proof (after_image i None I) as Hafter. unfold ImageUploader.after in Hafter.
    now rewrite Hcall in Hafter.
  - exact H.
  - unfold BackdropPanel.loadStarted. destruct (negb _); [exact H|exact I].
  - unfold BackdropPanel.loadSettled.
    destruct (BackdropPanel.fetchedFile fetch pathname _) as [file|err] eqn:Hfile; [|exact H].
    destruct (fetchedFile_image _ _ Hfile) as ((response & blob & _ & _ & Himage & Htype) & _).
    destruct (fileType_image _ Himage) as [Hprintable Hother].
    cbn. rewrite Htype.
    destruct (allPrintable (BackdropPanel.blobType blob)); [left | right]; auto.
Qed.

Lemma backdrop_step_image (st : BackdropPanel.PanelState) (input : BackdropPanel.Input) :
  (forall url response blob,
      fetch url = Normal response -> BackdropPanel.blob response = Normal blob ->
      allPrintable (BackdropPanel.blobType blob) = true) ->
  imageOrAbsent (BackdropPanel.backgroundFile st) ->
  imageOrAbsent (BackdropPanel.backgroundFile (BackdropPanel.step fetch pathname st input)).
Proof.
  intros Hplain H. destruct input as [i|value| |render]; cbn [BackdropPanel.step].
  - now apply after_image.
  - exact H.
  - unfold BackdropPanel.loadStarted. destruct (negb _); [exact H|exact I].
  - unfold BackdropPanel.loadSettled.
    destruct (BackdropPanel.fetchedFile fetch pathname _) as [file|err] eqn:Hfile; [|exact H].
    destruct (fetchedFile_image _ _ Hfile)
      as ((response & blob & Hfetch & Hblob & Himage & Htype) & _).
    cbn. rewrite Htype.
    exact (proj1 (fileType_image _ Himage) (Hplain _ _ _ Hfetch Hblob)).
Qed.

(** X24: what the backdrop panel hands to [onReplaceBackdrop].  Whatever
    was offered to its uploader, typed in the URL field and loaded, with
    loads settling at any later time, a click on Replace makes no call or
    passes a file whose type starts with [image/] or is empty.  The type is
    empty only for a fetched blob whose type, though it starts with
    [image/], holds a character outside U+0020 to U+007E, which the [File]
    constructor does not keep: when every fetched blob has a type in
    printable ASCII, the file passed has a type that starts with
    [image/]. *)
Theorem backdrop_panel_sends_image (inputs : list BackdropPanel.Input) (file : File) :
  BackdropPanel.handleReplaceClick
    (fold_left (BackdropPanel.step fetch pathname) inputs BackdropPanel.initial)
  = Some file ->
  (ImageUploader.startsWith "image/" (type file) = true \/ type file = EmptyString)
  /\ ((forall url response blob,
          fetch url = Normal response -> BackdropPanel.blob response = Normal blob ->
          allPrintable (BackdropPanel.blobType blob) = true) ->
      ImageUploader.startsWith "image/" (type file) = true).
Proof.
  unfold BackdropPanel.handleReplaceClick.
  assert (Huntyped : forall st,
             imageOrUntyped (BackdropPanel.backgroundFile st) ->
             imageOrUntyped
               (BackdropPanel.backgroundFile
                  (fold_left (BackdropPanel.step fetch pathname) inputs st))).
  { induction inputs as [|input rest IH]; intros st Hst; [exact Hst|].
    cbn [fold_left]. apply IH, backdrop_step_untyped, Hst. }
  assert (Himage : (forall url response blob,
                       fetch url = Normal response ->
                       BackdropPanel.blob response = Normal blob ->
                       allPrintable (BackdropPanel.blobType blob) = true) ->
                   forall st,
                     imageOrAbsent (BackdropPanel.backgroundFile st) ->
                     imageOrAbsent
                       (BackdropPanel.backgroundFile
                          (fold_left (BackdropPanel.step fetch pathname) inputs st))).
  { intros Hplain. clear Huntyped.
    induction inputs as [|input rest IH]; intros st Hst; [exact Hst|].
    cbn [fold_left]. apply IH, backdrop_step_image; [exact Hplain | exact Hst]. }
  intros Hfile. split.
  - specialize (Huntyped BackdropPanel.initial I). now rewrite Hfile in Huntyped.
  - intros Hplain. specialize (Himage Hplain BackdropPanel.initial I).
    now rewrite Hfile in Himage.
Qed.

End Loading.

(** X23 on a load that the server answers with 404 while the user has
    chosen a file in the uploader: the file stays, the URL is kept and the
    error reports the status. *)
Lemma load_from_url_outcome_witness :
  BackdropPanel.loadSettled notFound pathOfExample (typedUrl "https://example.com/a/b.png")
    (fold_left (BackdropPanel.step notFound pathOfExample)
       [BackdropPanel.Uploader (ImageUploader.Change (Some [pngNamed "mine.png"]))]
       (BackdropPanel.with_backgroundFile None
          (BackdropPanel.with_urlError None
             (BackdropPanel.with_isFetchingUrl true (typedUrl "https://example.com/a/b.png")))))
  = {| BackdropPanel.backgroundFile := Some (pngNamed "mine.png");
       BackdropPanel.imageUrl := "https://example.com/a/b.png";
       BackdropPanel.isFetchingUrl := false;
       BackdropPanel.urlError :=
         Some "Could not load image. Please check the URL and try again. Note: Some websites may block direct image loading (CORS policy). Error: Failed to fetch image. Server responded with status: 404" |}
  /\ BackdropPanel.urlError
       (BackdropPanel.handleLoadFromUrl notFound pathOfExample
          (typedUrl "https://example.com/a/b.png") (typedUrl "https://example.com/a/b.png"))
     = Some "Could not load image. Please check the URL and try again. Note: Some websites may block direct image loading (CORS policy). Error: Failed to fetch image. Server responded with status: 404".
Proof.
  destruct (proj2 (load_from_url_outcome notFound pathOfExample
                     (typedUrl "https://example.com/a/b.png")
                     (typedUrl "https://example.com/a/b.png")
                     [BackdropPanel.Uploader (ImageUploader.Change (Some [pngNamed "mine.png"]))])
              eq_refl)
    as (started & Hstart & _ & _ & _ & _ & _ & Hflag & _ & Hfail & Hstatus).
  injection Hstart as <-.
  destruct (Hfail (ErrorObject "Failed to fetch image. Server responded with status: 404")
              eq_refl) as (Hfile & Hurl & Herr).
  split.
  - match goal with
    | |- ?st' = _ =>
        transitivity
          {| BackdropPanel.backgroundFile := BackdropPanel.backgroundFile st';
             BackdropPanel.imageUrl := BackdropPanel.imageUrl st';
             BackdropPanel.isFetchingUrl := BackdropPanel.isFetchingUrl st';
             BackdropPanel.urlError := BackdropPanel.urlError st' |};
          [now destruct st'|]
    end.
    rewrite Hfile, Hurl, Hflag, Herr. reflexivity.
  - destruct (proj2 (load_from_url_outcome notFound pathOfExample
                       (typedUrl "https://example.com/a/b.png")
                       (typedUrl "https://example.com/a/b.png") [])
                eq_refl)
      as (started & Hstart & _ & _ & _ & _ & Hrun & _ & _ & _ & Hstatus').
    injection Hstart as <-. rewrite Hrun.
    exact (Hstatus' _ eq_refl eq_refl).
Defined.

(** X24 on a load from a server of PNG images, and on one whose content
    type holds a TAB: the panel then hands over a file without type. *)
Lemma backdrop_panel_sends_image_witness :
  ImageUploader.startsWith "image/" (type (pngNamed "b.png")) = true
  /\ BackdropPanel.handleReplaceClick
       (fold_left (BackdropPanel.step servesTabbed pathOfExample)
          [BackdropPanel.LoadSettles (typedUrl "https://example.com/a/b.png")]
          BackdropPanel.initial)
     = Some {| name := "b.png"; type := EmptyString; bytes := [137; 80; 78; 71]%N |}
  /\ (ImageUploader.startsWith "image/"
        (type {| name := "b.png"; type := EmptyString; bytes := [137; 80; 78; 71]%N |}) = true
      \/ type {| name := "b.png"; type := EmptyString; bytes := [137; 80; 78; 71]%N |}
         = EmptyString).
Proof.
  split; [|split; [reflexivity|]].
  - refine (proj2 (backdrop_panel_sends_image servesPng pathOfExample
                     [BackdropPanel.Uploader (ImageUploader.Change (Some [textFile]));
                      BackdropPanel.UrlChange "https://example.com/a/b.png";
                      BackdropPanel.LoadClick;
                      BackdropPanel.LoadSettles (typedUrl "https://example.com/a/b.png")]
                     (pngNamed "b.png") eq_refl) _).
    intros url response blob Hfetch Hblob. injection Hfetch as <-.
    injection Hblob as <-. reflexivity.
  - exact (proj1 (backdrop_panel_sends_image servesTabbed pathOfExample
                    [BackdropPanel.LoadSettles (typedUrl "https://example.com/a/b.png")]
                    {| name := "b.png"; type := EmptyString; bytes := [137; 80; 78; 71]%N |}
                    eq_refl)).
Defined.
